(** * github-pr-stats: the aggregation functions of [src/github-stats-lib.js]

    A shallow embedding of [getDetailedStats], [getSummary] and
    [filterPullRequestList], together with the parts of the JavaScript
    runtime they rely on: ordinary objects used as string-keyed maps
    (own properties in creation order, properties inherited from
    [Object.prototype], the enumeration order of [Object.keys]),
    [String.prototype.split], and the comparison of [Date] values. *)

From Stdlib Require Import ZArith NArith Ascii List Permutation Lia.
From Stdlib Require Import SpecFloat.
From stdpp Require Import base decidable option list sorting gmap strings.
From stdpp Require Import pretty.

#[local] Set Warnings "-clear-no-such-hyp".

(** ** The JavaScript runtime used by the library *)

Module Js.

(** *** Time values

    A [Date] is compared through its time value: a number of
    milliseconds, or [NaN] for an invalid date.  [None] stands for
    [NaN]; every relational comparison with [NaN] is false. *)

Definition timeval := option Z.

Definition gt (a b : timeval) : bool :=
  match a, b with
  | Some x, Some y => (y <? x)%Z
  | _, _ => false
  end.

Definition lt (a b : timeval) : bool :=
  match a, b with
  | Some x, Some y => (x <? y)%Z
  | _, _ => false
  end.

(** [a & b] on two booleans: both are converted to 32-bit integers. *)
Definition bitand (a b : bool) : Z := Z.land (Z.b2z a) (Z.b2z b).

(** [ToBoolean] of a number that is not [NaN]. *)
Definition truthy (n : Z) : bool := negb (n =? 0)%Z.

(** *** Strings *)

(** [s.split(sep)] for a separator of one character. *)
Fixpoint split (sep : ascii) (s : string) : list string :=
  match s with
  | EmptyString => [EmptyString]
  | String c s' =>
      if bool_decide (c = sep) then EmptyString :: split sep s'
      else match split sep s' with
           | p :: ps => String c p :: ps
           | [] => [String c EmptyString]
           end
  end.

Fixpoint contains (c : ascii) (s : string) : bool :=
  match s with
  | EmptyString => false
  | String d s' => bool_decide (d = c) || contains c s'
  end.

(** *** Property keys

    A key is an array index when it is the canonical decimal form of
    an integer below [2^32 - 1]. *)

Definition digit (c : ascii) : option N :=
  let n := N_of_ascii c in
  if ((48 <=? n) && (n <=? 57))%N then Some (n - 48)%N else None.

Fixpoint digits (acc : N) (s : string) : option N :=
  match s with
  | EmptyString => Some acc
  | String c s' =>
      match digit c with
      | Some d => digits (10 * acc + d)%N s'
      | None => None
      end
  end.

Definition array_index (s : string) : option N :=
  match s with
  | EmptyString => None
  | String c s' =>
      if bool_decide (c = "0"%char)
      then match s' with EmptyString => Some 0%N | _ => None end
      else match digits 0 s with
           | Some v => if (v <? 2 ^ 32 - 1)%N then Some v else None
           | None => None
           end
  end.

(** The properties every ordinary object inherits from
    [Object.prototype]; the value of each is a function or an object,
    hence truthy. *)
Definition prototype_names : list string :=
  [ "constructor"; "hasOwnProperty"; "isPrototypeOf";
    "propertyIsEnumerable"; "toLocaleString"; "toString"; "valueOf";
    "__proto__"; "__defineGetter__"; "__defineSetter__";
    "__lookupGetter__"; "__lookupSetter__" ].

Definition inherited (k : string) : bool :=
  bool_decide (k ∈ prototype_names).

(** *** Ordinary objects whose own properties hold truthy values

    [props] maps each own key to its value and [order] lists the own
    keys in the order of their creation. *)

Record obj (V : Type) : Type := Obj {
  props : gmap string V;
  order : list string
}.
Arguments Obj {V} _ _.
Arguments props {V} _.
Arguments order {V} _.

(** [{}] *)
Definition empty {V : Type} : obj V := Obj ∅ [].

(** [o[k]] when the property is an own one. *)
Definition get {V : Type} (o : obj V) (k : string) : option V :=
  props o !! k.

(** [!!o[k]]: an own property (its value is truthy) or an inherited
    one. *)
Definition has {V : Type} (o : obj V) (k : string) : bool :=
  bool_decide (is_Some (props o !! k)) || inherited k.

(** [o[k] = v] for a key that is not inherited. *)
Definition set {V : Type} (o : obj V) (k : string) (v : V) : obj V :=
  Obj (<[k := v]> (props o))
      (if bool_decide (is_Some (props o !! k)) then order o
       else order o ++ [k]).

(** [o[k].field = ...]: the write lands on the object [o[k]]; when
    that one is inherited, [o] itself is left as it is.  The library
    writes to [o[k]] only after the test [!o[k]] has made sure that it
    is an own or an inherited property. *)
Definition update {V : Type} (o : obj V) (k : string) (f : V → V) : obj V :=
  match props o !! k with
  | Some v => Obj (<[k := f v]> (props o)) (order o)
  | None => o
  end.

Definition index_le (a b : N * string) : Prop := (a.1 ≤ b.1)%N.

#[global] Instance index_le_dec (a b : N * string) : Decision (index_le a b) :=
  decide (a.1 ≤ b.1)%N.

(** The keys among [ks] that are array indices, with their value. *)
Definition indices (ks : list string) : list (N * string) :=
  omap (λ k, (λ n, (n, k)) <$> array_index k) ks.

(** [Object.keys(o)]: array indices in ascending order, then the
    other keys in creation order. *)
Definition keys {V : Type} (o : obj V) : list string :=
  (merge_sort index_le (indices (order o))).*2
  ++ filter (λ k, array_index k = None) (order o).

(** The own properties in the order of [Object.keys]. *)
Definition entries {V : Type} (o : obj V) : list (string * V) :=
  omap (λ k, (λ v, (k, v)) <$> get o k) (keys o).

End Js.

(** ** Data model *)

(** A pull request as the platform returns it; only the fields that
    [main] copies are kept.  [created_at] holds the time value of
    [new Date(pr.created_at)]. *)
Module Payload.
Record t : Type := Make {
  number : Z;
  state : string;
  created_at : Js.timeval;
  updated_at : option string;
  closed_at : option string;
  merged_at : option string;
  login : string;
  title : string
}.
End Payload.

(** A review as [main] attaches it to its pull request.  [submited_at]
    holds the time value of [new Date(review.submited_at)]. *)
Module Review.
Record t : Type := Make {
  state : string;
  reviewer : string;
  submited_at : Js.timeval
}.
End Review.

(** A pull request as [main] hands it to [getDetailedStats]. *)
Module PullRequest.
Record t : Type := Make {
  owner : string;
  repo : string;
  number : Z;
  state : string;
  created_at : Js.timeval;
  author : string;
  title : string;
  reviews : list Review.t
}.
End PullRequest.

(** The value stored under each key of the accumulator of
    [getDetailedStats].  The counters are numbers that only grow by one
    per pull request; they stay in the range where the arithmetic of
    JavaScript numbers is that of the naturals. *)
Module Counters.
Record t : Type := Make {
  created : nat;
  commented : nat;
  approved : nat
}.
Definition zero : t := Make 0 0 0.
End Counters.

(** A row of the detailed table. *)
Module Row.
Record t : Type := Make {
  owner : string;
  repo : string;
  author : string;
  created : nat;
  commented : nat;
  approved : nat
}.
End Row.

(** The value stored under each author in the accumulator of
    [getSummary]; the two [Set]s hold strings. *)
Module Entry.
Record t : Type := Make {
  pull_requests : nat;
  repos : gset string;
  commented : nat;
  approved : nat;
  reposReviewed : gset string
}.
Definition init : t := Make 0 ∅ 0 0 ∅.
End Entry.

(** A row of the summary table. *)
Module Summary.
Record t : Type := Make {
  author : string;
  pull_requests : nat;
  repos : nat;
  commented : nat;
  approved : nat;
  repos_reviewed : nat
}.
End Summary.

(** ** The functions of the library *)

(** [`${a}/${b}`] *)
Definition slash (a b : string) : string := a +:+ "/" +:+ b.

(** The date test of lines 43 and 56: [new Date(t) > dateFrom & new
    Date(t) < dateTo]. *)
Definition validInterval (t dateFrom dateTo : Js.timeval) : Z :=
  Js.bitand (Js.gt t dateFrom) (Js.lt t dateTo).

Section Aggregation.

Variables dateFrom dateTo : Js.timeval.

(** [filterPullRequestList], lines 132-137. *)
Definition filterPullRequestList (pr : Payload.t) : bool :=
  let open := bool_decide (Payload.state pr = "open") in
  let createdAfter := Js.gt (Payload.created_at pr) dateFrom in
  let createdBefore := Js.lt (Payload.created_at pr) dateTo in
  open || (createdAfter && createdBefore).

(** The normalisation done by [main], lines 172-183; the reviews are
    attached afterwards, lines 194-199. *)
Definition normalize (owner repo : string) (reviews : list Review.t)
    (pr : Payload.t) : PullRequest.t :=
  PullRequest.Make owner repo (Payload.number pr) (Payload.state pr)
    (Payload.created_at pr) (Payload.login pr) (Payload.title pr) reviews.

Definition bump_created (c : Counters.t) : Counters.t :=
  Counters.Make (Counters.created c + 1) (Counters.commented c)
    (Counters.approved c).

Definition bump_commented (c : Counters.t) : Counters.t :=
  Counters.Make (Counters.created c) (Counters.commented c + 1)
    (Counters.approved c).

Definition bump_approved (c : Counters.t) : Counters.t :=
  Counters.Make (Counters.created c) (Counters.commented c)
    (Counters.approved c + 1).

(** [if (!acc[key]) acc[key] = { created: 0, commented: 0, approved: 0 }] *)
Definition ensure (acc : Js.obj Counters.t) (key : string) : Js.obj Counters.t :=
  if negb (Js.has acc key) then Js.set acc key Counters.zero else acc.

(** The accumulator together with the two marker objects of the pull
    request being processed. *)
Record loop : Type := Loop {
  acc : Js.obj Counters.t;
  reviewsCommented : Js.obj bool;
  reviewsApproved : Js.obj bool
}.

(** The callback of [pr.reviews.forEach], lines 55-73. *)
Definition eachReview (pr : PullRequest.t) (st : loop) (review : Review.t) : loop :=
  let validReviewInterval :=
    validInterval (Review.submited_at review) dateFrom dateTo in
  let alignReview :=
    negb (bool_decide (PullRequest.author pr = Review.reviewer review)) in
  if Js.truthy validReviewInterval && alignReview then
    let reviewerKey :=
      slash (PullRequest.owner pr)
        (slash (PullRequest.repo pr) (Review.reviewer review)) in
    let acc1 := ensure (acc st) reviewerKey in
    if bool_decide (Review.state review = "COMMENTED")
       && negb (Js.has (reviewsCommented st) reviewerKey) then
      Loop (Js.update acc1 reviewerKey bump_commented)
           (Js.set (reviewsCommented st) reviewerKey true)
           (reviewsApproved st)
    else if bool_decide (Review.state review = "APPROVED")
            && negb (Js.has (reviewsApproved st) reviewerKey) then
      Loop (Js.update acc1 reviewerKey bump_approved)
           (reviewsCommented st)
           (Js.set (reviewsApproved st) reviewerKey true)
    else Loop acc1 (reviewsCommented st) (reviewsApproved st)
  else st.

(** Lines 41-50: the pull request itself. *)
Definition countCreated (acc0 : Js.obj Counters.t) (pr : PullRequest.t)
    : Js.obj Counters.t :=
  let key :=
    slash (PullRequest.owner pr)
      (slash (PullRequest.repo pr) (PullRequest.author pr)) in
  let validPullRequestInterval :=
    validInterval (PullRequest.created_at pr) dateFrom dateTo in
  if Js.truthy validPullRequestInterval then
    Js.update (ensure acc0 key) key bump_created
  else acc0.

(** Lines 52-73: the reviews, with two fresh marker objects. *)
Definition countReviews (acc0 : Js.obj Counters.t) (pr : PullRequest.t) : loop :=
  fold_left (eachReview pr) (PullRequest.reviews pr)
    (Loop acc0 Js.empty Js.empty).

(** The callback of [pullRequests.reduce], lines 40-76. *)
Definition reducer (acc0 : Js.obj Counters.t) (pr : PullRequest.t)
    : Js.obj Counters.t :=
  acc (countReviews (countCreated acc0 pr) pr).

(** Lines 78-86: [const [owner, repo, author] = key.split('/')] and
    the spread of the counters.  Every key written by [reducer] holds
    two separators, so the first three parts exist. *)
Definition toRow (entry : string * Counters.t) : Row.t :=
  let parts := Js.split "/" entry.1 in
  Row.Make (nth 0 parts "undefined") (nth 1 parts "undefined")
    (nth 2 parts "undefined")
    (Counters.created entry.2) (Counters.commented entry.2)
    (Counters.approved entry.2).

Definition grouped (pullRequests : list PullRequest.t) : Js.obj Counters.t :=
  fold_left reducer pullRequests Js.empty.

(** [getDetailedStats], lines 38-89. *)
Definition getDetailedStats (pullRequests : list PullRequest.t) : list Row.t :=
  toRow <$> Js.entries (grouped pullRequests).

End Aggregation.

(** *** [getSummary]

    The function can throw: [None] stands for an uncaught [TypeError]. *)

(** [list.reduce(f, a)] for a callback that can throw. *)
Fixpoint reduce {A B : Type} (f : A → B → option A) (l : list B) (a : A)
    : option A :=
  match l with
  | [] => Some a
  | x :: l' => a' ← f a x; reduce f l' a'
  end.

(** [o[k].field.add(x)]: on an own entry the set grows; on an inherited
    object [field] is [undefined] and the call throws. *)
Definition invoke {V : Type} (o : Js.obj V) (k : string) (f : V → V)
    : option (Js.obj V) :=
  match Js.get o k with
  | Some _ => Some (Js.update o k f)
  | None => None
  end.

Definition add_pull_requests (n : nat) (e : Entry.t) : Entry.t :=
  Entry.Make (Entry.pull_requests e + n) (Entry.repos e) (Entry.commented e)
    (Entry.approved e) (Entry.reposReviewed e).

Definition add_repo (r : string) (e : Entry.t) : Entry.t :=
  Entry.Make (Entry.pull_requests e) ({[ r ]} ∪ Entry.repos e)
    (Entry.commented e) (Entry.approved e) (Entry.reposReviewed e).

Definition add_commented (n : nat) (e : Entry.t) : Entry.t :=
  Entry.Make (Entry.pull_requests e) (Entry.repos e) (Entry.commented e + n)
    (Entry.approved e) (Entry.reposReviewed e).

Definition add_approved (n : nat) (e : Entry.t) : Entry.t :=
  Entry.Make (Entry.pull_requests e) (Entry.repos e) (Entry.commented e)
    (Entry.approved e + n) (Entry.reposReviewed e).

Definition add_repoReviewed (r : string) (e : Entry.t) : Entry.t :=
  Entry.Make (Entry.pull_requests e) (Entry.repos e) (Entry.commented e)
    (Entry.approved e) ({[ r ]} ∪ Entry.reposReviewed e).

(** The callback of [stats.reduce], lines 92-116. *)
Definition summarise (acc0 : Js.obj Entry.t) (item : Row.t)
    : option (Js.obj Entry.t) :=
  let author := Row.author item in
  let acc1 :=
    if negb (Js.has acc0 author) then Js.set acc0 author Entry.init
    else acc0 in
  let acc2 := Js.update acc1 author (add_pull_requests (Row.created item)) in
  acc3 ← (if (0 <? Row.created item)%nat
          then invoke acc2 author
                 (add_repo (slash (Row.owner item) (Row.repo item)))
          else Some acc2);
  let acc4 := Js.update acc3 author (add_commented (Row.commented item)) in
  let acc5 := Js.update acc4 author (add_approved (Row.approved item)) in
  if (0 <? Row.commented item)%nat || (0 <? Row.approved item)%nat
  then invoke acc5 author
         (add_repoReviewed (slash (Row.owner item) (Row.repo item)))
  else Some acc5.

(** Lines 118-127. *)
Definition toSummary (entry : string * Entry.t) : Summary.t :=
  Summary.Make entry.1 (Entry.pull_requests entry.2)
    (size (Entry.repos entry.2)) (Entry.commented entry.2)
    (Entry.approved entry.2) (size (Entry.reposReviewed entry.2)).

Definition finalResult (stats : list Row.t) : option (Js.obj Entry.t) :=
  reduce summarise stats Js.empty.

(** [getSummary], lines 91-130. *)
Definition getSummary (stats : list Row.t) : option (list Summary.t) :=
  finalResult ← finalResult stats;
  Some (toSummary <$> Js.entries finalResult).

(** ** Well-formed objects

    [order] lists exactly the own keys, each once.  Every object built
    from [{}] by assignments is of this kind. *)

Definition wf {V : Type} (o : Js.obj V) : Prop :=
  NoDup (Js.order o) ∧ ∀ k, k ∈ Js.order o ↔ is_Some (Js.props o !! k).

(** ** What the pull requests contribute to a key

    The predicates below speak about the input only; the lemmas of the
    section relate the accumulator built by [reducer] to them. *)

Definition b2n (b : bool) : nat := if b then 1 else 0.

Fixpoint count {A : Type} (f : A → bool) (l : list A) : nat :=
  match l with
  | [] => 0
  | x :: l' => b2n (f x) + count f l'
  end.

Definition raise (n m p : nat) (c : Counters.t) : Counters.t :=
  Counters.Make (Counters.created c + n) (Counters.commented c + m)
    (Counters.approved c + p).

(** [c0], raised by [(n, m, p)] when [t] holds; an absent row counts as
    a row of zeros. *)
Definition credit (c0 : option Counters.t) (t : bool) (n m p : nat)
    : option Counters.t :=
  if t then Some (raise n m p (default Counters.zero c0)) else c0.

(** The counter [f] of the row filed under [k]; an absent row counts as
    zero. *)
Definition counter (f : Counters.t → nat) (o : Js.obj Counters.t) (k : string)
    : nat :=
  from_option f 0 (Js.get o k).

Definition isState (s : string) (r : Review.t) : bool :=
  bool_decide (Review.state r = s).

Definition anyState (r : Review.t) : bool := true.

(** The key fields of a row, and the key under which a triple is
    filed. *)
Definition triple (row : Row.t) : string * string * string :=
  (Row.owner row, Row.repo row, Row.author row).

Definition keyOf (t : string * string * string) : string :=
  slash t.1.1 (slash t.1.2 t.2).

(** No name of the triple holds the separator of the keys. *)
Definition clean (t : string * string * string) : Prop :=
  Js.contains "/" t.1.1 = false ∧ Js.contains "/" t.1.2 = false
  ∧ Js.contains "/" t.2 = false.

Definition slashFree (pr : PullRequest.t) : Prop :=
  clean (PullRequest.owner pr, PullRequest.repo pr, PullRequest.author pr)
  ∧ ∀ r, r ∈ PullRequest.reviews pr → Js.contains "/" (Review.reviewer r) = false.

Section Contribution.

Variables dateFrom dateTo : Js.timeval.

Definition inWindow (t : Js.timeval) : bool :=
  Js.gt t dateFrom && Js.lt t dateTo.

(** [dateFrom < t < dateTo], all three being valid dates. *)
Definition strictlyInside (t : Js.timeval) : Prop :=
  ∃ x a b, t = Some x ∧ dateFrom = Some a ∧ dateTo = Some b ∧ (a < x < b)%Z.

(** A review counts when it lies in the window and is not the
    author's own. *)
Definition qualifying (pr : PullRequest.t) (r : Review.t) : bool :=
  inWindow (Review.submited_at r)
  && negb (bool_decide (PullRequest.author pr = Review.reviewer r)).

Definition prKey (pr : PullRequest.t) : string :=
  slash (PullRequest.owner pr)
    (slash (PullRequest.repo pr) (PullRequest.author pr)).

Definition reviewerKey (pr : PullRequest.t) (r : Review.t) : string :=
  slash (PullRequest.owner pr)
    (slash (PullRequest.repo pr) (Review.reviewer r)).

Definition targets (P : Review.t → bool) (pr : PullRequest.t) (k : string)
    (r : Review.t) : bool :=
  qualifying pr r && bool_decide (reviewerKey pr r = k) && P r.

(** Some review among [rs] qualifies, is filed under [k] and
    satisfies [P]. *)
Definition reviewed (P : Review.t → bool) (pr : PullRequest.t)
    (rs : list Review.t) (k : string) : bool :=
  existsb (targets P pr k) rs.

(** The pull request is created in the window and filed under [k]. *)
Definition opens (pr : PullRequest.t) (k : string) : bool :=
  inWindow (PullRequest.created_at pr) && bool_decide (prKey pr = k).

Definition active (pr : PullRequest.t) (k : string) : bool :=
  opens pr k || reviewed anyState pr (PullRequest.reviews pr) k.

(** The same events, told by the triple (owner, repo, actor) they
    belong to rather than by the key. *)
Definition createdBy (t : string * string * string) (pr : PullRequest.t)
    : bool :=
  inWindow (PullRequest.created_at pr)
  && bool_decide
       ((PullRequest.owner pr, PullRequest.repo pr, PullRequest.author pr) = t).

Definition reviewedBy (P : Review.t → bool) (t : string * string * string)
    (pr : PullRequest.t) : bool :=
  existsb
    (λ r, qualifying pr r
          && bool_decide
               ((PullRequest.owner pr, PullRequest.repo pr, Review.reviewer r)
                = t)
          && P r)
    (PullRequest.reviews pr).

Definition touchedBy (t : string * string * string) (pr : PullRequest.t)
    : bool :=
  createdBy t pr || reviewedBy anyState t pr.

(** The rows [rows] are keyed by triple: no two rows share a triple,
    and a row is listed exactly when its triple has an event and its
    counters are the numbers of pull requests that count for that
    triple. *)
Definition keyedByTriple (prs : list PullRequest.t) (rows : list Row.t) : Prop :=
  NoDup (triple <$> rows)
  ∧ ∀ row, row ∈ rows ↔
      existsb (touchedBy (triple row)) prs = true
      ∧ Row.created row = count (createdBy (triple row)) prs
      ∧ Row.commented row
        = count (reviewedBy (isState "COMMENTED") (triple row)) prs
      ∧ Row.approved row
        = count (reviewedBy (isState "APPROVED") (triple row)) prs.

(** [pr] without the reviews of its own author. *)
Definition dropSelfReviews (pr : PullRequest.t) : PullRequest.t :=
  PullRequest.Make (PullRequest.owner pr) (PullRequest.repo pr)
    (PullRequest.number pr) (PullRequest.state pr)
    (PullRequest.created_at pr) (PullRequest.author pr)
    (PullRequest.title pr)
    (filter (λ r, Review.reviewer r ≠ PullRequest.author pr)
       (PullRequest.reviews pr)).

(** [q] is [p] with its reviews in another order. *)
Definition reordered (p q : PullRequest.t) : Prop :=
  PullRequest.owner p = PullRequest.owner q
  ∧ PullRequest.repo p = PullRequest.repo q
  ∧ PullRequest.number p = PullRequest.number q
  ∧ PullRequest.state p = PullRequest.state q
  ∧ PullRequest.created_at p = PullRequest.created_at q
  ∧ PullRequest.author p = PullRequest.author q
  ∧ PullRequest.title p = PullRequest.title q
  ∧ PullRequest.reviews p ≡ₚ PullRequest.reviews q.

(** The counter that a review in state [s] raises. *)
Definition field (s : string) : Counters.t → nat :=
  if bool_decide (s = "COMMENTED") then Counters.commented
  else Counters.approved.

(** The state of the loop over the reviews of [pr], after the reviews
    [rs], when it started from the accumulator [acc0]. *)
Record tracks (pr : PullRequest.t) (acc0 : Js.obj Counters.t)
    (rs : list Review.t) (st : loop) : Prop := Tracks {
  tracks_acc : ∀ k,
    Js.props (acc st) !! k
    = credit (Js.props acc0 !! k) (reviewed anyState pr rs k) 0
        (b2n (reviewed (isState "COMMENTED") pr rs k))
        (b2n (reviewed (isState "APPROVED") pr rs k));
  tracks_commented : ∀ k,
    Js.has (reviewsCommented st) k
    = reviewed (isState "COMMENTED") pr rs k || Js.inherited k;
  tracks_approved : ∀ k,
    Js.has (reviewsApproved st) k
    = reviewed (isState "APPROVED") pr rs k || Js.inherited k;
  tracks_wf : wf acc0 → wf (acc st)
}.

End Contribution.

(** ** What the detailed rows contribute to an author *)

(** The callback of [getSummary] on an entry that is an own property. *)
Definition addRow (e : Entry.t) (item : Row.t) : Entry.t :=
  let e1 := add_pull_requests (Row.created item) e in
  let e2 :=
    if (0 <? Row.created item)%nat
    then add_repo (slash (Row.owner item) (Row.repo item)) e1 else e1 in
  let e3 := add_commented (Row.commented item) e2 in
  let e4 := add_approved (Row.approved item) e3 in
  if (0 <? Row.commented item)%nat || (0 <? Row.approved item)%nat
  then add_repoReviewed (slash (Row.owner item) (Row.repo item)) e4 else e4.

(** The entry [e0] after the rows [mine] of one author. *)
Definition entryAfter (e0 : option Entry.t) (mine : list Row.t)
    : option Entry.t :=
  match mine with
  | [] => e0
  | _ :: _ => Some (fold_left addRow mine (default Entry.init e0))
  end.

Definition rowsOf (a : string) (stats : list Row.t) : list Row.t :=
  filter (λ r, Row.author r = a) stats.

Definition total (f : Row.t → nat) (l : list Row.t) : nat :=
  foldr (λ r n, f r + n) 0 l.

Definition authoring (l : list Row.t) : list Row.t :=
  filter (λ r, 0 < Row.created r) l.

Definition reviewing (l : list Row.t) : list Row.t :=
  filter (λ r, 0 < Row.commented r ∨ 0 < Row.approved r) l.

(** The distinct pairs (owner, repo) of the rows [l]. *)
Definition pairs (l : list Row.t) : gset (string * string) :=
  list_to_set ((λ r, (Row.owner r, Row.repo r)) <$> l).

(** [out] is the summary of [stats]: one row per author, with the sums
    of the three counters and the numbers of distinct repositories. *)
Definition summarises (stats : list Row.t) (out : list Summary.t) : Prop :=
  NoDup (Summary.author <$> out)
  ∧ (∀ a, a ∈ Summary.author <$> out ↔ a ∈ Row.author <$> stats)
  ∧ ∀ s, s ∈ out →
      Summary.pull_requests s
      = total Row.created (rowsOf (Summary.author s) stats)
      ∧ Summary.commented s
        = total Row.commented (rowsOf (Summary.author s) stats)
      ∧ Summary.approved s
        = total Row.approved (rowsOf (Summary.author s) stats)
      ∧ Summary.repos s
        = size (pairs (authoring (rowsOf (Summary.author s) stats)))
      ∧ Summary.repos_reviewed s
        = size (pairs (reviewing (rowsOf (Summary.author s) stats))).

(** The rows [getSummary] is written for: the owner holds no slash and
    the author is not the name of a property of [Object.prototype]. *)
Definition plain (row : Row.t) : Prop :=
  Js.contains "/" (Row.owner row) = false ∧ Js.inherited (Row.author row) = false.

(** ** The order of the keys *)

(** Every own key of the accumulator holds a slash. *)
Definition slashed (o : Js.obj Counters.t) : Prop :=
  Forall (λ k, Js.contains "/" k = true) (Js.order o).

(** The reviewers of [pr] with a qualifying review in state [s]. *)
Definition reviewersIn (dateFrom dateTo : Js.timeval) (s : string)
    (pr : PullRequest.t) : gset string :=
  list_to_set
    (Review.reviewer
       <$> filter (λ r, qualifying dateFrom dateTo pr r && isState s r = true)
             (PullRequest.reviews pr)).

(** ** When [getSummary] throws *)

(** A row that makes [getSummary] throw: its author is the name of a
    property of [Object.prototype] and one of its counters is positive. *)
Definition throwing (row : Row.t) : bool :=
  Js.inherited (Row.author row)
  && ((0 <? Row.created row)%nat || (0 <? Row.commented row)%nat
      || (0 <? Row.approved row)%nat).

(** The rows whose author gets an entry of its own. *)
Definition ownRows (stats : list Row.t) : list Row.t :=
  filter (λ r, Js.inherited (Row.author r) = false) stats.

(** No own key of [o] shadows a property of [Object.prototype]. *)
Definition noInherited {V : Type} (o : Js.obj V) : Prop :=
  ∀ k, Js.inherited k = true → Js.props o !! k = None.

(** ** Fetching: [getPullRequests] and the loops of [main]

    The remote platform is what [main] sees of it: for a repository,
    the pages of pull requests that the paginating iterator yields, and
    for a pull request, the reviews of the response. *)

Module Repo.
Record t : Type := Make {
  owner : string;
  repo : string
}.
End Repo.

(** A review as the platform returns it; [submitted_at] holds the time
    value of [new Date(review.submitted_at)]. *)
Module RawReview.
Record t : Type := Make {
  state : string;
  login : string;
  submitted_at : Js.timeval
}.
End RawReview.

Record platform : Type := Platform {
  pulls : string → string → list (list Payload.t);
  reviewsOf : string → string → Z → list RawReview.t
}.

Section Fetching.

Variables dateFrom dateTo : Js.timeval.
Variable api : platform.

(** [getPullRequests], lines 7-23: [prs = [...prs, ...data.filter(...)]]
    for each page [data]. *)
Definition getPullRequests (owner repo : string) : list Payload.t :=
  fold_left
    (λ prs data,
       prs ++ List.filter (filterPullRequestList dateFrom dateTo) data)
    (pulls api owner repo) [].







End Fetching.

(** ** The progress bar

    [displayProgress] and [displayDone] are given by what they write to
    the standard output, as UTF-8 text, or by the [RangeError] of
    [String.prototype.repeat] ([None]).  Numbers are IEEE 754 doubles:
    the product and the quotient of line 141 are those of [SpecFloat],
    the specification of binary floating-point arithmetic of the
    Standard Library, at 53 bits of precision. *)
Module Display.

Definition prec : Z := 53.
Definition emax : Z := 1024.

(** The arguments of [displayProgress] and [displayDone] are loop
    counters and lengths of arrays.  They are taken among the safe
    integers ([Number.isSafeInteger]): every one of them is a Number,
    and prints as its decimal digits. *)
Definition safe (z : Z) : bool := (Z.abs z <? 2 ^ 53)%Z.

Record safeInteger : Type := SafeInteger {
  value : Z;
  isSafe : safe value = true
}.

(** The Number of an integer literal or of a safe integer. *)
Definition ofZ (z : Z) : spec_float := binary_normalize prec emax z 0 false.

(** An integral Number by its value, an infinity, or [NaN]. *)
Inductive number : Type :=
  | Int (z : Z)
  | PosInf
  | NegInf
  | NaN.

(** [Math.floor(x)] *)
Definition floor (x : spec_float) : number :=
  match x with
  | S754_zero _ => Int 0
  | S754_infinity false => PosInf
  | S754_infinity true => NegInf
  | S754_nan => NaN
  | S754_finite s m e => Int (Z.shiftl (if s then Zneg m else Zpos m) e)
  end.

Definition barLength : Z := 60.

(** [Math.floor(progress * barLength / total)], line 141 *)
Definition fillOf (progress total : safeInteger) : number :=
  floor (SFdiv prec emax
           (SFmul prec emax (ofZ (value progress)) (ofZ barLength))
           (ofZ (value total))).

(** [a - n] for an integral [n].  The difference of the doubles is the
    double nearest to the difference of the integers: the same integer
    as long as that one is at least [-2^53], and negative like it
    below. *)
Definition minus (a : Z) (n : number) : number :=
  match n with
  | Int z => Int (a - z)%Z
  | PosInf => NegInf
  | NegInf => PosInf
  | NaN => NaN
  end.

Fixpoint copies (s : string) (n : nat) : string :=
  match n with
  | 0 => ""
  | S n' => s +:+ copies s n'
  end.

(** [s.repeat(n)]: a count of [NaN] is read as zero; a negative or
    infinite count throws.  (An engine throws the same [RangeError] on
    a count above its longest string; in [displayProgress] so many
    cells make the count of blanks negative, and the outcome is the
    same.) *)
Definition repeat (s : string) (n : number) : option string :=
  match n with
  | Int z => if (z <? 0)%Z then None else Some (copies s (Z.to_nat z))
  | NaN => Some ""
  | PosInf | NegInf => None
  end.

(** ['\x1B[2K'], ['\r'] and ['\n'] *)
Definition clearLine : string := String (ascii_of_nat 27) "[2K".
Definition cr : string := String (ascii_of_nat 13) "".
Definition nl : string := String (ascii_of_nat 10) "".

(** [displayProgress], lines 139-145. *)
Definition displayProgress (progress total : safeInteger) (label : string)
    : option (list string) :=
  let fill := fillOf progress total in
  filled ← repeat "■" fill;
  blank ← repeat " " (minus barLength fill);
  let progressBar := "[" +:+ filled +:+ blank +:+ "]" in
  Some [ clearLine;
         cr +:+ progressBar +:+ " " +:+ pretty (value progress) +:+ "/"
            +:+ pretty (value total) +:+ " " +:+ label ].

(** [displayDone], lines 147-153. *)
Definition displayDone (total : safeInteger) : option (list string) :=
  filled ← repeat "■" (Int barLength);
  let progressBar := "[" +:+ filled +:+ "]" in
  Some [ clearLine;
         cr +:+ progressBar +:+ " " +:+ pretty (value total) +:+ "/"
            +:+ pretty (value total) +:+ " Done";
         nl ].

(** The bar with [fill] cells out of [barLength] filled. *)
Definition bar (fill : nat) : string :=
  "[" +:+ copies "■" fill +:+ copies " " (60 - fill) +:+ "]".

(** The double of a positive integer [z] below [2^53], with sign [s]:
    a mantissa of 53 bits. *)
Definition normal (s : bool) (z : Z) : spec_float :=
  S754_finite s (Z.to_pos (z * 2 ^ (52 - Z.log2 z))) (Z.log2 z - 52).

(** A mantissa of 53 bits that rounding may have carried to [2^53],
    with its exponent, put back on 53 bits. *)
Definition renorm (m e : Z) : Z * Z :=
  if (m <? 2 ^ 53)%Z then (m, e) else ((2 ^ 52)%Z, (e + 1)%Z).

End Display.

(** ** From the pull requests to the summary *)

Section EndToEnd.

Variables dateFrom dateTo : Js.timeval.

(** [pr] is created in the window by [a]. *)
Definition authoredBy (a : string) (pr : PullRequest.t) : bool :=
  inWindow dateFrom dateTo (PullRequest.created_at pr)
  && bool_decide (PullRequest.author pr = a).

(** [pr] carries a qualifying review of [a] that satisfies [P]. *)
Definition reviewedAs (P : Review.t → bool) (a : string)
    (pr : PullRequest.t) : bool :=
  existsb
    (λ r, qualifying dateFrom dateTo pr r
          && bool_decide (Review.reviewer r = a) && P r)
    (PullRequest.reviews pr).

Definition countedReview (r : Review.t) : bool :=
  isState "COMMENTED" r || isState "APPROVED" r.

(** The distinct repositories of the pull requests [l]. *)
Definition repoSet (l : list PullRequest.t) : gset (string * string) :=
  list_to_set ((λ pr, (PullRequest.owner pr, PullRequest.repo pr)) <$> l).

End EndToEnd.

(** The names of [pr] hold no slash and are no names of properties of
    [Object.prototype]. *)
Definition plainNames (pr : PullRequest.t) : Prop :=
  slashFree pr
  ∧ Js.inherited (PullRequest.author pr) = false
  ∧ ∀ r, r ∈ PullRequest.reviews pr → Js.inherited (Review.reviewer r) = false.

(** The names of [l] in the order of their first appearance. *)
Definition firstSeen (l : list string) : list string :=
  fold_left (λ seen a, if decide (a ∈ seen) then seen else seen ++ [a]) l [].

(** ** Sample inputs

    The window of the script, [2023-09-15T00:00:00Z] to
    [2023-09-23T00:00:00Z], and the pull requests of the scenarios. *)
Module Sample.

(** Midnight (UTC) of a day of September 2023, in milliseconds. *)
Definition sept (day : Z) : Js.timeval :=
  Some (1693526400000 + (day - 1) * 86400000)%Z.

Definition dateFrom : Js.timeval := sept 15.
Definition dateTo : Js.timeval := sept 23.

Definition commented17 : Review.t := Review.Make "COMMENTED" "bob" (sept 17).
Definition commented18 : Review.t := Review.Make "COMMENTED" "bob" (sept 18).
Definition approved19 : Review.t := Review.Make "APPROVED" "bob" (sept 19).

(** Pull request 1 of [acme/widgets], by alice, with three reviews by
    bob. *)
Definition pr1 : PullRequest.t :=
  PullRequest.Make "acme" "widgets" 1 "closed" (sept 16) "alice" "Add widget"
    [commented17; commented18; approved19].

(** The same pull request with its reviews in another order. *)
Definition pr1' : PullRequest.t :=
  PullRequest.Make "acme" "widgets" 1 "closed" (sept 16) "alice" "Add widget"
    [approved19; commented18; commented17].

(** Pull request 2 of the same repository, commented by bob. *)
Definition pr2 : PullRequest.t :=
  PullRequest.Make "acme" "widgets" 2 "closed" (sept 17) "alice" "Fix widget"
    [Review.Make "COMMENTED" "bob" (sept 20)].

(** A pull request on which carol asks for changes, and nothing else. *)
Definition pr3 : PullRequest.t :=
  PullRequest.Make "acme" "widgets" 3 "closed" (sept 16) "alice" "Drop widget"
    [Review.Make "CHANGES_REQUESTED" "carol" (sept 17)].

(** A pull request reviewed by its own author and, on the two ends of
    the window, by bob. *)
Definition pr4 : PullRequest.t :=
  PullRequest.Make "acme" "widgets" 4 "closed" (sept 15) "alice" "Edge"
    [Review.Make "APPROVED" "alice" (sept 17);
     Review.Make "COMMENTED" "bob" (sept 15);
     Review.Make "APPROVED" "bob" (sept 23)].

(** An open pull request created before the window. *)
Definition stale : Payload.t :=
  Payload.Make 5 "open" (sept 1) (Some "2023-09-18T10:00:00Z") None None
    "alice" "Old widget".

(** Two pull requests whose keys collide: the slash of a name is read
    as a separator. *)
Definition slashed : list PullRequest.t :=
  [ PullRequest.Make "a/b" "c" 1 "closed" (sept 16) "d" "t" [];
    PullRequest.Make "a" "b/c" 1 "closed" (sept 16) "d" "t" [] ].

Definition slashedRows : list Row.t :=
  [ Row.Make "a/b" "c" "x" 1 0 0; Row.Make "a" "b/c" "x" 1 0 0 ].

(** What a platform with one repository returns: two pages of pull
    requests, and one review on pull request 1. *)
Definition fresh : Payload.t :=
  Payload.Make 1 "closed" (sept 16) (Some "2023-09-18T10:00:00Z") None None
    "alice" "Add widget".

Definition outdated : Payload.t :=
  Payload.Make 6 "closed" (sept 1) (Some "2023-09-02T10:00:00Z") None None
    "alice" "Older widget".

Definition api : platform :=
  Platform
    (λ owner repo,
       if decide (owner = "acme" ∧ repo = "widgets")
       then [[fresh; outdated]; [stale]] else [])
    (λ owner repo number,
       if (number =? 1)%Z
       then [RawReview.Make "COMMENTED" "bob" (sept 17)] else []).

Definition repos : list Repo.t := [Repo.Make "acme" "widgets"].

(** The detailed table of pull requests 1 and 2, and its summary. *)
Definition rows : list Row.t :=
  [ Row.Make "acme" "widgets" "alice" 2 0 0;
    Row.Make "acme" "widgets" "bob" 0 2 1 ].

Definition summary : list Summary.t :=
  [ Summary.Make "alice" 2 1 0 0 0; Summary.Make "bob" 0 0 2 1 1 ].

(** Rows of authors whose names are array indices. *)
Definition numbered : list Row.t :=
  [ Row.Make "acme" "widgets" "bob" 1 0 0;
    Row.Make "acme" "widgets" "7" 1 0 0;
    Row.Make "acme" "widgets" "10" 0 1 0;
    Row.Make "acme" "gadgets" "bob" 0 0 1;
    Row.Make "acme" "widgets" "2" 1 0 0 ].

(** A pull request of the user whose login is [constructor]. *)
Definition byConstructor : PullRequest.t :=
  PullRequest.Make "acme" "widgets" 7 "closed" (sept 16) "constructor"
    "Add gadget" [].

(** Counters of the progress bar. *)
Definition one : Display.safeInteger := Display.SafeInteger 1 eq_refl.
Definition two : Display.safeInteger := Display.SafeInteger 2 eq_refl.
Definition three : Display.safeInteger := Display.SafeInteger 3 eq_refl.

(** Safe integers whose product with 60 is not. *)
Definition wide : Display.safeInteger :=
  Display.SafeInteger 738729907075564 eq_refl.
Definition wider : Display.safeInteger :=
  Display.SafeInteger 6331970632076263 eq_refl.
Definition large : Display.safeInteger :=
  Display.SafeInteger 600479950316067 eq_refl.

End Sample.

(** ** Facts about the runtime *)

Section JsFacts.

Lemma truthy_bitand (a b : bool) : Js.truthy (Js.bitand a b) = a && b.
Proof. by destruct a, b. Qed.

Lemma gt_Some (a b : Js.timeval) :
  Js.gt a b = true ↔ ∃ x y, a = Some x ∧ b = Some y ∧ (y < x)%Z.
Proof.
  unfold Js.gt. split.
  - destruct a as [x|], b as [y|]; try discriminate.
    intros H. exists x, y. split_and!; [done..|lia].
  - intros (x & y & -> & -> & H). by apply Z.ltb_lt.
Qed.

Lemma lt_Some (a b : Js.timeval) :
  Js.lt a b = true ↔ ∃ x y, a = Some x ∧ b = Some y ∧ (x < y)%Z.
Proof.
  unfold Js.lt. split.
  - destruct a as [x|], b as [y|]; try discriminate.
    intros H. exists x, y. split_and!; [done..|lia].
  - intros (x & y & -> & -> & H). by apply Z.ltb_lt.
Qed.

(** No string without the separator is cut by [split]. *)
Lemma split_none (c : ascii) (s : string) :
  Js.contains c s = false → Js.split c s = [s].
Proof.
  induction s as [|d s IH]; simpl; [done|].
  intros [Hd Hs]%orb_false_iff. rewrite Hd, (IH Hs). done.
Qed.

Lemma split_first (c : ascii) (a b : string) :
  Js.contains c a = false →
  Js.split c (a +:+ String c b) = a :: Js.split c b.
Proof.
  induction a as [|d a IH]; simpl.
  - intros _. by rewrite bool_decide_eq_true_2.
  - intros [Hd Ha]%orb_false_iff. rewrite Hd, (IH Ha). done.
Qed.

Lemma contains_app (c : ascii) (a b : string) :
  Js.contains c (a +:+ b) = Js.contains c a || Js.contains c b.
Proof.
  induction a as [|d a IH]; simpl; [done|]. by rewrite IH, orb_assoc.
Qed.

Lemma contains_slash (a b : string) : Js.contains "/" (slash a b) = true.
Proof.
  unfold slash. rewrite contains_app. simpl. apply orb_true_r.
Qed.

Lemma slash_cons (a b : string) : slash a b = a +:+ String "/" b.
Proof. reflexivity. Qed.

(** The first part of a key decides where it is cut. *)
Lemma slash_inj (a a' b b' : string) :
  Js.contains "/" a = false → Js.contains "/" a' = false →
  slash a b = slash a' b' → a = a' ∧ b = b'.
Proof.
  rewrite !slash_cons. revert a'.
  induction a as [|d a IH]; intros [|d' a']; cbn [String.append Js.contains].
  - intros _ _ [= ->]. done.
  - intros _ [Hd _]%orb_false_iff [= <- _].
    by rewrite bool_decide_eq_true_2 in Hd.
  - intros [Hd _]%orb_false_iff _ [= -> _].
    by rewrite bool_decide_eq_true_2 in Hd.
  - intros [_ Ha]%orb_false_iff [_ Ha']%orb_false_iff [= -> Heq].
    destruct (IH _ Ha Ha' Heq) as [-> ->]. done.
Qed.

Lemma split_key (o r a : string) :
  Js.contains "/" o = false → Js.contains "/" r = false →
  Js.contains "/" a = false →
  Js.split "/" (slash o (slash r a)) = [o; r; a].
Proof.
  intros Ho Hr Ha.
  rewrite !slash_cons.
  rewrite (split_first _ _ _ Ho), (split_first _ _ _ Hr).
  by rewrite (split_none _ _ Ha).
Qed.

(** A key with a separator shadows nothing of [Object.prototype]. *)
Lemma inherited_contains (k : string) :
  Js.contains "/" k = true → Js.inherited k = false.
Proof.
  intros Hk. apply bool_decide_eq_false_2. intros Hin.
  assert (Forall (λ n, Js.contains "/" n = false) Js.prototype_names) as HF
    by (repeat constructor).
  rewrite Forall_forall in HF. specialize (HF k Hin). congruence.
Qed.

Lemma inherited_slash (a b : string) : Js.inherited (slash a b) = false.
Proof. apply inherited_contains, contains_slash. Qed.

End JsFacts.

(** ** Facts about well-formed objects *)

Section ObjFacts.

Context {V : Type}.
Implicit Types (o : Js.obj V) (k : string).


Lemma wf_empty : wf (@Js.empty V).
Proof.
  split; [constructor|]. intros k. cbn. rewrite lookup_empty.
  split; [by intros ?%elem_of_nil | by intros [? ?]].
Qed.

Lemma wf_set o k v : wf o → wf (Js.set o k v).
Proof.
  intros [Hnd Hdom]. unfold Js.set. case_bool_decide as Hk; split; cbn.
  - done.
  - intros j. rewrite Hdom, lookup_insert_is_Some.
    destruct (decide (k = j)) as [<-|]; tauto.
  - apply NoDup_app. split_and!; [done| |apply NoDup_singleton].
    intros j Hj ->%list_elem_of_singleton. by apply Hk, Hdom.
  - intros j. rewrite elem_of_app, list_elem_of_singleton, Hdom.
    rewrite lookup_insert_is_Some.
    destruct (decide (k = j)) as [<-|]; [tauto|].
    split; [intros [?|?]; [tauto|congruence] | tauto].
Qed.

Lemma props_update o k (f : V → V) :
  Js.props (Js.update o k f) = alter f k (Js.props o).
Proof.
  unfold Js.update. destruct (Js.props o !! k) as [v|] eqn:Hk; cbn.
  - apply map_eq. intros j. destruct (decide (k = j)) as [<-|Hne].
    + by rewrite lookup_insert_eq, lookup_alter_eq, Hk.
    + by rewrite lookup_insert_ne, lookup_alter_ne.
  - apply map_eq. intros j. destruct (decide (k = j)) as [<-|Hne].
    + by rewrite lookup_alter_eq, Hk.
    + by rewrite lookup_alter_ne.
Qed.

Lemma order_update o k (f : V → V) : Js.order (Js.update o k f) = Js.order o.
Proof. unfold Js.update. by destruct (Js.props o !! k). Qed.

Lemma wf_update o k (f : V → V) : wf o → wf (Js.update o k f).
Proof.
  intros [Hnd Hdom]. split.
  - by rewrite order_update.
  - intros j. rewrite order_update, props_update, Hdom.
    destruct (decide (k = j)) as [<-|Hne].
    + rewrite lookup_alter_eq. by rewrite fmap_is_Some.
    + by rewrite lookup_alter_ne.
Qed.

Lemma indices_snd (l : list string) :
  (Js.indices l).*2 = filter (λ k, is_Some (Js.array_index k)) l.
Proof.
  unfold Js.indices. induction l as [|k l IH]; [done|].
  rewrite filter_cons. cbn [omap list_omap].
  destruct (Js.array_index k) as [n|]; cbn [fmap option_fmap option_map].
  - rewrite decide_True by eauto. cbn. f_equal. exact IH.
  - rewrite decide_False by (by intros [? ?]). exact IH.
Qed.

(** [Object.keys] enumerates the own keys, each once. *)
Lemma keys_perm o : Js.keys o ≡ₚ Js.order o.
Proof.
  unfold Js.keys. rewrite merge_sort_Permutation, indices_snd.
  induction (Js.order o) as [|k l IH]; [done|].
  rewrite !filter_cons. destruct (Js.array_index k) as [n|] eqn:Hk.
  - rewrite decide_True by eauto. rewrite decide_False by done.
    cbn. by rewrite IH.
  - rewrite decide_False by (by intros [? ?]). rewrite decide_True by done.
    rewrite <- Permutation_middle. by rewrite IH.
Qed.

(** The enumeration of a well-formed object lists its finite map. *)
Lemma entries_perm o : wf o → Js.entries o ≡ₚ map_to_list (Js.props o).
Proof.
  intros [Hnd Hdom]. unfold Js.entries, Js.get.
  apply NoDup_Permutation.
  - apply (NoDup_fmap_1 fst).
    assert (∀ l : list string,
      (omap (λ k, (λ v, (k, v)) <$> Js.props o !! k) l).*1
      = filter (λ k, is_Some (Js.props o !! k)) l) as ->.
    { induction l as [|k l IH]; [done|].
      rewrite filter_cons. cbn [omap list_omap].
      destruct (Js.props o !! k) as [v|]; cbn [fmap option_fmap option_map].
      - rewrite decide_True by eauto. cbn. f_equal. exact IH.
      - rewrite decide_False by (by intros [? ?]). exact IH. }
    apply NoDup_filter. by rewrite keys_perm.
  - apply NoDup_map_to_list.
  - intros [k v]. rewrite list_elem_of_omap, elem_of_map_to_list. split.
    + intros (j & _ & Hj). destruct (Js.props o !! j) eqn:E; by simplify_eq/=.
    + intros Hv. exists k. split; [|by rewrite Hv].
      rewrite keys_perm. apply Hdom. eauto.
Qed.

Lemma elem_of_entries o k v :
  wf o → (k, v) ∈ Js.entries o ↔ Js.props o !! k = Some v.
Proof.
  intros Hwf. by rewrite (entries_perm o Hwf), elem_of_map_to_list.
Qed.

Lemma entries_NoDup o : wf o → NoDup (Js.entries o).*1.
Proof.
  intros Hwf. rewrite (entries_perm o Hwf). apply NoDup_fst_map_to_list.
Qed.

End ObjFacts.

(** ** Facts about the contributions *)

Section ContributionFacts.

Variables dateFrom dateTo : Js.timeval.

Abbreviation inWindow := (inWindow dateFrom dateTo).
Abbreviation qualifying := (qualifying dateFrom dateTo).
Abbreviation reviewed := (reviewed dateFrom dateTo).
Abbreviation targets := (targets dateFrom dateTo).


Lemma truthy_validInterval (t : Js.timeval) :
  Js.truthy (validInterval t dateFrom dateTo) = inWindow t.
Proof. apply truthy_bitand. Qed.

Lemma inWindow_spec (t : Js.timeval) :
  inWindow t = true ↔ strictlyInside dateFrom dateTo t.
Proof.
  unfold inWindow, strictlyInside. rewrite andb_true_iff, gt_Some, lt_Some. split.
  - intros [(x & a & -> & -> & Ha) (x' & b & [= <-] & -> & Hb)].
    exists x, a, b. split_and!; [done..|lia].
  - intros (x & a & b & -> & -> & -> & Ha & Hb).
    split; eexists _, _; split_and!; done.
Qed.

Lemma reviewed_snoc P pr rs r k :
  reviewed P pr (rs ++ [r]) k = reviewed P pr rs k || targets P pr k r.
Proof. unfold reviewed. rewrite existsb_app. cbn. by rewrite orb_false_r. Qed.

Lemma reviewed_any P pr rs k :
  reviewed P pr rs k = true → reviewed anyState pr rs k = true.
Proof.
  unfold reviewed. rewrite !existsb_exists. intros (r & Hr & Ht).
  exists r. split; [done|]. unfold targets in *.
  apply andb_true_iff in Ht as [-> _]. done.
Qed.

Lemma reviewed_perm P pr rs rs' k :
  rs ≡ₚ rs' → reviewed P pr rs k = reviewed P pr rs' k.
Proof.
  intros Hp. unfold reviewed. apply eq_true_iff_eq.
  rewrite !existsb_exists. by setoid_rewrite Hp.
Qed.

End ContributionFacts.

(** ** The accumulator of [getDetailedStats] *)

Lemma raise_raise n m p n' m' p' c :
  raise n' m' p' (raise n m p c) = raise (n + n') (m + m') (p + p') c.
Proof. destruct c. unfold raise. cbn. f_equal; lia. Qed.

Lemma raise_zero c : raise 0 0 0 c = c.
Proof. destruct c. unfold raise. cbn. f_equal; lia. Qed.

Lemma bump_created_raise c : bump_created c = raise 1 0 0 c.
Proof. destruct c. unfold bump_created, raise. cbn. f_equal; lia. Qed.

Lemma bump_commented_raise c : bump_commented c = raise 0 1 0 c.
Proof. destruct c. unfold bump_commented, raise. cbn. f_equal; lia. Qed.

Lemma bump_approved_raise c : bump_approved c = raise 0 0 1 c.
Proof. destruct c. unfold bump_approved, raise. cbn. f_equal; lia. Qed.

Lemma credit_credit c0 t n m p t' n' m' p' :
  (t = false → n = 0 ∧ m = 0 ∧ p = 0) →
  (t' = false → n' = 0 ∧ m' = 0 ∧ p' = 0) →
  credit (credit c0 t n m p) t' n' m' p'
  = credit c0 (t || t') (n + n') (m + m') (p + p').
Proof.
  intros H H'. destruct t, t'; cbn.
  - by rewrite raise_raise.
  - destruct H' as (-> & -> & ->); [done|]. by rewrite !Nat.add_0_r.
  - destruct H as (-> & -> & ->); [done|]. done.
  - done.
Qed.

Lemma credit_guard c0 (b mc ma : bool) :
  credit c0 b 0 (b2n mc) (b2n ma)
  = credit c0 b 0 (b2n (b && mc)) (b2n (b && ma)).
Proof. by destruct b. Qed.

Lemma has_set {V : Type} (o : Js.obj V) (kr k : string) (v : V) :
  Js.has (Js.set o kr v) k = Js.has o k || bool_decide (kr = k).
Proof.
  unfold Js.has, Js.set. cbn [Js.props].
  destruct (decide (kr = k)) as [<-|Hne].
  - rewrite lookup_insert_eq, bool_decide_eq_true_2 by eauto.
    rewrite (bool_decide_eq_true_2 (kr = kr)) by done.
    by rewrite orb_true_r.
  - rewrite lookup_insert_ne by done.
    rewrite (bool_decide_eq_false_2 (kr = k)) by done.
    by rewrite orb_false_r.
Qed.

Lemma has_empty {V : Type} (k : string) :
  Js.has (@Js.empty V) k = Js.inherited k.
Proof.
  unfold Js.has. cbn. rewrite lookup_empty.
  by rewrite bool_decide_eq_false_2 by (by intros [? ?]).
Qed.

Lemma wf_ensure acc0 key : wf acc0 → wf (ensure acc0 key).
Proof. intros H. unfold ensure. destruct (negb _); [by apply wf_set|done]. Qed.

(** [ensure] followed by a write [f] that raises the counters of the
    row: only the row of [kr] changes, and it exists afterwards. *)
Lemma lookup_ensure_update acc0 kr f n m p k :
  Js.inherited kr = false →
  (∀ c, f c = raise n m p c) →
  Js.props (Js.update (ensure acc0 kr) kr f) !! k
  = credit (Js.props acc0 !! k) (bool_decide (kr = k)) n m p.
Proof.
  intros Hkr Hf. rewrite props_update. unfold ensure, Js.has.
  rewrite Hkr, orb_false_r.
  destruct (decide (kr = k)) as [<-|Hne].
  - rewrite lookup_alter_eq, (bool_decide_eq_true_2 (kr = kr)) by done.
    destruct (Js.props acc0 !! kr) as [c|] eqn:Hc; cbn.
    + rewrite Hc. cbn. by rewrite Hf.
    + rewrite lookup_insert_eq. cbn. by rewrite Hf.
  - rewrite lookup_alter_ne, (bool_decide_eq_false_2 (kr = k)) by done. cbn.
    destruct (negb _); [|done]. cbn. by rewrite lookup_insert_ne.
Qed.

Lemma lookup_ensure acc0 kr k :
  Js.inherited kr = false →
  Js.props (ensure acc0 kr) !! k
  = credit (Js.props acc0 !! k) (bool_decide (kr = k)) 0 0 0.
Proof.
  intros Hkr.
  rewrite <- (lookup_ensure_update acc0 kr (λ c, c) 0 0 0 k Hkr)
    by (intros c; by rewrite raise_zero).
  rewrite props_update. destruct (decide (kr = k)) as [<-|Hne].
  - rewrite lookup_alter_eq. by destruct (_ !! kr).
  - by rewrite lookup_alter_ne.
Qed.

Section Detailed.

Variables dateFrom dateTo : Js.timeval.

Abbreviation inWindow := (inWindow dateFrom dateTo).
Abbreviation qualifying := (qualifying dateFrom dateTo).
Abbreviation reviewed := (reviewed dateFrom dateTo).
Abbreviation targets := (targets dateFrom dateTo).
Abbreviation opens := (opens dateFrom dateTo).
Abbreviation active := (active dateFrom dateTo).
Abbreviation tracks := (tracks dateFrom dateTo).
Abbreviation eachReview := (eachReview dateFrom dateTo).
Abbreviation countCreated := (countCreated dateFrom dateTo).
Abbreviation countReviews := (countReviews dateFrom dateTo).
Abbreviation reducer := (reducer dateFrom dateTo).
Abbreviation grouped := (grouped dateFrom dateTo).
Abbreviation getDetailedStats := (getDetailedStats dateFrom dateTo).

Lemma tracks_nil pr acc0 : tracks pr acc0 [] (Loop acc0 Js.empty Js.empty).
Proof. split; cbn; [done|apply has_empty..|done]. Qed.

Lemma targets_qualifying P pr k r :
  qualifying pr r = true →
  targets P pr k r = bool_decide (reviewerKey pr r = k) && P r.
Proof. unfold targets. by intros ->. Qed.

Lemma targets_skip P pr k r : qualifying pr r = false → targets P pr k r = false.
Proof. unfold targets. by intros ->. Qed.

(** The test of line 59 is [qualifying]. *)
Lemma eachReview_skip pr st r : qualifying pr r = false → eachReview pr st r = st.
Proof.
  intros Hq. unfold eachReview. rewrite truthy_validInterval.
  unfold qualifying in Hq. by rewrite Hq.
Qed.

(** One more review: the bookkeeping on the counters. *)
Lemma credit_step c0 (T C A b mc ma : bool) :
  (C = true → T = true) → (A = true → T = true) →
  (mc = true → b = true ∧ C = false) →
  (ma = true → b = true ∧ A = false) →
  credit (credit c0 T 0 (b2n C) (b2n A)) b 0 (b2n mc) (b2n ma)
  = credit c0 (T || b) 0 (b2n (C || mc)) (b2n (A || ma)).
Proof.
  intros HC HA Hmc Hma.
  destruct T, C, A, b, mc, ma;
    try discriminate (HC eq_refl); try discriminate (HA eq_refl);
    try (destruct (Hmc eq_refl); discriminate);
    try (destruct (Hma eq_refl); discriminate);
    destruct c0 as [[x y z]|]; cbn; unfold raise; cbn;
    try done; f_equal; f_equal; lia.
Qed.

Lemma tracks_step pr acc0 rs st r :
  tracks pr acc0 rs st → tracks pr acc0 (rs ++ [r]) (eachReview pr st r).
Proof.
  intros [Hacc Hc Ha Hwf].
  destruct (qualifying pr r) eqn:Hq.
  2:{ rewrite eachReview_skip by done.
      split; [intros k..|done]; rewrite !reviewed_snoc, !targets_skip by done;
      rewrite !orb_false_r; auto. }
  unfold eachReview. rewrite truthy_validInterval.
  unfold qualifying in Hq. rewrite Hq. fold (qualifying pr r) in Hq.
  change (slash (PullRequest.owner pr)
            (slash (PullRequest.repo pr) (Review.reviewer r)))
    with (reviewerKey pr r).
  assert (Js.inherited (reviewerKey pr r) = false) as Hkr
    by apply inherited_slash.
  set (kr := reviewerKey pr r) in *.
  pose proof (Hc kr) as HCk. pose proof (Ha kr) as HAk.
  rewrite Hkr, orb_false_r in HCk, HAk. rewrite HCk, HAk.
  pose proof (reviewed_any dateFrom dateTo (isState "COMMENTED") pr rs) as HCT.
  pose proof (reviewed_any dateFrom dateTo (isState "APPROVED") pr rs) as HAT.
  assert (∀ (k : string) (mc ma : bool) (o : Js.obj Counters.t),
    (∀ k, Js.props o !! k
          = credit (Js.props (acc st) !! k) (bool_decide (kr = k)) 0
              (b2n mc) (b2n ma)) →
    mc = isState "COMMENTED" r
         && negb (reviewed (isState "COMMENTED") pr rs kr) →
    ma = isState "APPROVED" r
         && negb (reviewed (isState "APPROVED") pr rs kr) →
    Js.props o !! k
    = credit (Js.props acc0 !! k) (reviewed anyState pr (rs ++ [r]) k) 0
        (b2n (reviewed (isState "COMMENTED") pr (rs ++ [r]) k))
        (b2n (reviewed (isState "APPROVED") pr (rs ++ [r]) k))) as Hcount.
  { intros k mc ma o Ho Hmc Hma.
    rewrite Ho, Hacc, !reviewed_snoc, !targets_qualifying by done.
    fold kr. unfold anyState at 2. rewrite andb_true_r.
    rewrite (credit_guard _ _ mc ma).
    rewrite (credit_step _ _ _ _ _ (bool_decide (kr = k) && mc)
               (bool_decide (kr = k) && ma)).
    - f_equal.
      + f_equal. subst mc. destruct (decide (kr = k)) as [<-|Hne].
        * rewrite bool_decide_eq_true_2 by done. cbn.
          by destruct (reviewed (isState "COMMENTED") pr rs kr), (isState _ r).
        * by rewrite bool_decide_eq_false_2 by done.
      + f_equal. subst ma. destruct (decide (kr = k)) as [<-|Hne].
        * rewrite bool_decide_eq_true_2 by done. cbn.
          by destruct (reviewed (isState "APPROVED") pr rs kr), (isState _ r).
        * by rewrite bool_decide_eq_false_2 by done.
    - apply HCT.
    - apply HAT.
    - subst mc. intros [Hk [_ Hn]%andb_true_iff]%andb_true_iff.
      apply bool_decide_eq_true_1 in Hk as <-.
      split; [by apply bool_decide_eq_true_2 | by apply negb_true_iff].
    - subst ma. intros [Hk [_ Hn]%andb_true_iff]%andb_true_iff.
      apply bool_decide_eq_true_1 in Hk as <-.
      split; [by apply bool_decide_eq_true_2 | by apply negb_true_iff]. }
  assert (∀ (P : Review.t → bool) (k : string) (mk h : bool),
    h = (reviewed P pr rs k || Js.inherited k) || (bool_decide (kr = k) && mk) →
    mk = P r && negb (reviewed P pr rs kr) →
    h = reviewed P pr (rs ++ [r]) k || Js.inherited k) as Hmark.
  { intros P k mk h -> ->.
    rewrite reviewed_snoc, targets_qualifying by done. fold kr.
    destruct (decide (kr = k)) as [<-|Hne].
    - rewrite bool_decide_eq_true_2 by done.
      by destruct (reviewed P pr rs kr), (P r), (Js.inherited kr).
    - rewrite bool_decide_eq_false_2 by done.
      by destruct (reviewed P pr rs k), (Js.inherited k). }
  change (bool_decide (Review.state r = "COMMENTED"))
    with (isState "COMMENTED" r).
  change (bool_decide (Review.state r = "APPROVED"))
    with (isState "APPROVED" r).
  assert (isState "COMMENTED" r = true → isState "APPROVED" r = false) as Hex.
  { unfold isState. intros HC%bool_decide_eq_true_1.
    apply bool_decide_eq_false_2. by rewrite HC. }
  destruct (isState "COMMENTED" r && negb _) eqn:E1;
    [|destruct (isState "APPROVED" r && negb _) eqn:E2].
  - assert (isState "APPROVED" r = false) as EA
      by (apply Hex; by apply andb_true_iff in E1 as [? _]).
    split; cbn [acc reviewsCommented reviewsApproved].
    + intros k. apply (Hcount k true false); [|done|by rewrite EA].
      intros k0. apply lookup_ensure_update; [done|].
      apply bump_commented_raise.
    + intros k. apply (Hmark _ k true); [|done].
      by rewrite has_set, Hc, andb_true_r.
    + intros k. apply (Hmark _ k false); [|by rewrite EA].
      by rewrite Ha, andb_false_r, orb_false_r.
    + intros H. by apply wf_update, wf_ensure, Hwf.
  - assert (isState "COMMENTED" r = false) as EC.
    { destruct (isState "COMMENTED" r) eqn:EC; [|done].
      by rewrite (Hex eq_refl) in E2. }
    split; cbn [acc reviewsCommented reviewsApproved].
    + intros k. apply (Hcount k false true); [|done..].
      intros k0. apply lookup_ensure_update; [done|].
      apply bump_approved_raise.
    + intros k. apply (Hmark _ k false); [|by rewrite EC].
      by rewrite Hc, andb_false_r, orb_false_r.
    + intros k. apply (Hmark _ k true); [|done].
      by rewrite has_set, Ha, andb_true_r.
    + intros H. by apply wf_update, wf_ensure, Hwf.
  - split; cbn [acc reviewsCommented reviewsApproved].
    + intros k. apply (Hcount k false false); [|done..].
      intros k0. by apply lookup_ensure.
    + intros k. apply (Hmark _ k false); [|done].
      by rewrite Hc, andb_false_r, orb_false_r.
    + intros k. apply (Hmark _ k false); [|done].
      by rewrite Ha, andb_false_r, orb_false_r.
    + intros H. by apply wf_ensure, Hwf.
Qed.

Lemma tracks_fold pr acc0 rs rs' st :
  tracks pr acc0 rs st →
  tracks pr acc0 (rs ++ rs') (fold_left (eachReview pr) rs' st).
Proof.
  revert rs st. induction rs' as [|r rs' IH]; intros rs st Hst; cbn.
  - by rewrite app_nil_r.
  - rewrite (cons_middle r), app_assoc. by apply IH, tracks_step.
Qed.

(** The loop over the reviews of one pull request. *)
Lemma countReviews_tracks acc0 pr :
  tracks pr acc0 (PullRequest.reviews pr) (countReviews acc0 pr).
Proof. apply (tracks_fold pr acc0 []), tracks_nil. Qed.

Lemma wf_countCreated acc0 pr : wf acc0 → wf (countCreated acc0 pr).
Proof.
  intros H. unfold countCreated. destruct (Js.truthy _); [|done].
  by apply wf_update, wf_ensure.
Qed.

(** Lines 41-50 raise [created] of the author's row, in the window. *)
Lemma lookup_countCreated acc0 pr k :
  Js.props (countCreated acc0 pr) !! k
  = credit (Js.props acc0 !! k) (opens pr k) (b2n (opens pr k)) 0 0.
Proof.
  unfold countCreated, opens. rewrite truthy_validInterval.
  destruct (inWindow (PullRequest.created_at pr)); [|done].
  rewrite (lookup_ensure_update _ _ _ 1 0 0).
  - cbn [andb]. by destruct (bool_decide _).
  - apply inherited_slash.
  - apply bump_created_raise.
Qed.

Lemma wf_reducer acc0 pr : wf acc0 → wf (reducer acc0 pr).
Proof.
  intros H. unfold reducer.
  by apply (tracks_wf _ _ _ _ _ _ (countReviews_tracks _ pr)), wf_countCreated.
Qed.

(** What one pull request adds to the row of [k]. *)
Lemma lookup_reducer acc0 pr k :
  Js.props (reducer acc0 pr) !! k
  = credit (Js.props acc0 !! k) (active pr k) (b2n (opens pr k))
      (b2n (reviewed (isState "COMMENTED") pr (PullRequest.reviews pr) k))
      (b2n (reviewed (isState "APPROVED") pr (PullRequest.reviews pr) k)).
Proof.
  unfold reducer.
  rewrite (tracks_acc _ _ _ _ _ _ (countReviews_tracks _ pr)).
  rewrite lookup_countCreated, credit_credit.
  - by rewrite Nat.add_0_r.
  - by intros ->.
  - intros Hn. split; [done|].
    split; apply (f_equal b2n (y := false)), not_true_is_false;
      intros Hp%reviewed_any; congruence.
Qed.

Lemma count_none {A : Type} (f g : A → bool) (l : list A) :
  (∀ x, f x = true → g x = true) → existsb g l = false → count f l = 0.
Proof.
  intros Hfg. induction l as [|x l IH]; cbn; [done|].
  intros [Hx Hl]%orb_false_iff. rewrite (IH Hl).
  destruct (f x) eqn:Hf; [|done]. apply Hfg in Hf. congruence.
Qed.

Lemma opens_active pr k : opens pr k = true → active pr k = true.
Proof. unfold active. by intros ->. Qed.

Lemma reviewed_active P pr k :
  reviewed P pr (PullRequest.reviews pr) k = true → active pr k = true.
Proof. unfold active. intros ->%reviewed_any. apply orb_true_r. Qed.

Lemma lookup_fold_reducer prs acc0 k :
  Js.props (fold_left reducer prs acc0) !! k
  = credit (Js.props acc0 !! k) (existsb (λ pr, active pr k) prs)
      (count (λ pr, opens pr k) prs)
      (count (λ pr, reviewed (isState "COMMENTED") pr
                      (PullRequest.reviews pr) k) prs)
      (count (λ pr, reviewed (isState "APPROVED") pr
                      (PullRequest.reviews pr) k) prs).
Proof.
  revert acc0. induction prs as [|pr prs IH]; intros acc0; [done|].
  cbn [fold_left]. rewrite IH, lookup_reducer, credit_credit; [done| |].
  - intros Hn. split_and!; apply (f_equal b2n (y := false)), not_true_is_false.
    + intros ?%opens_active. congruence.
    + intros ?%reviewed_active. congruence.
    + intros ?%reviewed_active. congruence.
  - intros Hn. split_and!.
    + apply (count_none _ (λ pr, active pr k)); [|done].
      intros x. apply opens_active.
    + apply (count_none _ (λ pr, active pr k)); [|done].
      intros x. apply reviewed_active.
    + apply (count_none _ (λ pr, active pr k)); [|done].
      intros x. apply reviewed_active.
Qed.

Lemma wf_fold_reducer prs acc0 : wf acc0 → wf (fold_left reducer prs acc0).
Proof.
  revert acc0. induction prs as [|pr prs IH]; intros acc0 H; [done|].
  by apply IH, wf_reducer.
Qed.

Lemma wf_grouped prs : wf (grouped prs).
Proof. apply wf_fold_reducer, wf_empty. Qed.

(** The accumulator after all pull requests: a row for every key with
    some activity, holding the number of pull requests that count. *)
Lemma lookup_grouped prs k :
  Js.props (grouped prs) !! k
  = if existsb (λ pr, active pr k) prs then
      Some (Counters.Make
              (count (λ pr, opens pr k) prs)
              (count (λ pr, reviewed (isState "COMMENTED") pr
                              (PullRequest.reviews pr) k) prs)
              (count (λ pr, reviewed (isState "APPROVED") pr
                              (PullRequest.reviews pr) k) prs))
    else None.
Proof.
  unfold grouped. rewrite lookup_fold_reducer. cbn. rewrite lookup_empty.
  unfold credit. by destruct (existsb _ _).
Qed.

Lemma elem_of_getDetailedStats prs row :
  row ∈ getDetailedStats prs ↔
  ∃ k c, Js.props (grouped prs) !! k = Some c ∧ row = toRow (k, c).
Proof.
  unfold getDetailedStats. rewrite list_elem_of_fmap. split.
  - intros ([k c] & -> & Hin). exists k, c.
    by apply elem_of_entries in Hin; [|apply wf_grouped].
  - intros (k & c & Hk & ->). exists (k, c). split; [done|].
    by apply elem_of_entries; [apply wf_grouped|].
Qed.

(** The counters of a row before and after one pull request. *)
Lemma counter_reducer acc0 pr k :
  counter Counters.created (reducer acc0 pr) k
  = counter Counters.created acc0 k + b2n (opens pr k)
  ∧ counter Counters.commented (reducer acc0 pr) k
    = counter Counters.commented acc0 k
      + b2n (reviewed (isState "COMMENTED") pr (PullRequest.reviews pr) k)
  ∧ counter Counters.approved (reducer acc0 pr) k
    = counter Counters.approved acc0 k
      + b2n (reviewed (isState "APPROVED") pr (PullRequest.reviews pr) k).
Proof.
  unfold counter, Js.get. rewrite lookup_reducer. unfold credit.
  destruct (active pr k) eqn:Hact.
  - by destruct (Js.props acc0 !! k).
  - assert (opens pr k = false) as ->
      by (apply not_true_is_false; intros ?%opens_active; congruence).
    assert (∀ P, reviewed P pr (PullRequest.reviews pr) k = false) as Hno
      by (intros P; apply not_true_is_false; intros ?%reviewed_active;
          congruence).
    rewrite !Hno. cbn. by rewrite !Nat.add_0_r.
Qed.

End Detailed.

(** ** The detailed table: the properties of the specification *)

Section DetailedClaims.

Variables dateFrom dateTo : Js.timeval.

Abbreviation inWindow := (inWindow dateFrom dateTo).
Abbreviation strictlyInside := (strictlyInside dateFrom dateTo).
Abbreviation qualifying := (qualifying dateFrom dateTo).
Abbreviation reviewed := (reviewed dateFrom dateTo).
Abbreviation targets := (targets dateFrom dateTo).
Abbreviation opens := (opens dateFrom dateTo).
Abbreviation active := (active dateFrom dateTo).
Abbreviation tracks := (tracks dateFrom dateTo).
Abbreviation eachReview := (eachReview dateFrom dateTo).
Abbreviation countCreated := (countCreated dateFrom dateTo).
Abbreviation countReviews := (countReviews dateFrom dateTo).
Abbreviation reducer := (reducer dateFrom dateTo).
Abbreviation grouped := (grouped dateFrom dateTo).
Abbreviation getDetailedStats := (getDetailedStats dateFrom dateTo).

Lemma inWindow_boundary (t : Js.timeval) :
  t = dateFrom ∨ t = dateTo → inWindow t = false.
Proof.
  intros Ht. apply not_true_is_false.
  intros (x & a & b & -> & Hf & Hb & Hlt)%inWindow_spec.
  destruct Ht as [Ht|Ht]; rewrite <- Ht in *; simplify_eq; lia.
Qed.

Lemma countCreated_skip acc0 pr :
  inWindow (PullRequest.created_at pr) = false → countCreated acc0 pr = acc0.
Proof.
  intros H. unfold countCreated. by rewrite truthy_validInterval, H.
Qed.

Lemma reviewed_witness P pr rs k :
  reviewed P pr rs k = true →
  ∃ r, r ∈ rs ∧ qualifying pr r = true ∧ reviewerKey pr r = k ∧ P r = true.
Proof.
  unfold reviewed. rewrite existsb_exists. intros (r & Hin & Ht).
  exists r. unfold targets in Ht.
  apply andb_true_iff in Ht as [[Hq Hk%bool_decide_eq_true_1]%andb_true_iff HP].
  by rewrite list_elem_of_In.
Qed.

Lemma reviewed_intro (P : Review.t → bool) pr rs k r :
  r ∈ rs → qualifying pr r = true → reviewerKey pr r = k → P r = true →
  reviewed P pr rs k = true.
Proof.
  intros Hin Hq Hk HP. unfold reviewed. rewrite existsb_exists.
  exists r. rewrite <- list_elem_of_In. split; [done|].
  unfold targets. by rewrite Hq, HP, bool_decide_eq_true_2.
Qed.

(** C4: the interval test is a strict open interval: a timestamp
    passes it exactly when [dateFrom < t < dateTo], a timestamp equal to
    [dateFrom] or to [dateTo] fails it, a pull request or a review that
    fails it leaves the accumulator as it is, and a counter is raised
    by a pull request only if the creation date, or the submission date
    of one of its reviews, lies strictly inside. *)
Theorem interval_strict_on_both_ends :
  (∀ t, Js.truthy (validInterval t dateFrom dateTo) = true ↔ strictlyInside t)
  ∧ (∀ t, t = dateFrom ∨ t = dateTo →
       Js.truthy (validInterval t dateFrom dateTo) = false)
  ∧ (∀ acc0 pr,
       Js.truthy (validInterval (PullRequest.created_at pr) dateFrom dateTo)
       = false →
       countCreated acc0 pr = acc0)
  ∧ (∀ pr st r,
       Js.truthy (validInterval (Review.submited_at r) dateFrom dateTo)
       = false →
       eachReview pr st r = st)
  ∧ (∀ acc0 pr k,
       counter Counters.created (reducer acc0 pr) k
       ≠ counter Counters.created acc0 k →
       strictlyInside (PullRequest.created_at pr))
  ∧ (∀ acc0 pr k,
       counter Counters.commented (reducer acc0 pr) k
       ≠ counter Counters.commented acc0 k
       ∨ counter Counters.approved (reducer acc0 pr) k
         ≠ counter Counters.approved acc0 k →
       ∃ r, r ∈ PullRequest.reviews pr
            ∧ strictlyInside (Review.submited_at r)).
Proof.
  split_and!.
  - intros t. by rewrite truthy_validInterval, inWindow_spec.
  - intros t Ht. rewrite truthy_validInterval. by apply inWindow_boundary.
  - intros acc0 pr. rewrite truthy_validInterval. apply countCreated_skip.
  - intros pr st r. rewrite truthy_validInterval. intros Hw.
    apply eachReview_skip. unfold qualifying. by rewrite Hw.
  - intros acc0 pr k Hne.
    destruct (counter_reducer dateFrom dateTo acc0 pr k) as (Hc & _ & _).
    destruct (opens pr k) eqn:Ho; [|cbn in Hc; lia].
    unfold opens in Ho. apply andb_true_iff in Ho as [Ho _].
    by apply inWindow_spec.
  - intros acc0 pr k Hne.
    destruct (counter_reducer dateFrom dateTo acc0 pr k) as (_ & Hc & Ha).
    assert (∃ P, reviewed P pr (PullRequest.reviews pr) k = true)
      as [P (r & Hin & Hq & _)%reviewed_witness].
    { destruct (reviewed (isState "COMMENTED") pr _ k) eqn:EC; [by eexists|].
      destruct (reviewed (isState "APPROVED") pr _ k) eqn:EA; [by eexists|].
      cbn in Hc, Ha. lia. }
    exists r. split; [done|]. unfold qualifying in Hq.
    apply andb_true_iff in Hq as [Hq _]. by apply inWindow_spec.
Qed.

(** C5: a pull request is kept exactly when it is open or created
    strictly inside the window; an open one is kept whatever its
    creation date. *)
Theorem filterPullRequestList_keeps (pr : Payload.t) :
  (filterPullRequestList dateFrom dateTo pr = true ↔
   Payload.state pr = "open" ∨ strictlyInside (Payload.created_at pr))
  ∧ (Payload.state pr = "open" →
     filterPullRequestList dateFrom dateTo pr = true).
Proof.
  unfold filterPullRequestList.
  change (Js.gt (Payload.created_at pr) dateFrom
          && Js.lt (Payload.created_at pr) dateTo)
    with (inWindow (Payload.created_at pr)).
  split.
  - rewrite orb_true_iff, bool_decide_eq_true, inWindow_spec. done.
  - intros H. by rewrite bool_decide_eq_true_2.
Qed.

Lemma fold_left_filter_skip {A B : Type} (f : A → B → A) (P : B → Prop)
    `{!∀ x, Decision (P x)} (l : list B) (a : A) :
  (∀ a x, ¬ P x → f a x = a) →
  fold_left f (filter P l) a = fold_left f l a.
Proof.
  intros Hskip. revert a. induction l as [|x l IH]; intros a; [done|].
  rewrite filter_cons. destruct (decide (P x)) as [HP|HP]; cbn.
  - apply IH.
  - by rewrite IH, (Hskip a x HP).
Qed.

Lemma eachReview_self pr st r :
  Review.reviewer r = PullRequest.author pr → eachReview pr st r = st.
Proof.
  intros H. apply eachReview_skip. unfold qualifying.
  rewrite bool_decide_eq_true_2 by done. apply andb_false_r.
Qed.

Lemma reducer_dropSelfReviews acc0 pr :
  reducer acc0 (dropSelfReviews pr) = reducer acc0 pr.
Proof.
  unfold reducer, countReviews. f_equal.
  change (PullRequest.reviews (dropSelfReviews pr))
    with (filter (λ r, Review.reviewer r ≠ PullRequest.author pr)
            (PullRequest.reviews pr)).
  change (countCreated acc0 (dropSelfReviews pr)) with (countCreated acc0 pr).
  change (eachReview (dropSelfReviews pr)) with (eachReview pr).
  apply fold_left_filter_skip. intros st r Hr. apply eachReview_self.
  by destruct (decide (Review.reviewer r = PullRequest.author pr)).
Qed.

(** C3: a review whose reviewer is the author of the pull request
    leaves the accumulator and both marker objects as they are, whatever
    its state and date; the detailed table is the one of the input
    without such reviews. *)
Theorem self_review_never_counts :
  (∀ pr st r,
     Review.reviewer r = PullRequest.author pr → eachReview pr st r = st)
  ∧ (∀ prs, getDetailedStats prs = getDetailedStats (dropSelfReviews <$> prs)).
Proof.
  split; [apply eachReview_self|].
  intros prs. unfold getDetailedStats, grouped. do 2 f_equal.
  generalize (@Js.empty Counters.t).
  induction prs as [|pr prs IH]; intros acc0; [done|].
  cbn [fmap list_fmap fold_left]. rewrite reducer_dropSelfReviews. apply IH.
Qed.

(** A review whose reviewer already holds the marker of its state, and
    whose row exists, is skipped. *)
Lemma eachReview_marked pr st r s :
  qualifying pr r = true →
  Review.state r = s →
  is_Some (Js.props (acc st) !! reviewerKey pr r) →
  s = "COMMENTED" ∧ Js.has (reviewsCommented st) (reviewerKey pr r) = true
  ∨ s = "APPROVED" ∧ Js.has (reviewsApproved st) (reviewerKey pr r) = true →
  eachReview pr st r = st.
Proof.
  intros Hq Hs Hrow Hcase. unfold eachReview.
  rewrite truthy_validInterval. unfold qualifying in Hq. rewrite Hq.
  change (slash (PullRequest.owner pr)
            (slash (PullRequest.repo pr) (Review.reviewer r)))
    with (reviewerKey pr r).
  assert (ensure (acc st) (reviewerKey pr r) = acc st) as ->.
  { unfold ensure, Js.has. by rewrite bool_decide_eq_true_2. }
  rewrite Hs. destruct Hcase as [[-> Hmark] | [-> Hmark]];
    rewrite Hmark; cbn; by destruct st.
Qed.

(** C1: when two qualifying reviews of one pull request come from the
    same reviewer in the same state, COMMENTED or APPROVED, the step of
    the second one changes neither the accumulator nor the markers, the
    counter of that state in the reviewer's row ends one above its
    value before the pull request, and no counter of any row goes up by
    more than one over a pull request. *)
Theorem review_counted_once_per_pull_request acc0 pr l1 r1 l2 r2 l3 s :
  PullRequest.reviews pr = l1 ++ r1 :: l2 ++ r2 :: l3 →
  qualifying pr r1 = true → qualifying pr r2 = true →
  Review.reviewer r1 = Review.reviewer r2 →
  Review.state r1 = s → Review.state r2 = s →
  s = "COMMENTED" ∨ s = "APPROVED" →
  let k := reviewerKey pr r1 in
  let st := fold_left (eachReview pr) (l1 ++ r1 :: l2)
              (Loop (countCreated acc0 pr) Js.empty Js.empty) in
  eachReview pr st r2 = st
  ∧ counter (field s) (reducer acc0 pr) k = counter (field s) acc0 k + 1
  ∧ ∀ k', counter Counters.commented (reducer acc0 pr) k'
          ≤ counter Counters.commented acc0 k' + 1
          ∧ counter Counters.approved (reducer acc0 pr) k'
            ≤ counter Counters.approved acc0 k' + 1.
Proof.
  intros Hrs Hq1 Hq2 Hrev Hs1 Hs2 Hcase k st.
  assert (reviewerKey pr r2 = k) as Hk2
    by (unfold k, reviewerKey; by rewrite Hrev).
  assert (isState s r1 = true) as HP
    by (unfold isState; by apply bool_decide_eq_true_2).
  split_and!.
  - pose proof (tracks_fold dateFrom dateTo pr (countCreated acc0 pr) []
                  (l1 ++ r1 :: l2) _ (tracks_nil dateFrom dateTo pr _))
      as [Hacc Hc Ha _].
    fold st in Hacc, Hc, Ha. cbn [app] in Hacc, Hc, Ha.
    assert (reviewed (isState s) pr (l1 ++ r1 :: l2) k = true) as Hseen.
    { apply (reviewed_intro _ _ _ _ r1); [|done..].
      apply elem_of_app. right. apply list_elem_of_here. }
    apply (eachReview_marked pr st r2 s); [done..| |]; rewrite Hk2.
    + rewrite Hacc, (reviewed_any _ _ _ _ _ _ Hseen). by eexists.
    + destruct Hcase as [-> | ->]; [left|right]; split; [done| |done|].
      * by rewrite Hc, Hseen.
      * by rewrite Ha, Hseen.
  - destruct (counter_reducer dateFrom dateTo acc0 pr k) as (_ & Hc & Ha).
    assert (reviewed (isState s) pr (PullRequest.reviews pr) k = true) as Hseen.
    { apply (reviewed_intro _ _ _ _ r1); [|done..].
      rewrite Hrs. apply elem_of_app. right. apply list_elem_of_here. }
    destruct Hcase as [-> | ->].
    + change (field "COMMENTED") with Counters.commented.
      by rewrite Hc, Hseen.
    + change (field "APPROVED") with Counters.approved.
      by rewrite Ha, Hseen.
  - intros k'.
    destruct (counter_reducer dateFrom dateTo acc0 pr k') as (_ & -> & ->).
    split; apply Nat.add_le_mono_l;
      match goal with |- b2n ?b ≤ 1 => destruct b; cbn; lia end.
Qed.

(** C6: a pull request that is open but not created strictly inside
    the window is kept by the filter and leaves every [created] counter
    as it is, while each row's [commented] and [approved] go up by one
    exactly when one of its reviews qualifies for that row in that
    state. *)
Theorem open_pull_request_outside_window
    (p : Payload.t) (owner repo : string) (reviews : list Review.t)
    (acc0 : Js.obj Counters.t) (k : string) :
  Payload.state p = "open" →
  ¬ strictlyInside (Payload.created_at p) →
  let pr := normalize owner repo reviews p in
  filterPullRequestList dateFrom dateTo p = true
  ∧ countCreated acc0 pr = acc0
  ∧ counter Counters.created (reducer acc0 pr) k
    = counter Counters.created acc0 k
  ∧ counter Counters.commented (reducer acc0 pr) k
    = counter Counters.commented acc0 k
      + b2n (reviewed (isState "COMMENTED") pr reviews k)
  ∧ counter Counters.approved (reducer acc0 pr) k
    = counter Counters.approved acc0 k
      + b2n (reviewed (isState "APPROVED") pr reviews k).
Proof.
  intros Hopen Hout pr.
  assert (inWindow (PullRequest.created_at pr) = false) as Hw
    by (apply not_true_is_false; by rewrite inWindow_spec).
  destruct (counter_reducer dateFrom dateTo acc0 pr k) as (Hc & Hm & Ha).
  split_and!; [|by apply countCreated_skip| |done..].
  - unfold filterPullRequestList. by rewrite bool_decide_eq_true_2.
  - rewrite Hc. unfold opens. rewrite Hw. cbn. lia.
Qed.

Lemma count_pos {A : Type} (f : A → bool) (l : list A) (x : A) :
  x ∈ l → f x = true → 0 < count f l.
Proof.
  intros Hin Hf. induction Hin as [x l|x y l _ IH]; cbn.
  - rewrite Hf. cbn. lia.
  - specialize (IH Hf). lia.
Qed.


Lemma reordered_same p q k :
  reordered p q →
  opens p k = opens q k
  ∧ ∀ P, reviewed P p (PullRequest.reviews p) k
         = reviewed P q (PullRequest.reviews q) k.
Proof.
  destruct p as [o r n s c a t rs], q as [o' r' n' s' c' a' t' rs'].
  intros H. unfold reordered in H. cbn in H.
  destruct H as (-> & -> & -> & -> & -> & -> & -> & Hperm). split; [done|].
  intros P. cbn [PullRequest.reviews].
  by rewrite (reviewed_perm _ _ P _ rs rs' k Hperm).
Qed.

Lemma Forall2_existsb {A : Type} (f g : A → bool) (l l' : list A)
    (R : A → A → Prop) :
  Forall2 R l l' → (∀ x y, R x y → f x = g y) → existsb f l = existsb g l'.
Proof.
  intros HR Hfg. induction HR as [|x y l l' Hxy _ IH]; cbn; [done|].
  by rewrite (Hfg x y Hxy), IH.
Qed.

Lemma Forall2_count {A : Type} (f g : A → bool) (l l' : list A)
    (R : A → A → Prop) :
  Forall2 R l l' → (∀ x y, R x y → f x = g y) → count f l = count g l'.
Proof.
  intros HR Hfg. induction HR as [|x y l l' Hxy _ IH]; cbn; [done|].
  by rewrite (Hfg x y Hxy), IH.
Qed.

(** C10: putting the reviews of each pull request in another order
    changes no row of the accumulator, and the detailed table holds the
    same rows. *)
Theorem review_order_irrelevant prs prs' :
  Forall2 reordered prs prs' →
  (∀ k, Js.get (grouped prs) k = Js.get (grouped prs') k)
  ∧ getDetailedStats prs ≡ₚ getDetailedStats prs'.
Proof.
  intros Hre.
  assert (∀ k, Js.props (grouped prs) !! k = Js.props (grouped prs') !! k)
    as Hsame.
  { intros k. rewrite !lookup_grouped.
    rewrite (Forall2_existsb _ (λ pr, active pr k) _ _ _ Hre).
    2:{ intros p q [Ho Hr]%(reordered_same _ _ k). unfold active.
        by rewrite Ho, Hr. }
    rewrite (Forall2_count _ (λ pr, opens pr k) _ _ _ Hre).
    2:{ by intros p q [Ho Hr]%(reordered_same _ _ k). }
    rewrite (Forall2_count _ (λ pr, reviewed (isState "COMMENTED") pr
               (PullRequest.reviews pr) k) _ _ _ Hre).
    2:{ by intros p q [Ho Hr]%(reordered_same _ _ k). }
    rewrite (Forall2_count _ (λ pr, reviewed (isState "APPROVED") pr
               (PullRequest.reviews pr) k) _ _ _ Hre).
    2:{ by intros p q [Ho Hr]%(reordered_same _ _ k). }
    done. }
  split; [done|]. unfold getDetailedStats.
  rewrite (entries_perm _ (wf_grouped _ _ prs)).
  rewrite (entries_perm _ (wf_grouped _ _ prs')).
  by rewrite (map_eq _ _ Hsame).
Qed.


Lemma keyOf_inj t t' : clean t → clean t' → keyOf t = keyOf t' → t = t'.
Proof.
  destruct t as [[o r] a], t' as [[o' r'] a']. unfold clean, keyOf. cbn.
  intros (Ho & Hr & _) (Ho' & Hr' & _) H.
  apply slash_inj in H as [-> H]; [|done..].
  apply slash_inj in H as [-> ->]; done.
Qed.

Lemma toRow_keyOf t c : clean t → triple (toRow (keyOf t, c)) = t.
Proof.
  destruct t as [[o r] a]. intros (Ho & Hr & Ha). cbn in Ho, Hr, Ha.
  unfold toRow, triple, keyOf. cbn [fst snd]. by rewrite split_key.
Qed.

Lemma existsb_ext_Forall {A : Type} (f g : A → bool) (Q : A → Prop) l :
  Forall Q l → (∀ x, Q x → f x = g x) → existsb f l = existsb g l.
Proof.
  intros HQ Hfg. induction HQ as [|x l Hx _ IH]; cbn; [done|].
  by rewrite (Hfg x Hx), IH.
Qed.

Lemma count_ext_Forall {A : Type} (f g : A → bool) (Q : A → Prop) l :
  Forall Q l → (∀ x, Q x → f x = g x) → count f l = count g l.
Proof.
  intros HQ Hfg. induction HQ as [|x l Hx _ IH]; cbn; [done|].
  by rewrite (Hfg x Hx), IH.
Qed.

Lemma opens_createdBy pr t :
  slashFree pr → clean t →
  opens pr (keyOf t) = createdBy dateFrom dateTo t pr.
Proof.
  intros [Hpr _] Ht. unfold opens, createdBy. f_equal.
  apply bool_decide_ext. split.
  - by apply (keyOf_inj (PullRequest.owner pr, PullRequest.repo pr,
                         PullRequest.author pr) t).
  - by intros <-.
Qed.

Lemma reviewed_reviewedBy P pr t :
  slashFree pr → clean t →
  reviewed P pr (PullRequest.reviews pr) (keyOf t)
  = reviewedBy dateFrom dateTo P t pr.
Proof.
  intros [(Ho & Hr & _) Hrs] Ht. unfold reviewed, reviewedBy.
  apply (existsb_ext_Forall _ _ (λ r, r ∈ PullRequest.reviews pr)).
  { by apply Forall_forall. }
  intros r Hin. unfold targets. do 2 f_equal.
  apply bool_decide_ext. split.
  - apply (keyOf_inj (PullRequest.owner pr, PullRequest.repo pr,
                      Review.reviewer r) t); [|done].
    split_and!; [done..|]. by apply Hrs.
  - by intros <-.
Qed.

Lemma active_touchedBy pr t :
  slashFree pr → clean t →
  active pr (keyOf t) = touchedBy dateFrom dateTo t pr.
Proof.
  intros Hpr Ht. unfold active, touchedBy.
  by rewrite opens_createdBy, reviewed_reviewedBy.
Qed.

(** Every key written for a pull request with clean names is the key of
    a clean triple. *)
Lemma active_clean pr k :
  slashFree pr → active pr k = true → ∃ t, clean t ∧ k = keyOf t.
Proof.
  intros [(Ho & Hr & Ha) Hrs]. unfold active. intros [H|H]%orb_true_iff.
  - unfold opens in H. apply andb_true_iff in H as [_ H%bool_decide_eq_true_1].
    by eexists (_, _, _).
  - apply reviewed_witness in H as (r & Hin & _ & <- & _).
    exists (PullRequest.owner pr, PullRequest.repo pr, Review.reviewer r).
    split; [|done]. split_and!; [done..|]. by apply Hrs.
Qed.

Lemma touchedBy_clean pr t :
  slashFree pr → touchedBy dateFrom dateTo t pr = true → clean t.
Proof.
  intros [(Ho & Hr & Ha) Hrs]. unfold touchedBy.
  intros [H|H]%orb_true_iff.
  - unfold createdBy in H.
    by apply andb_true_iff in H as [_ <-%bool_decide_eq_true_1].
  - unfold reviewedBy in H. apply existsb_exists in H as (r & Hin & H).
    apply andb_true_iff in H as [[_ <-%bool_decide_eq_true_1]%andb_true_iff _].
    split_and!; [done..|]. by apply Hrs, list_elem_of_In.
Qed.

(** The row of a clean triple, under clean names. *)
Lemma lookup_grouped_clean prs t :
  Forall slashFree prs → clean t →
  Js.props (grouped prs) !! keyOf t
  = if existsb (touchedBy dateFrom dateTo t) prs then
      Some (Counters.Make (count (createdBy dateFrom dateTo t) prs)
              (count (reviewedBy dateFrom dateTo (isState "COMMENTED") t) prs)
              (count (reviewedBy dateFrom dateTo (isState "APPROVED") t) prs))
    else None.
Proof.
  intros Hprs Ht. rewrite lookup_grouped.
  rewrite (existsb_ext_Forall _ (touchedBy dateFrom dateTo t) _ _ Hprs)
    by (intros pr Hpr; by apply active_touchedBy).
  rewrite (count_ext_Forall (λ pr, opens pr (keyOf t))
             (createdBy dateFrom dateTo t) _ _ Hprs)
    by (intros pr Hpr; by apply opens_createdBy).
  rewrite (count_ext_Forall
             (λ pr, reviewed (isState "COMMENTED") pr (PullRequest.reviews pr)
                      (keyOf t))
             (reviewedBy dateFrom dateTo (isState "COMMENTED") t) _ _ Hprs)
    by (intros pr Hpr; by apply reviewed_reviewedBy).
  rewrite (count_ext_Forall
             (λ pr, reviewed (isState "APPROVED") pr (PullRequest.reviews pr)
                      (keyOf t))
             (reviewedBy dateFrom dateTo (isState "APPROVED") t) _ _ Hprs)
    by (intros pr Hpr; by apply reviewed_reviewedBy).
  done.
Qed.

Lemma grouped_key_clean prs k c :
  Forall slashFree prs → Js.props (grouped prs) !! k = Some c →
  ∃ t, clean t ∧ k = keyOf t.
Proof.
  intros Hprs. rewrite lookup_grouped.
  destruct (existsb _ prs) eqn:Hact; [|done]. intros _.
  apply existsb_exists in Hact as (pr & Hin%list_elem_of_In & Hact).
  rewrite Forall_forall in Hprs. apply (active_clean pr); [by apply Hprs|done].
Qed.

(** C8, as the code has it: when no owner, repository or actor name
    holds a slash, the detailed table has at most one row per triple
    (owner, repo, actor), a triple has a row exactly when a pull request
    or a qualifying review belongs to it, and the counters of the row
    count the pull requests of that triple alone. *)
Theorem rows_keyed_by_triple prs :
  Forall slashFree prs →
  keyedByTriple dateFrom dateTo prs (getDetailedStats prs).
Proof.
  intros Hprs. split.
  - unfold getDetailedStats. rewrite <- list_fmap_compose.
    apply NoDup_fmap_2_strong.
    2:{ apply (NoDup_fmap_1 fst), entries_NoDup, wf_grouped. }
    intros [k c] [k' c'] Hin Hin' Heq.
    apply elem_of_entries in Hin, Hin'; [|apply wf_grouped..].
    destruct (grouped_key_clean prs k c Hprs Hin) as (t & Ht & ->).
    destruct (grouped_key_clean prs k' c' Hprs Hin') as (t' & Ht' & ->).
    cbn in Heq. rewrite !toRow_keyOf in Heq by done. subst t'.
    rewrite Hin in Hin'. by injection Hin' as ->.
  - intros row. rewrite elem_of_getDetailedStats. split.
    + intros (k & c & Hk & ->).
      destruct (grouped_key_clean prs k c Hprs Hk) as (t & Ht & ->).
      rewrite toRow_keyOf by done.
      rewrite lookup_grouped_clean in Hk by done.
      destruct (existsb _ prs); [|done]. by injection Hk as <-.
    + intros (Hev & Hc & Hm & Ha).
      assert (clean (triple row)) as Ht.
      { apply existsb_exists in Hev as (pr & Hin%list_elem_of_In & Hpr).
        rewrite Forall_forall in Hprs.
        apply (touchedBy_clean pr); [by apply Hprs|done]. }
      eexists (keyOf (triple row)), _. split.
      * rewrite lookup_grouped_clean by done. by rewrite Hev.
      * destruct row as [o r a n m p']. destruct Ht as (Ho & Hr & Ha').
        cbn in *. unfold toRow. cbn [fst snd]. unfold keyOf. cbn [fst snd].
        rewrite split_key by done. cbn. by rewrite <- Hc, <- Hm, <- Ha.
Qed.

End DetailedClaims.

(** ** The summary table *)

Lemma lookup_update {V : Type} (o : Js.obj V) (k b : string) (f : V → V) :
  Js.props (Js.update o k f) !! b
  = if decide (k = b) then f <$> Js.props o !! b else Js.props o !! b.
Proof.
  rewrite props_update. destruct (decide (k = b)) as [<-|Hne].
  - by rewrite lookup_alter_eq.
  - by rewrite lookup_alter_ne.
Qed.

Lemma invoke_own {V : Type} (o : Js.obj V) (k : string) (f : V → V) (v : V) :
  Js.props o !! k = Some v → invoke o k f = Some (Js.update o k f).
Proof. intros H. unfold invoke, Js.get. by rewrite H. Qed.

(** One row of an author that [Object.prototype] does not know: the
    callback returns, and only the entry of that author changes. *)
Lemma summarise_own acc0 item :
  Js.inherited (Row.author item) = false →
  ∃ acc1,
    summarise acc0 item = Some acc1
    ∧ (wf acc0 → wf acc1)
    ∧ ∀ b, Js.props acc1 !! b
           = if decide (Row.author item = b)
             then Some (addRow (default Entry.init (Js.props acc0 !! b)) item)
             else Js.props acc0 !! b.
Proof.
  intros Hin. unfold summarise, Js.has. rewrite Hin, orb_false_r.
  set (a := Row.author item).
  set (acc1 := if negb (bool_decide (is_Some (Js.props acc0 !! a)))
               then Js.set acc0 a Entry.init else acc0).
  assert (wf acc0 → wf acc1) as Hwf1.
  { intros H. unfold acc1. destruct (negb _); [by apply wf_set|done]. }
  assert (∀ b, Js.props acc1 !! b
               = if decide (a = b)
                 then Some (default Entry.init (Js.props acc0 !! b))
                 else Js.props acc0 !! b) as H1.
  { intros b. unfold acc1. destruct (Js.props acc0 !! a) as [e|] eqn:Ha; cbn.
    - destruct (decide (a = b)) as [<-|]; [by rewrite Ha|done].
    - destruct (decide (a = b)) as [<-|].
      + by rewrite lookup_insert_eq, Ha.
      + by rewrite lookup_insert_ne. }
  clearbody acc1.
  assert (∀ o e (f : Entry.t → Entry.t),
    Js.props o !! a = Some e → Js.props (Js.update o a f) !! a = Some (f e))
    as Hup.
  { intros o e f Ho. by rewrite lookup_update, decide_True, Ho. }
  pose proof (H1 a) as Ha1. rewrite decide_True in Ha1 by done.
  pose proof (Hup _ _ (add_pull_requests (Row.created item)) Ha1) as Ha2.
  unfold addRow.
  destruct (0 <? Row.created item)%nat; cbn [mbind option_bind].
  - rewrite (invoke_own _ _ _ _ Ha2). cbn [mbind option_bind].
    pose proof (Hup _ _ (add_repo (slash (Row.owner item) (Row.repo item)))
                  Ha2) as Ha3.
    pose proof (Hup _ _ (add_commented (Row.commented item)) Ha3) as Ha4.
    pose proof (Hup _ _ (add_approved (Row.approved item)) Ha4) as Ha5.
    destruct (_ || _).
    + rewrite (invoke_own _ _ _ _ Ha5). eexists. split; [done|]. split.
      { intros H. by do 5 apply wf_update; apply Hwf1. }
      intros b. rewrite !lookup_update, H1.
      by destruct (decide (a = b)).
    + eexists. split; [done|]. split.
      { intros H. by do 4 apply wf_update; apply Hwf1. }
      intros b. rewrite !lookup_update, H1.
      by destruct (decide (a = b)).
  - pose proof (Hup _ _ (add_commented (Row.commented item)) Ha2) as Ha4.
    pose proof (Hup _ _ (add_approved (Row.approved item)) Ha4) as Ha5.
    destruct (_ || _).
    + rewrite (invoke_own _ _ _ _ Ha5). eexists. split; [done|]. split.
      { intros H. by do 4 apply wf_update; apply Hwf1. }
      intros b. rewrite !lookup_update, H1.
      by destruct (decide (a = b)).
    + eexists. split; [done|]. split.
      { intros H. by do 3 apply wf_update; apply Hwf1. }
      intros b. rewrite !lookup_update, H1.
      by destruct (decide (a = b)).
Qed.

Lemma entryAfter_Some e mine :
  entryAfter (Some e) mine = Some (fold_left addRow mine e).
Proof. by destruct mine. Qed.

(** All rows: the entry of each author after the rows of that author. *)
Lemma reduce_summarise stats acc0 :
  Forall (λ row, Js.inherited (Row.author row) = false) stats →
  ∃ acc1,
    reduce summarise stats acc0 = Some acc1
    ∧ (wf acc0 → wf acc1)
    ∧ ∀ b, Js.props acc1 !! b
           = entryAfter (Js.props acc0 !! b) (rowsOf b stats).
Proof.
  intros Hst. revert acc0.
  induction Hst as [|item stats Hitem _ IH]; intros acc0.
  - exists acc0. by split_and!.
  - destruct (summarise_own acc0 item Hitem) as (acc1 & Hs & Hwf & H1).
    destruct (IH acc1) as (acc2 & Hr & Hwf2 & H2).
    exists acc2. cbn [reduce]. rewrite Hs. cbn [mbind option_bind].
    split_and!; [done|by auto|].
    intros b. rewrite H2, H1. unfold rowsOf. rewrite filter_cons.
    destruct (decide (Row.author item = b)) as [Hb|Hb].
    + by rewrite entryAfter_Some.
    + done.
Qed.

Lemma fold_addRow_sums l e :
  Entry.pull_requests (fold_left addRow l e)
  = Entry.pull_requests e + total Row.created l
  ∧ Entry.commented (fold_left addRow l e)
    = Entry.commented e + total Row.commented l
  ∧ Entry.approved (fold_left addRow l e)
    = Entry.approved e + total Row.approved l.
Proof.
  revert e. induction l as [|item l IH]; intros e; cbn [fold_left total foldr].
  - by rewrite !Nat.add_0_r.
  - destruct (IH (addRow e item)) as (-> & -> & ->). fold (total Row.created l).
    fold (total Row.commented l). fold (total Row.approved l).
    unfold addRow.
    destruct (0 <? Row.created item)%nat, (_ || _); cbn; lia.
Qed.

Lemma fold_addRow_sets l e :
  Entry.repos (fold_left addRow l e)
  = Entry.repos e
    ∪ list_to_set ((λ r, slash (Row.owner r) (Row.repo r)) <$> authoring l)
  ∧ Entry.reposReviewed (fold_left addRow l e)
    = Entry.reposReviewed e
      ∪ list_to_set ((λ r, slash (Row.owner r) (Row.repo r)) <$> reviewing l).
Proof.
  revert e. induction l as [|item l IH]; intros e; cbn [fold_left].
  - cbn. split; set_solver.
  - destruct (IH (addRow e item)) as (-> & ->).
    unfold authoring, reviewing. rewrite !filter_cons. unfold addRow. split.
    + destruct (Nat.ltb_spec 0 (Row.created item)) as [Hc|Hc].
      * rewrite decide_True by done. destruct (_ || _); cbn; set_solver.
      * rewrite decide_False by lia. destruct (_ || _); cbn; set_solver.
    + destruct (Nat.ltb_spec 0 (Row.commented item)) as [Hc|Hc],
        (Nat.ltb_spec 0 (Row.approved item)) as [Ha|Ha]; cbn [orb].
      * rewrite decide_True by auto.
        destruct (0 <? Row.created item)%nat; cbn; set_solver.
      * rewrite decide_True by auto.
        destruct (0 <? Row.created item)%nat; cbn; set_solver.
      * rewrite decide_True by auto.
        destruct (0 <? Row.created item)%nat; cbn; set_solver.
      * rewrite decide_False by lia.
        destruct (0 <? Row.created item)%nat; cbn; set_solver.
Qed.

(** Two ways of naming the elements of a list that tell the same
    elements apart give sets of the same size. *)
Lemma size_list_to_set_fmap {A B C : Type} `{Countable B, Countable C}
    (f : A → B) (g : A → C) (l : list A) :
  (∀ x y, x ∈ l → y ∈ l → f x = f y ↔ g x = g y) →
  size (list_to_set (f <$> l) : gset B) = size (list_to_set (g <$> l) : gset C).
Proof.
  induction l as [|x l IH]; intros Hfg; [done|].
  assert (size (list_to_set (f <$> l) : gset B)
          = size (list_to_set (g <$> l) : gset C)) as IH'.
  { apply IH. intros y z Hy Hz. apply Hfg; by apply list_elem_of_further. }
  assert (f x ∈ f <$> l ↔ g x ∈ g <$> l) as Hx.
  { rewrite !list_elem_of_fmap. split; intros (y & Hy & Hin); exists y;
      (split; [|done]); apply (Hfg x y); try done;
      [apply list_elem_of_here|by apply list_elem_of_further
      |apply list_elem_of_here|by apply list_elem_of_further]. }
  cbn [fmap list_fmap list_to_set].
  destruct (decide (f x ∈ f <$> l)) as [Hin|Hin].
  - rewrite (subseteq_union_1_L {[f x]}) by set_solver.
    rewrite (subseteq_union_1_L {[g x]}) by set_solver. done.
  - rewrite !size_union, !size_singleton by set_solver. by rewrite IH'.
Qed.

Lemma size_slash_pairs (l : list Row.t) :
  Forall (λ r, Js.contains "/" (Row.owner r) = false) l →
  size (list_to_set ((λ r, slash (Row.owner r) (Row.repo r)) <$> l)
          : gset string)
  = size (pairs l).
Proof.
  intros Hl. unfold pairs. apply size_list_to_set_fmap.
  rewrite Forall_forall in Hl. intros x y Hx Hy. split.
  - intros [-> ->]%slash_inj; [done|by apply Hl..].
  - by intros [= -> ->].
Qed.

Lemma rowsOf_nil a stats : rowsOf a stats = [] ↔ a ∉ Row.author <$> stats.
Proof.
  unfold rowsOf. rewrite list_elem_of_fmap. split.
  - intros Hnil (row & -> & Hin).
    assert (row ∈ filter (λ r, Row.author r = Row.author row) stats) as H
      by (by apply list_elem_of_filter).
    rewrite Hnil in H. by apply elem_of_nil in H.
  - intros Hno. destruct (filter _ stats) as [|row l] eqn:Hf; [done|].
    assert (row ∈ filter (λ r, Row.author r = a) stats) as Hin
      by (rewrite Hf; apply list_elem_of_here).
    apply list_elem_of_filter in Hin as [Ha Hin]. destruct Hno. by exists row.
Qed.

(** For rows whose owner holds no slash and whose author is not the
    name of a property of [Object.prototype], [getSummary] returns one
    row per distinct author, with the sums of [created], [commented]
    and [approved] over the rows of that author, and the numbers of
    distinct pairs (owner, repo) among those of its rows with
    [created > 0], and among those with [commented > 0] or
    [approved > 0]. *)
Lemma getSummary_plain_rows stats :
  Forall plain stats →
  ∃ out, getSummary stats = Some out ∧ summarises stats out.
Proof.
  intros Hplain.
  assert (Forall (λ row, Js.inherited (Row.author row) = false) stats) as Hin
    by (eapply Forall_impl; [done|]; by intros row [_ ?]).
  assert (∀ l, l ⊆ stats →
            Forall (λ r, Js.contains "/" (Row.owner r) = false) l) as Hown.
  { intros l Hl. apply Forall_forall. intros r Hr%Hl.
    rewrite Forall_forall in Hplain. by apply Hplain. }
  destruct (reduce_summarise stats Js.empty Hin) as (fr & Hfr & Hwf & Hlook).
  specialize (Hwf wf_empty).
  assert (∀ b, Js.props fr !! b = entryAfter None (rowsOf b stats)) as Hfin.
  { intros b. rewrite Hlook. cbn. by rewrite lookup_empty. }
  assert (∀ a e, Js.props fr !! a = Some e ↔
            rowsOf a stats ≠ []
            ∧ e = fold_left addRow (rowsOf a stats) Entry.init) as Hentry.
  { intros a e. rewrite Hfin. unfold entryAfter.
    destruct (rowsOf a stats) as [|r l]; [by split; [|intros [? _]]|].
    cbn [default]. split; [by intros [= <-]|by intros [_ ->]]. }
  exists (toSummary <$> Js.entries fr). split.
  { unfold getSummary, finalResult. by rewrite Hfr. }
  split_and!.
  - rewrite <- list_fmap_compose. by apply entries_NoDup.
  - intros a. rewrite <- list_fmap_compose.
    change (Summary.author ∘ toSummary) with (@fst string Entry.t).
    rewrite list_elem_of_fmap. split.
    + intros ([a' e] & -> & Hae%elem_of_entries); [|done].
      apply Hentry in Hae as [Hne _].
      destruct (decide (a' ∈ Row.author <$> stats)) as [|Hno]; [done|].
      by apply rowsOf_nil in Hno.
    + intros Ha. assert (rowsOf a stats ≠ []) as Hne
        by (by rewrite rowsOf_nil; intros ?).
      exists (a, fold_left addRow (rowsOf a stats) Entry.init).
      split; [done|]. apply elem_of_entries; [done|]. by apply Hentry.
  - intros s ([a e] & -> & Hae%elem_of_entries)%list_elem_of_fmap; [|done].
    apply Hentry in Hae as [_ ->].
    cbn [toSummary Summary.author Summary.pull_requests Summary.commented
         Summary.approved Summary.repos Summary.repos_reviewed fst snd].
    destruct (fold_addRow_sums (rowsOf a stats) Entry.init) as (-> & -> & ->).
    destruct (fold_addRow_sets (rowsOf a stats) Entry.init) as (-> & ->).
    cbn [Entry.init Entry.pull_requests Entry.commented Entry.approved
         Entry.repos Entry.reposReviewed].
    rewrite !(left_id_L ∅ (∪)).
    split_and!; [done..| |]; apply size_slash_pairs, Hown.
    + intros r Hr. unfold authoring, rowsOf in Hr.
      by apply list_elem_of_filter in Hr as [_ [_ ?]%list_elem_of_filter].
    + intros r Hr. unfold reviewing, rowsOf in Hr.
      by apply list_elem_of_filter in Hr as [_ [_ ?]%list_elem_of_filter].
Qed.

(** ** The scenarios of the specification *)

Example scenario_one_pull_request :
  getDetailedStats Sample.dateFrom Sample.dateTo [Sample.pr1]
  = [ Row.Make "acme" "widgets" "alice" 1 0 0;
      Row.Make "acme" "widgets" "bob" 0 1 1 ].
Proof. by vm_compute. Qed.

Example scenario_two_pull_requests :
  getSummary (getDetailedStats Sample.dateFrom Sample.dateTo
                [Sample.pr1; Sample.pr2])
  = Some [ Summary.Make "alice" 2 1 0 0 0; Summary.Make "bob" 0 0 2 1 1 ].
Proof. by vm_compute. Qed.

(** Authors that are array indices come first in [Object.keys]. *)
Example summary_order :
  getSummary [ Row.Make "o" "r" "zed" 1 0 0; Row.Make "o" "r" "10" 1 0 0;
               Row.Make "o" "r" "9" 0 1 0 ]
  = Some [ Summary.Make "9" 0 0 1 0 1; Summary.Make "10" 1 1 0 0 0;
           Summary.Make "zed" 1 1 0 0 0 ].
Proof. by vm_compute. Qed.

(** A review in another state creates the row of its reviewer and
    raises no counter. *)
Example changes_requested_output :
  getDetailedStats Sample.dateFrom Sample.dateTo [Sample.pr3]
  = [ Row.Make "acme" "widgets" "alice" 1 0 0;
      Row.Make "acme" "widgets" "carol" 0 0 0 ].
Proof. by vm_compute. Qed.

(** Dates on the two ends of the window and the author's own review
    leave no row. *)
Example boundary_output :
  getDetailedStats Sample.dateFrom Sample.dateTo [Sample.pr4] = [].
Proof. by vm_compute. Qed.

(** Names with a slash: one key for two triples, cut into a third. *)
Example slashed_output :
  getDetailedStats Sample.dateFrom Sample.dateTo Sample.slashed
  = [ Row.Make "a" "b" "c" 2 0 0 ].
Proof. by vm_compute. Qed.

Example slashed_summary :
  getSummary Sample.slashedRows = Some [ Summary.Make "x" 2 1 0 0 0 ].
Proof. by vm_compute. Qed.

(** An author named like a property of [Object.prototype]: the entry is
    never created and the first [add] throws. *)
Example summary_throws :
  getSummary [ Row.Make "acme" "widgets" "constructor" 1 0 0 ] = None.
Proof. by vm_compute. Qed.

(** ** Empty input *)

(** C9: without pull requests the detailed table is empty, and
    without detailed rows the summary is empty; neither call throws. *)
Theorem empty_input_empty_output (dateFrom dateTo : Js.timeval) :
  getDetailedStats dateFrom dateTo [] = [] ∧ getSummary [] = Some [].
Proof. split; reflexivity. Qed.

(** ** The theorems at the sample inputs *)

Lemma review_counted_once_witness :
  qualifying Sample.dateFrom Sample.dateTo Sample.pr1 Sample.commented17 = true
  ∧ qualifying Sample.dateFrom Sample.dateTo Sample.pr1 Sample.commented18
    = true
  ∧ (let st :=
       fold_left (eachReview Sample.dateFrom Sample.dateTo Sample.pr1)
         [Sample.commented17]
         (Loop (countCreated Sample.dateFrom Sample.dateTo Js.empty Sample.pr1)
            Js.empty Js.empty) in
     eachReview Sample.dateFrom Sample.dateTo Sample.pr1 st Sample.commented18
     = st)
  ∧ counter Counters.commented
      (reducer Sample.dateFrom Sample.dateTo Js.empty Sample.pr1)
      "acme/widgets/bob"
    = 1.
Proof.
  split; [reflexivity|]. split; [reflexivity|].
  destruct (review_counted_once_per_pull_request Sample.dateFrom Sample.dateTo
              Js.empty Sample.pr1 [] Sample.commented17 [] Sample.commented18
              [Sample.approved19] "COMMENTED")
    as (Hskip & Hone & _); [reflexivity..|left; reflexivity|].
  split; [exact Hskip|exact Hone].
Defined.

Lemma self_review_witness :
  Review.reviewer (Review.Make "APPROVED" "alice" (Sample.sept 17))
  = PullRequest.author Sample.pr4
  ∧ eachReview Sample.dateFrom Sample.dateTo Sample.pr4
      (Loop Js.empty Js.empty Js.empty)
      (Review.Make "APPROVED" "alice" (Sample.sept 17))
    = Loop Js.empty Js.empty Js.empty.
Proof.
  split; [reflexivity|].
  apply (proj1 (self_review_never_counts Sample.dateFrom Sample.dateTo)).
  reflexivity.
Defined.

Lemma interval_strict_witness :
  (Sample.sept 15 = Sample.dateFrom ∨ Sample.sept 15 = Sample.dateTo)
  ∧ Js.truthy (validInterval (Sample.sept 15) Sample.dateFrom Sample.dateTo)
    = false
  ∧ countCreated Sample.dateFrom Sample.dateTo Js.empty Sample.pr4 = Js.empty.
Proof.
  destruct (interval_strict_on_both_ends Sample.dateFrom Sample.dateTo)
    as (_ & Hedge & Hpr & _).
  split; [left; reflexivity|]. split.
  - apply Hedge. left. reflexivity.
  - apply Hpr. reflexivity.
Defined.

Lemma filterPullRequestList_witness :
  Payload.state Sample.stale = "open"
  ∧ filterPullRequestList Sample.dateFrom Sample.dateTo Sample.stale = true.
Proof.
  split; [reflexivity|].
  apply (proj2 (filterPullRequestList_keeps Sample.dateFrom Sample.dateTo
                  Sample.stale)).
  reflexivity.
Defined.

Lemma strictlyInside_sept1 :
  ¬ strictlyInside Sample.dateFrom Sample.dateTo (Sample.sept 1).
Proof.
  intros (x & a & b & Hx & Ha & Hb & Hlt).
  injection Hx as <-. injection Ha as <-. injection Hb as <-.
  vm_compute in Hlt. destruct Hlt as [Hlt _]. discriminate Hlt.
Defined.

Lemma open_pull_request_witness :
  Payload.state Sample.stale = "open"
  ∧ ¬ strictlyInside Sample.dateFrom Sample.dateTo
        (Payload.created_at Sample.stale)
  ∧ counter Counters.created
      (reducer Sample.dateFrom Sample.dateTo Js.empty
         (normalize "acme" "widgets" [Sample.commented17] Sample.stale))
      "acme/widgets/alice"
    = 0
  ∧ counter Counters.commented
      (reducer Sample.dateFrom Sample.dateTo Js.empty
         (normalize "acme" "widgets" [Sample.commented17] Sample.stale))
      "acme/widgets/bob"
    = 1.
Proof.
  split; [reflexivity|]. split; [exact strictlyInside_sept1|].
  split.
  - apply (open_pull_request_outside_window Sample.dateFrom Sample.dateTo
             Sample.stale "acme" "widgets" [Sample.commented17] Js.empty
             "acme/widgets/alice" eq_refl strictlyInside_sept1).
  - apply (open_pull_request_outside_window Sample.dateFrom Sample.dateTo
             Sample.stale "acme" "widgets" [Sample.commented17] Js.empty
             "acme/widgets/bob" eq_refl strictlyInside_sept1).
Defined.



Lemma slashFree_pr1 : Forall slashFree [Sample.pr1; Sample.pr2].
Proof.
  constructor; [|constructor; [|constructor]];
    (split; [repeat split | apply Forall_forall; repeat constructor]).
Defined.

Lemma rows_keyed_by_triple_witness :
  Forall slashFree [Sample.pr1; Sample.pr2]
  ∧ keyedByTriple Sample.dateFrom Sample.dateTo [Sample.pr1; Sample.pr2]
      (getDetailedStats Sample.dateFrom Sample.dateTo [Sample.pr1; Sample.pr2]).
Proof.
  split; [exact slashFree_pr1|].
  exact (rows_keyed_by_triple Sample.dateFrom Sample.dateTo _ slashFree_pr1).
Defined.

(** Two triples that differ only in where the slash stands are filed
    under one key, and the key is cut into yet another triple. *)
Lemma slashed_names_counterexample :
  ¬ keyedByTriple Sample.dateFrom Sample.dateTo Sample.slashed
      (getDetailedStats Sample.dateFrom Sample.dateTo Sample.slashed).
Proof.
  intros [_ H]. specialize (H (Row.Make "a" "b" "c" 2 0 0)).
  apply proj1 in H. destruct H as (_ & Hc & _).
  - vm_compute. apply list_elem_of_here.
  - vm_compute in Hc. discriminate Hc.
Qed.

Lemma reordered_pr1 : Forall2 reordered [Sample.pr1] [Sample.pr1'].
Proof.
  repeat constructor. cbn.
  change [Sample.approved19; Sample.commented18; Sample.commented17]
    with (reverse [Sample.commented17; Sample.commented18; Sample.approved19]).
  symmetry. apply reverse_Permutation.
Defined.

Lemma review_order_witness :
  Forall2 reordered [Sample.pr1] [Sample.pr1']
  ∧ getDetailedStats Sample.dateFrom Sample.dateTo [Sample.pr1]
    ≡ₚ getDetailedStats Sample.dateFrom Sample.dateTo [Sample.pr1'].
Proof.
  split; [exact reordered_pr1|].
  exact (proj2 (review_order_irrelevant Sample.dateFrom Sample.dateTo _ _
                  reordered_pr1)).
Defined.

(** ** More on the detailed table *)

Section DetailedMore.

Variables dateFrom dateTo : Js.timeval.

Abbreviation inWindow := (inWindow dateFrom dateTo).
Abbreviation qualifying := (qualifying dateFrom dateTo).
Abbreviation reviewed := (reviewed dateFrom dateTo).
Abbreviation opens := (opens dateFrom dateTo).
Abbreviation active := (active dateFrom dateTo).
Abbreviation reducer := (reducer dateFrom dateTo).
Abbreviation grouped := (grouped dateFrom dateTo).
Abbreviation getDetailedStats := (getDetailedStats dateFrom dateTo).

Lemma count_app {A : Type} (f : A → bool) (l1 l2 : list A) :
  count f (l1 ++ l2) = count f l1 + count f l2.
Proof. induction l1 as [|x l1 IH]; cbn; [done|]. rewrite IH. lia. Qed.

Lemma count_perm {A : Type} (f : A → bool) (l l' : list A) :
  l ≡ₚ l' → count f l = count f l'.
Proof. induction 1; cbn; lia. Qed.

Lemma existsb_perm {A : Type} (f : A → bool) (l l' : list A) :
  l ≡ₚ l' → existsb f l = existsb f l'.
Proof.
  intros Hp. apply eq_true_iff_eq. rewrite !existsb_exists.
  by setoid_rewrite Hp.
Qed.

Lemma count_le_length {A : Type} (f g : A → bool) (l : list A) :
  (∀ x, f x = true → g x = false) → count f l + count g l ≤ length l.
Proof.
  intros Hfg. induction l as [|x l IH]; cbn; [done|].
  destruct (f x) eqn:Hf; [rewrite (Hfg x Hf)|destruct (g x)]; cbn; lia.
Qed.

Lemma slash_inj_r (a b b' : string) : slash a b = slash a b' → b = b'.
Proof.
  rewrite !slash_cons. induction a as [|c a IH]; cbn [String.append].
  - by intros [= ->].
  - intros [= H]. by apply IH.
Qed.

(** A pull request is never counted for its author as a review. *)
Lemma opens_not_reviewed P pr k :
  opens pr k = true → reviewed P pr (PullRequest.reviews pr) k = false.
Proof.
  unfold opens. intros [_ Hk%bool_decide_eq_true_1]%andb_true_iff.
  apply not_true_is_false.
  intros (r & _ & Hq & Hr & _)%reviewed_witness.
  unfold qualifying in Hq. apply andb_true_iff in Hq as [_ Hne].
  apply negb_true_iff, bool_decide_eq_false_1 in Hne. apply Hne.
  rewrite <- Hk in Hr. unfold reviewerKey, prKey in Hr.
  by apply slash_inj_r, slash_inj_r in Hr.
Qed.

Lemma grouped_app l1 l2 :
  grouped (l1 ++ l2) = fold_left reducer l2 (grouped l1).
Proof. unfold grouped. apply fold_left_app. Qed.

(** X1: the table of two batches of pull requests is the sum of their
    tables: a key has a row when it has one for either batch, and each
    of its counters is the sum of the counters of the two batches. *)
Theorem counters_add_over_batches l1 l2 k :
  (is_Some (Js.get (grouped (l1 ++ l2)) k) ↔
   is_Some (Js.get (grouped l1) k) ∨ is_Some (Js.get (grouped l2) k))
  ∧ counter Counters.created (grouped (l1 ++ l2)) k
    = counter Counters.created (grouped l1) k
      + counter Counters.created (grouped l2) k
  ∧ counter Counters.commented (grouped (l1 ++ l2)) k
    = counter Counters.commented (grouped l1) k
      + counter Counters.commented (grouped l2) k
  ∧ counter Counters.approved (grouped (l1 ++ l2)) k
    = counter Counters.approved (grouped l1) k
      + counter Counters.approved (grouped l2) k.
Proof.
  unfold counter, Js.get. rewrite !lookup_grouped, existsb_app, !count_app.
  destruct (existsb _ l1) eqn:H1, (existsb _ l2) eqn:H2; cbn.
  - split; [|done]. split; [by left|by eexists].
  - split; [split; [by left|by eexists]|].
    rewrite !(count_none _ (λ pr, active pr k) l2);
      [done|try (intros x; apply reviewed_active); try done..].
    intros x. apply opens_active.
  - split; [split; [by right|by eexists]|].
    rewrite !(count_none _ (λ pr, active pr k) l1);
      [done|try (intros x; apply reviewed_active); try done..].
    intros x. apply opens_active.
  - split; [|done]. split; [by intros [? ?]|by intros [[? ?]|[? ?]]].
Qed.

(** X2: the order of the pull requests does not matter: every key
    keeps its counters and the table holds the same rows. *)
Theorem pull_request_order_irrelevant prs prs' :
  prs ≡ₚ prs' →
  (∀ k, Js.get (grouped prs) k = Js.get (grouped prs') k)
  ∧ getDetailedStats prs ≡ₚ getDetailedStats prs'.
Proof.
  intros Hp.
  assert (∀ k, Js.props (grouped prs) !! k = Js.props (grouped prs') !! k)
    as Hsame.
  { intros k. rewrite !lookup_grouped.
    rewrite (existsb_perm _ _ _ Hp).
    rewrite (count_perm (λ pr, opens pr k) _ _ Hp).
    rewrite (count_perm (λ pr, reviewed (isState "COMMENTED") pr
               (PullRequest.reviews pr) k) _ _ Hp).
    by rewrite (count_perm (λ pr, reviewed (isState "APPROVED") pr
                  (PullRequest.reviews pr) k) _ _ Hp). }
  split; [done|]. unfold getDetailedStats.
  rewrite (entries_perm _ (wf_grouped _ _ prs)).
  rewrite (entries_perm _ (wf_grouped _ _ prs')).
  by rewrite (map_eq _ _ Hsame).
Qed.

(** X3: when [dateFrom] or [dateTo] is an invalid date, or no instant
    lies strictly between them, the table is empty; nothing throws. *)
Theorem empty_window_empty_table prs :
  (∀ a b, dateFrom = Some a → dateTo = Some b → (b ≤ a + 1)%Z) →
  getDetailedStats prs = [].
Proof.
  intros Hwin.
  assert (∀ t, inWindow t = false) as Hno.
  { intros t. apply not_true_is_false.
    intros (x & a & b & _ & Ha & Hb & Hlt)%inWindow_spec.
    specialize (Hwin a b Ha Hb). lia. }
  assert (Js.props (grouped prs) = ∅) as Hempty.
  { apply map_eq. intros k. rewrite lookup_grouped, lookup_empty.
    destruct (existsb _ prs) eqn:Hact; [|done].
    apply existsb_exists in Hact as (pr & _ & Hact).
    unfold active in Hact. apply orb_true_iff in Hact as [Ho|Hr].
    - unfold opens in Ho. by rewrite Hno in Ho.
    - apply reviewed_witness in Hr as (r & _ & Hq & _).
      unfold qualifying in Hq. by rewrite Hno in Hq. }
  unfold getDetailedStats.
  apply Permutation_nil_r.
  rewrite (entries_perm _ (wf_grouped _ _ prs)), Hempty.
  by rewrite map_to_list_empty.
Qed.

(** X4: an actor is never counted both as the author and as a reviewer
    of one pull request: in every row, [created + commented] and
    [created + approved] are at most the number of pull requests. *)
Theorem author_and_reviewer_exclusive prs row :
  row ∈ getDetailedStats prs →
  Row.created row + Row.commented row ≤ length prs
  ∧ Row.created row + Row.approved row ≤ length prs.
Proof.
  intros (k & c & Hk & ->)%elem_of_getDetailedStats.
  rewrite lookup_grouped in Hk.
  destruct (existsb _ prs); [|done]. injection Hk as <-.
  cbn. split; apply count_le_length; intros pr; apply opens_not_reviewed.
Qed.

End DetailedMore.

(** ** The rows and their order *)

Section DetailedRows.

Variables dateFrom dateTo : Js.timeval.

Abbreviation inWindow := (inWindow dateFrom dateTo).
Abbreviation qualifying := (qualifying dateFrom dateTo).
Abbreviation reviewed := (reviewed dateFrom dateTo).
Abbreviation opens := (opens dateFrom dateTo).
Abbreviation active := (active dateFrom dateTo).
Abbreviation eachReview := (eachReview dateFrom dateTo).
Abbreviation countCreated := (countCreated dateFrom dateTo).
Abbreviation countReviews := (countReviews dateFrom dateTo).
Abbreviation reducer := (reducer dateFrom dateTo).
Abbreviation grouped := (grouped dateFrom dateTo).
Abbreviation getDetailedStats := (getDetailedStats dateFrom dateTo).

(** No part cut by [split] holds the separator. *)
Lemma split_parts (c : ascii) (s : string) :
  Forall (λ p, Js.contains c p = false) (Js.split c s).
Proof.
  induction s as [|d s IH]; cbn [Js.split].
  - by repeat constructor.
  - case_bool_decide as Hd; [by constructor|].
    destruct (Js.split c s) as [|p ps].
    + repeat constructor. cbn. by rewrite bool_decide_eq_false_2.
    + apply Forall_cons in IH as [Hp Hps]. constructor; [|done].
      cbn. by rewrite bool_decide_eq_false_2.
Qed.

Lemma nth_split (c : ascii) (s d : string) (i : nat) :
  Js.contains c d = false → Js.contains c (nth i (Js.split c s) d) = false.
Proof.
  intros Hd. pose proof (split_parts c s) as HF. revert i.
  induction HF as [|p ps Hp _ IH]; intros [|i]; cbn; auto.
Qed.

(** X5: no field of a row holds a slash, whatever the names of the
    input are: a name with a slash is cut at the slash. *)
Theorem rows_hold_no_slash prs row :
  row ∈ getDetailedStats prs → clean (triple row).
Proof.
  intros (k & c & _ & ->)%elem_of_getDetailedStats.
  unfold clean, triple, toRow. cbn [fst snd Row.owner Row.repo Row.author].
  split_and!; by apply nth_split.
Qed.

(** *** The order of the rows *)

Lemma digits_slash (s : string) (n : N) :
  Js.contains "/" s = true → Js.digits n s = None.
Proof.
  revert n. induction s as [|c s IH]; intros n; cbn; [done|].
  case_bool_decide as Hc.
  - intros _. by subst c.
  - cbn. intros Hs. destruct (Js.digit c); [by apply IH|done].
Qed.

(** A key with a slash is no array index. *)
Lemma array_index_slash (k : string) :
  Js.contains "/" k = true → Js.array_index k = None.
Proof.
  destruct k as [|c k]; [done|]. intros Hk. unfold Js.array_index.
  case_bool_decide as Hc.
  - subst c. by destruct k.
  - by rewrite digits_slash.
Qed.

Lemma keys_no_index {V : Type} (o : Js.obj V) :
  Forall (λ k, Js.array_index k = None) (Js.order o) → Js.keys o = Js.order o.
Proof.
  intros HF. unfold Js.keys, Js.indices.
  assert (omap (λ k, (λ n, (n, k)) <$> Js.array_index k) (Js.order o) = [])
    as ->.
  { induction HF as [|k l Hk _ IH]; [done|]. cbn. by rewrite Hk. }
  cbn. induction HF as [|k l Hk _ IH]; [done|].
  rewrite filter_cons, decide_True by done. by rewrite IH.
Qed.

Lemma entries_keys {V : Type} (o : Js.obj V) :
  wf o → (Js.entries o).*1 = Js.keys o.
Proof.
  intros [_ Hdom]. unfold Js.entries, Js.get.
  assert (Forall (λ k, is_Some (Js.props o !! k)) (Js.keys o)) as HF.
  { apply Forall_forall. intros k Hk. apply Hdom. by rewrite <- keys_perm. }
  induction HF as [|k l [v Hv] _ IH]; [done|].
  cbn. rewrite Hv. cbn. by rewrite IH.
Qed.

Lemma ensure_order acc0 a b :
  slashed acc0 →
  slashed (ensure acc0 (slash a b))
  ∧ Js.order acc0 `prefix_of` Js.order (ensure acc0 (slash a b)).
Proof.
  intros H. unfold ensure. destruct (negb _); [|done].
  unfold Js.set. cbn. case_bool_decide; [done|]. split.
  - apply Forall_app. split; [done|]. repeat constructor.
    apply contains_slash.
  - by apply prefix_app_r.
Qed.

Lemma eachReview_order pr st r :
  slashed (acc st) →
  slashed (acc (eachReview pr st r))
  ∧ Js.order (acc st) `prefix_of` Js.order (acc (eachReview pr st r)).
Proof.
  intros H. unfold eachReview. destruct (_ && _); [|done].
  destruct (ensure_order (acc st) (PullRequest.owner pr)
              (slash (PullRequest.repo pr) (Review.reviewer r)) H) as [Hs Hp].
  destruct (_ && _); [|destruct (_ && _)]; cbn [acc]; unfold slashed;
    rewrite ?order_update; done.
Qed.

Lemma reducer_order acc0 pr :
  slashed acc0 →
  slashed (reducer acc0 pr)
  ∧ Js.order acc0 `prefix_of` Js.order (reducer acc0 pr).
Proof.
  intros H. unfold reducer, countReviews.
  assert (slashed (countCreated acc0 pr)
          ∧ Js.order acc0 `prefix_of` Js.order (countCreated acc0 pr))
    as [Hs Hp].
  { unfold countCreated. destruct (Js.truthy _); [|done].
    unfold slashed. rewrite order_update. by apply ensure_order. }
  assert (∀ rs st, slashed (acc st) →
            slashed (acc (fold_left (eachReview pr) rs st))
            ∧ Js.order (acc st)
              `prefix_of` Js.order (acc (fold_left (eachReview pr) rs st)))
    as Hfold.
  { induction rs as [|r rs IH]; intros st Hst; [done|]. cbn [fold_left].
    destruct (eachReview_order pr st r Hst) as [Hs1 Hp1].
    destruct (IH _ Hs1) as [Hs2 Hp2]. split; [done|by etrans]. }
  destruct (Hfold (PullRequest.reviews pr)
              (Loop (countCreated acc0 pr) Js.empty Js.empty) Hs) as [Hs' Hp'].
  split; [done|by etrans].
Qed.

Lemma fold_reducer_order prs acc0 :
  slashed acc0 →
  slashed (fold_left reducer prs acc0)
  ∧ Js.order acc0 `prefix_of` Js.order (fold_left reducer prs acc0).
Proof.
  revert acc0. induction prs as [|pr prs IH]; intros acc0 H; [done|].
  cbn [fold_left]. destruct (reducer_order acc0 pr H) as [Hs Hp].
  destruct (IH _ Hs) as [Hs' Hp']. split; [done|by etrans].
Qed.

(** The rows come in the order in which their keys were created. *)
Lemma entries_grouped prs : (Js.entries (grouped prs)).*1 = Js.order (grouped prs).
Proof.
  rewrite entries_keys by apply wf_grouped. apply keys_no_index.
  destruct (fold_reducer_order prs Js.empty) as [Hs _]; [constructor|].
  eapply Forall_impl; [exact Hs|]. intros k. apply array_index_slash.
Qed.

(** X6: the rows stand in the order in which their first pull request
    or qualifying review was met, and more pull requests at the end of
    the input only add rows at the end of the table. *)
Theorem later_pull_requests_append_rows prs more :
  (triple <$> getDetailedStats prs)
  `prefix_of` (triple <$> getDetailedStats (prs ++ more)).
Proof.
  assert (∀ l, triple <$> getDetailedStats l
               = (λ k, triple (toRow (k, Counters.zero)))
                 <$> Js.order (grouped l)) as Hrows.
  { intros l. unfold getDetailedStats.
    rewrite <- (entries_grouped l), <- !list_fmap_compose.
    by apply list_fmap_ext. }
  rewrite !Hrows. unfold grouped at 2. rewrite fold_left_app.
  destruct (fold_reducer_order prs Js.empty) as [Hs _]; [constructor|].
  destruct (fold_reducer_order more _ Hs) as [_ [rest Hrest]].
  unfold grouped. rewrite Hrest, fmap_app. by apply prefix_app_r.
Qed.

End DetailedRows.

(** ** Totals of the detailed table *)

Section DetailedTotals.

Variables dateFrom dateTo : Js.timeval.

Abbreviation inWindow := (inWindow dateFrom dateTo).
Abbreviation qualifying := (qualifying dateFrom dateTo).
Abbreviation reviewed := (reviewed dateFrom dateTo).
Abbreviation opens := (opens dateFrom dateTo).
Abbreviation active := (active dateFrom dateTo).
Abbreviation grouped := (grouped dateFrom dateTo).
Abbreviation getDetailedStats := (getDetailedStats dateFrom dateTo).

Lemma total_sum (f : Row.t → nat) (l : list Row.t) :
  total f l = sum_list_with f l.
Proof. induction l as [|x l IH]; cbn; [done|]. by rewrite <- IH. Qed.

Lemma count_sum {A : Type} (f : A → bool) (l : list A) :
  count f l = sum_list_with (λ x, b2n (f x)) l.
Proof. induction l as [|x l IH]; cbn; [done|]. by rewrite IH. Qed.

Lemma sum_list_with_add {A : Type} (f g : A → nat) (l : list A) :
  sum_list_with (λ x, f x + g x) l = sum_list_with f l + sum_list_with g l.
Proof. induction l as [|x l IH]; cbn; [done|]. rewrite IH. lia. Qed.

Lemma sum_list_with_map {A B : Type} (f : B → nat) (g : A → B) (l : list A) :
  sum_list_with f (g <$> l) = sum_list_with (λ x, f (g x)) l.
Proof. induction l as [|x l IH]; cbn; [done|]. by rewrite <- IH. Qed.

Lemma sum_list_with_ext_in {A : Type} (f g : A → nat) (l : list A) :
  (∀ x, x ∈ l → f x = g x) → sum_list_with f l = sum_list_with g l.
Proof.
  induction l as [|x l IH]; intros H; cbn; [done|].
  rewrite (H x) by apply list_elem_of_here.
  rewrite IH; [done|]. intros y Hy. by apply H, list_elem_of_further.
Qed.

(** Summing, over keys, the elements counted for each key is summing,
    over elements, the keys they are counted for. *)
Lemma sum_count_swap {A K : Type} (g : K → A → bool) (ks : list K)
    (l : list A) :
  sum_list_with (λ k, count (g k) l) ks
  = sum_list_with (λ x, sum_list_with (λ k, b2n (g k x)) ks) l.
Proof.
  induction ks as [|k ks IH]; cbn.
  - induction l as [|x l IHl]; cbn; [done|]. by rewrite <- IHl.
  - by rewrite IH, sum_list_with_add, count_sum.
Qed.

Lemma sum_indicator (ks : list string) (k0 : string) (b : bool) :
  NoDup ks →
  sum_list_with (λ k, b2n (b && bool_decide (k0 = k))) ks
  = b2n (b && bool_decide (k0 ∈ ks)).
Proof.
  induction 1 as [|k ks Hk _ IH]; cbn.
  - rewrite bool_decide_eq_false_2 by apply not_elem_of_nil.
    by rewrite andb_false_r.
  - rewrite IH. destruct b; cbn; [|done].
    destruct (decide (k0 = k)) as [->|Hne].
    + rewrite bool_decide_eq_true_2 by done.
      rewrite (bool_decide_eq_false_2 (k ∈ ks)) by done.
      by rewrite bool_decide_eq_true_2 by apply list_elem_of_here.
    + rewrite bool_decide_eq_false_2 by done. cbn.
      apply f_equal, bool_decide_ext. rewrite elem_of_cons.
      split; [by right|by intros [?|?]].
Qed.

Lemma sum_entries {V : Type} (f : V → nat) (o : Js.obj V) :
  sum_list_with (λ e, f e.2) (Js.entries o)
  = sum_list_with (λ k, from_option f 0 (Js.get o k)) (Js.keys o).
Proof.
  unfold Js.entries. induction (Js.keys o) as [|k l IH]; cbn; [done|].
  destruct (Js.get o k) as [v|]; cbn; by rewrite IH.
Qed.

Lemma counter_grouped prs k :
  counter Counters.created (grouped prs) k = count (λ pr, opens pr k) prs
  ∧ counter Counters.commented (grouped prs) k
    = count (λ pr, reviewed (isState "COMMENTED") pr
                     (PullRequest.reviews pr) k) prs
  ∧ counter Counters.approved (grouped prs) k
    = count (λ pr, reviewed (isState "APPROVED") pr
                     (PullRequest.reviews pr) k) prs.
Proof.
  unfold counter, Js.get. rewrite lookup_grouped.
  destruct (existsb _ prs) eqn:Hact; [done|]. cbn.
  rewrite !(count_none _ (λ pr, active pr k) prs);
    [done|try (intros x; apply reviewed_active); try done..].
  intros x. apply opens_active.
Qed.

Lemma keys_NoDup {V : Type} (o : Js.obj V) : wf o → NoDup (Js.keys o).
Proof. intros [H _]. by rewrite keys_perm. Qed.

Lemma active_key prs pr k :
  pr ∈ prs → active pr k = true → k ∈ Js.keys (grouped prs).
Proof.
  intros Hin Hact. rewrite keys_perm.
  apply (proj2 (wf_grouped dateFrom dateTo prs)).
  rewrite lookup_grouped.
  assert (existsb (λ pr, active pr k) prs = true) as ->; [|by eexists].
  apply existsb_exists. exists pr. by rewrite <- list_elem_of_In.
Qed.

(** X7: the [created] counters of all rows add up to the number of
    pull requests created strictly inside the window. *)
Theorem created_total prs :
  total Row.created (getDetailedStats prs)
  = count (λ pr, inWindow (PullRequest.created_at pr)) prs.
Proof.
  rewrite total_sum. unfold getDetailedStats.
  rewrite sum_list_with_map.
  change (λ e, Row.created (toRow e))
    with (λ e : string * Counters.t, Counters.created e.2).
  rewrite (sum_entries Counters.created).
  rewrite (sum_list_with_ext_in _ (λ k, count (λ pr, opens pr k) prs))
    by (intros k _; apply counter_grouped).
  rewrite (sum_count_swap (λ k pr, opens pr k)), count_sum.
  apply sum_list_with_ext_in. intros pr Hpr. unfold opens.
  rewrite sum_indicator by apply keys_NoDup, wf_grouped.
  destruct (inWindow (PullRequest.created_at pr)) eqn:Hw; [|done].
  rewrite bool_decide_eq_true_2; [done|].
  apply (active_key prs pr); [done|]. apply opens_active.
  unfold opens. by rewrite Hw, bool_decide_eq_true_2.
Qed.

Lemma sum_b2n_size (ks : list string) (h : string → bool) (S : gset string) :
  NoDup ks → (∀ k, k ∈ S ↔ k ∈ ks ∧ h k = true) →
  sum_list_with (λ k, b2n (h k)) ks = size S.
Proof.
  intros Hnd HS.
  assert (S = list_to_set (filter (λ k, h k = true) ks)) as ->.
  { apply set_eq. intros k.
    by rewrite HS, elem_of_list_to_set, list_elem_of_filter, (comm and). }
  rewrite size_list_to_set by by apply NoDup_filter.
  clear. induction ks as [|k ks IH]; [done|].
  rewrite filter_cons. cbn. destruct (h k); cbn.
  - rewrite decide_True by done. cbn. by rewrite IH.
  - rewrite decide_False by done. done.
Qed.

(** The keys under which the reviews of one pull request are filed, in
    one state, are as many as their reviewers. *)
Lemma reviewed_keys_size prs pr s :
  pr ∈ prs →
  sum_list_with
    (λ k, b2n (reviewed (isState s) pr (PullRequest.reviews pr) k))
    (Js.keys (grouped prs))
  = size (reviewersIn dateFrom dateTo s pr).
Proof.
  intros Hpr. unfold reviewersIn.
  rewrite <- (size_list_to_set_fmap (reviewerKey pr) Review.reviewer).
  2:{ intros x y _ _. unfold reviewerKey. split; [|by intros ->].
      by intros ?%slash_inj_r%slash_inj_r. }
  apply sum_b2n_size; [apply keys_NoDup, wf_grouped|].
  intros k. rewrite elem_of_list_to_set, list_elem_of_fmap. split.
  - intros (r & -> & [Hq Hr]%list_elem_of_filter).
    apply andb_true_iff in Hq as [Hq Hs].
    assert (reviewed (isState s) pr (PullRequest.reviews pr)
              (reviewerKey pr r) = true) as Hrev
      by by apply (reviewed_intro _ _ _ _ _ _ r).
    split; [|done]. apply (active_key prs pr); [done|].
    by apply (reviewed_active _ _ (isState s)).
  - intros [_ (r & Hr & Hq & <- & Hs)%reviewed_witness].
    exists r. split; [done|]. apply list_elem_of_filter.
    by rewrite Hq, Hs.
Qed.

(** X8: the [commented] counters of all rows add up to the number of
    pairs of a pull request and a reviewer with a qualifying COMMENTED
    review on it; likewise [approved] with APPROVED. *)
Theorem reviewed_totals prs :
  total Row.commented (getDetailedStats prs)
  = sum_list_with (λ pr, size (reviewersIn dateFrom dateTo "COMMENTED" pr)) prs
  ∧ total Row.approved (getDetailedStats prs)
    = sum_list_with (λ pr, size (reviewersIn dateFrom dateTo "APPROVED" pr)) prs.
Proof.
  unfold getDetailedStats. split.
  - rewrite total_sum, sum_list_with_map.
    change (λ e, Row.commented (toRow e))
      with (λ e : string * Counters.t, Counters.commented e.2).
    rewrite (sum_entries Counters.commented).
    rewrite (sum_list_with_ext_in _
               (λ k, count (λ pr, reviewed (isState "COMMENTED") pr
                                    (PullRequest.reviews pr) k) prs))
      by (intros k _; apply counter_grouped).
    rewrite (sum_count_swap
               (λ k pr, reviewed (isState "COMMENTED") pr
                          (PullRequest.reviews pr) k)).
    apply sum_list_with_ext_in. intros pr Hpr. by apply reviewed_keys_size.
  - rewrite total_sum, sum_list_with_map.
    change (λ e, Row.approved (toRow e))
      with (λ e : string * Counters.t, Counters.approved e.2).
    rewrite (sum_entries Counters.approved).
    rewrite (sum_list_with_ext_in _
               (λ k, count (λ pr, reviewed (isState "APPROVED") pr
                                    (PullRequest.reviews pr) k) prs))
      by (intros k _; apply counter_grouped).
    rewrite (sum_count_swap
               (λ k pr, reviewed (isState "APPROVED") pr
                          (PullRequest.reviews pr) k)).
    apply sum_list_with_ext_in. intros pr Hpr. by apply reviewed_keys_size.
Qed.

End DetailedTotals.

(** ** More on the summary table *)

(** One row of an author that [Object.prototype] knows: no entry is
    made, and the row is passed over or the call throws. *)
Lemma summarise_inherited acc0 item :
  noInherited acc0 → Js.inherited (Row.author item) = true →
  summarise acc0 item = if throwing item then None else Some acc0.
Proof.
  intros Hno Hin. specialize (Hno _ Hin).
  assert (∀ f, Js.update acc0 (Row.author item) f = acc0) as Hup
    by (intros f; unfold Js.update; by rewrite Hno).
  assert (∀ f, invoke acc0 (Row.author item) f = None) as Hinv
    by (intros f; unfold invoke, Js.get; by rewrite Hno).
  unfold summarise, throwing, Js.has.
  rewrite Hin, orb_true_r. cbn [negb andb]. rewrite Hup.
  destruct (0 <? Row.created item)%nat; cbn [mbind option_bind orb].
  - by rewrite Hinv.
  - rewrite !Hup. destruct (_ || _); [apply Hinv|done].
Qed.

Lemma rowsOf_cons b item l :
  rowsOf b (item :: l)
  = if decide (Row.author item = b) then item :: rowsOf b l else rowsOf b l.
Proof. unfold rowsOf. by rewrite filter_cons. Qed.

(** The accumulator of [getSummary] after all rows, or the throw. *)
Lemma reduce_summarise_any stats acc0 :
  noInherited acc0 →
  (reduce summarise stats acc0 = None ↔
   ∃ row, row ∈ stats ∧ throwing row = true)
  ∧ ∀ acc1, reduce summarise stats acc0 = Some acc1 →
      noInherited acc1 ∧ (wf acc0 → wf acc1)
      ∧ ∀ b, Js.props acc1 !! b
             = entryAfter (Js.props acc0 !! b) (rowsOf b (ownRows stats)).
Proof.
  revert acc0. induction stats as [|item stats IH]; intros acc0 Hno.
  - split.
    + split; [done|]. by intros (row & ?%elem_of_nil & _).
    + intros acc1 [= <-]. by split_and!.
  - cbn [reduce]. unfold ownRows. rewrite filter_cons.
    destruct (Js.inherited (Row.author item)) eqn:Hin.
    + rewrite (summarise_inherited _ _ Hno Hin), decide_False by done.
      destruct (throwing item) eqn:Hthrow; cbn [mbind option_bind].
      * split; [|done]. split; [|done]. intros _. exists item.
        split; [apply list_elem_of_here|done].
      * destruct (IH acc0 Hno) as [IHn IHs]. split; [|done].
        rewrite IHn. split.
        -- intros (row & Hrow & Ht). exists row.
           split; [by apply list_elem_of_further|done].
        -- intros (row & [->|Hrow]%elem_of_cons & Ht); [congruence|].
           by exists row.
    + rewrite decide_True by done.
      destruct (summarise_own acc0 item Hin) as (acc1 & Hs & Hwf & H1).
      rewrite Hs. cbn [mbind option_bind].
      assert (noInherited acc1) as Hno1.
      { intros k Hk. rewrite H1. destruct (decide (Row.author item = k));
          [congruence|by apply Hno]. }
      destruct (IH acc1 Hno1) as [IHn IHs]. split.
      * rewrite IHn. split.
        -- intros (row & Hrow & Ht). exists row.
           split; [by apply list_elem_of_further|done].
        -- intros (row & [->|Hrow]%elem_of_cons & Ht); [|by exists row].
           unfold throwing in Ht. by rewrite Hin in Ht.
      * intros acc2 Hacc2. destruct (IHs acc2 Hacc2) as (Hno2 & Hwf2 & H2).
        split_and!; [done|by auto|]. intros b.
        rewrite H2, H1, rowsOf_cons.
        destruct (decide (Row.author item = b)); [|done].
        by rewrite entryAfter_Some.
Qed.

Lemma noInherited_empty {V : Type} : noInherited (@Js.empty V).
Proof. intros k _. apply lookup_empty. Qed.

(** X9: [getSummary] throws exactly when some row has an author named
    like a property of [Object.prototype] together with a positive
    counter. *)
Theorem getSummary_throws_iff stats :
  getSummary stats = None ↔
  ∃ row, row ∈ stats ∧ Js.inherited (Row.author row) = true
         ∧ (0 < Row.created row ∨ 0 < Row.commented row
            ∨ 0 < Row.approved row).
Proof.
  destruct (reduce_summarise_any stats Js.empty noInherited_empty)
    as [Hnone _].
  assert (getSummary stats = None ↔ reduce summarise stats Js.empty = None)
    as ->.
  { unfold getSummary, finalResult.
    by destruct (reduce summarise stats Js.empty). }
  rewrite Hnone. apply exist_proper. intros row. unfold throwing.
  rewrite andb_true_iff, !orb_true_iff, !Nat.ltb_lt. tauto.
Qed.

(** What [getSummary] returns, when it returns. *)
Lemma getSummary_Some stats out :
  getSummary stats = Some out →
  ∃ fr, out = toSummary <$> Js.entries fr ∧ wf fr
        ∧ (∀ b, Js.props fr !! b = entryAfter None (rowsOf b (ownRows stats)))
        ∧ ∀ row, row ∈ stats → throwing row = false.
Proof.
  unfold getSummary, finalResult. intros Hout.
  destruct (reduce_summarise_any stats Js.empty noInherited_empty)
    as [Hnone Hsome].
  destruct (reduce summarise stats Js.empty) as [fr|] eqn:Hfr; [|done].
  injection Hout as <-. destruct (Hsome fr eq_refl) as (_ & Hwf & Hlook).
  exists fr. split_and!; [done|by apply Hwf, wf_empty| |].
  - intros b. rewrite Hlook. cbn. by rewrite lookup_empty.
  - intros row Hrow. apply not_true_is_false. intros Ht.
    assert (Some fr = None) as Hn by (apply Hnone; by exists row).
    done.
Qed.

Lemma elem_of_getSummary stats out s :
  getSummary stats = Some out → s ∈ out →
  rowsOf (Summary.author s) (ownRows stats) ≠ []
  ∧ s = toSummary (Summary.author s,
                   fold_left addRow (rowsOf (Summary.author s) (ownRows stats))
                     Entry.init).
Proof.
  intros (fr & -> & Hwf & Hlook & _)%getSummary_Some.
  intros ([a e] & -> & Hae%elem_of_entries)%list_elem_of_fmap; [|done].
  rewrite Hlook in Hae. cbn [toSummary Summary.author fst].
  unfold entryAfter in Hae.
  destruct (rowsOf a (ownRows stats)) as [|r l]; [done|].
  by injection Hae as <-.
Qed.

Lemma size_list_to_set_le (l : list string) :
  size (list_to_set l : gset string) ≤ length l.
Proof.
  induction l as [|x l IH]; cbn; [by rewrite size_empty|].
  rewrite size_union_alt, size_singleton.
  assert ((list_to_set l ∖ {[x]} : gset string) ⊆ list_to_set l) as Hsub
    by set_solver.
  apply subseteq_size in Hsub. lia.
Qed.

Lemma length_authoring l : length (authoring l) ≤ total Row.created l.
Proof.
  unfold authoring, total. induction l as [|r l IH]; [done|].
  rewrite filter_cons. cbn [foldr].
  destruct (decide (0 < Row.created r)); cbn [length]; lia.
Qed.

Lemma length_reviewing l :
  length (reviewing l) ≤ total Row.commented l + total Row.approved l.
Proof.
  unfold reviewing, total. induction l as [|r l IH]; [done|].
  rewrite filter_cons. cbn [foldr].
  destruct (decide (0 < Row.commented r ∨ 0 < Row.approved r));
    cbn [length]; lia.
Qed.

Lemma authoring_pos l : 0 < total Row.created l → authoring l ≠ [].
Proof.
  unfold authoring, total. induction l as [|r l IH]; [cbn; lia|].
  rewrite filter_cons. cbn [foldr].
  destruct (decide (0 < Row.created r)); [done|].
  intros H. apply IH. lia.
Qed.

Lemma reviewing_pos l :
  0 < total Row.commented l + total Row.approved l → reviewing l ≠ [].
Proof.
  unfold reviewing, total. induction l as [|r l IH]; [cbn; lia|].
  rewrite filter_cons. cbn [foldr].
  destruct (decide (0 < Row.commented r ∨ 0 < Row.approved r)); [done|].
  intros H. apply IH. lia.
Qed.

Lemma size_list_to_set_pos {A : Type} (f : A → string) (l : list A) :
  l ≠ [] → 0 < size (list_to_set (f <$> l) : gset string).
Proof.
  destruct l as [|x l]; [done|]. intros _. cbn.
  rewrite size_union_alt, size_singleton. lia.
Qed.

(** X10: in every row of the summary, [repos] is at most
    [pull_requests] and positive as soon as [pull_requests] is, and
    [repos_reviewed] is at most [commented + approved] and positive as
    soon as that sum is. *)
Theorem summary_repos_bounds stats out s :
  getSummary stats = Some out → s ∈ out →
  Summary.repos s ≤ Summary.pull_requests s
  ∧ (0 < Summary.pull_requests s → 0 < Summary.repos s)
  ∧ Summary.repos_reviewed s ≤ Summary.commented s + Summary.approved s
  ∧ (0 < Summary.commented s + Summary.approved s →
     0 < Summary.repos_reviewed s).
Proof.
  intros Hout Hs. destruct (elem_of_getSummary _ _ _ Hout Hs) as [_ ->].
  set (mine := rowsOf (Summary.author s) (ownRows stats)).
  cbn [toSummary Summary.pull_requests Summary.commented Summary.approved
       Summary.repos Summary.repos_reviewed fst snd].
  destruct (fold_addRow_sums mine Entry.init) as (-> & -> & ->).
  destruct (fold_addRow_sets mine Entry.init) as (-> & ->).
  cbn [Entry.init Entry.pull_requests Entry.commented Entry.approved
       Entry.repos Entry.reposReviewed].
  rewrite !(left_id_L ∅ (∪)). split_and!.
  - etrans; [apply size_list_to_set_le|].
    rewrite length_fmap. apply length_authoring.
  - intros H. by apply size_list_to_set_pos, authoring_pos.
  - etrans; [apply size_list_to_set_le|].
    rewrite length_fmap. apply length_reviewing.
  - intros H. by apply size_list_to_set_pos, reviewing_pos.
Qed.

Lemma sum_list_with_swap {A K : Type} (g : K → A → nat) (ks : list K)
    (l : list A) :
  sum_list_with (λ k, sum_list_with (g k) l) ks
  = sum_list_with (λ x, sum_list_with (λ k, g k x) ks) l.
Proof.
  induction ks as [|k ks IH]; cbn.
  - induction l as [|x l IHl]; cbn; [done|]. by rewrite <- IHl.
  - by rewrite IH, sum_list_with_add.
Qed.

Lemma sum_pick (ks : list string) (k0 : string) (n : nat) :
  NoDup ks →
  sum_list_with (λ k, if decide (k0 = k) then n else 0) ks
  = if decide (k0 ∈ ks) then n else 0.
Proof.
  induction 1 as [|k ks Hk _ IH]; cbn.
  - by rewrite decide_False by apply not_elem_of_nil.
  - rewrite IH. destruct (decide (k0 = k)) as [->|Hne].
    + rewrite (decide_False (P := k ∈ ks)) by done.
      rewrite decide_True by apply list_elem_of_here. lia.
    + destruct (decide (k0 ∈ ks)) as [Hin|Hin].
      * by rewrite decide_True by by apply list_elem_of_further.
      * rewrite decide_False; [done|].
        by intros [?|?]%elem_of_cons.
Qed.

Lemma total_rowsOf (f : Row.t → nat) (a : string) (l : list Row.t) :
  total f (rowsOf a l)
  = sum_list_with (λ r, if decide (Row.author r = a) then f r else 0) l.
Proof.
  unfold total. induction l as [|r l IH]; [done|].
  rewrite rowsOf_cons. cbn [sum_list_with].
  destruct (decide (Row.author r = a)); cbn [foldr]; by rewrite IH.
Qed.

(** A counter summed over the entries of the accumulator is the counter
    summed over the rows that got an entry. *)
Lemma sum_entries_rows (fe : Entry.t → nat) (fr : Row.t → nat)
    (o : Js.obj Entry.t) (rows : list Row.t) :
  wf o →
  (∀ b, Js.props o !! b = entryAfter None (rowsOf b rows)) →
  (∀ l, fe (fold_left addRow l Entry.init) = total fr l) →
  sum_list_with (λ e, fe e.2) (Js.entries o) = total fr rows.
Proof.
  intros Hwf Hlook Hfe. rewrite sum_entries.
  rewrite (sum_list_with_ext_in _ (λ k, total fr (rowsOf k rows))).
  2:{ intros k _. unfold Js.get. rewrite Hlook. unfold entryAfter.
      destruct (rowsOf k rows) as [|r l] eqn:Hk; [done|].
      exact (Hfe (r :: l)). }
  rewrite (sum_list_with_ext_in _
             (λ k, sum_list_with
                     (λ r, if decide (Row.author r = k) then fr r else 0) rows))
    by (intros k _; apply total_rowsOf).
  rewrite (sum_list_with_swap
             (λ k r, if decide (Row.author r = k) then fr r else 0)).
  rewrite (total_sum fr rows). apply sum_list_with_ext_in. intros r Hr.
  rewrite sum_pick by by apply keys_NoDup.
  rewrite decide_True; [done|].
  rewrite keys_perm. apply (proj2 Hwf). rewrite Hlook. unfold entryAfter.
  destruct (rowsOf (Row.author r) rows) as [|r' l] eqn:Hrows; [|by eexists].
  apply rowsOf_nil in Hrows. destruct Hrows.
  apply list_elem_of_fmap. by exists r.
Qed.

(** The rows that get no entry and do not throw count nothing. *)
Lemma total_ownRows (f : Row.t → nat) (stats : list Row.t) :
  (∀ row, row ∈ stats → throwing row = false) →
  (∀ row, throwing row = false → Js.inherited (Row.author row) = true →
          f row = 0) →
  total f (ownRows stats) = total f stats.
Proof.
  intros Hno Hf. unfold ownRows, total.
  induction stats as [|r l IH]; [done|]. rewrite filter_cons. cbn [foldr].
  assert (∀ row, row ∈ l → throwing row = false) as Hl
    by (intros row Hrow; by apply Hno, list_elem_of_further).
  destruct (decide (Js.inherited (Row.author r) = false)) as [Hr|Hr].
  - cbn [foldr]. by rewrite IH.
  - rewrite IH by done. apply not_false_is_true in Hr.
    rewrite (Hf r); [done| |done]. apply Hno, list_elem_of_here.
Qed.

Lemma throwing_false row :
  throwing row = false → Js.inherited (Row.author row) = true →
  Row.created row = 0 ∧ Row.commented row = 0 ∧ Row.approved row = 0.
Proof.
  unfold throwing. intros H Hin. rewrite Hin in H. cbn [andb] in H.
  apply orb_false_iff in H as [[Hc Hm]%orb_false_iff Ha].
  apply Nat.ltb_ge in Hc, Hm, Ha. lia.
Qed.

(** X11: when [getSummary] returns, nothing is lost in the roll-up:
    [pull_requests], [commented] and [approved], summed over the rows of
    the summary, are [created], [commented] and [approved] summed over
    the detailed rows. *)
Theorem summary_totals stats out :
  getSummary stats = Some out →
  sum_list_with Summary.pull_requests out = total Row.created stats
  ∧ sum_list_with Summary.commented out = total Row.commented stats
  ∧ sum_list_with Summary.approved out = total Row.approved stats.
Proof.
  intros (fr & -> & Hwf & Hlook & Hno)%getSummary_Some.
  rewrite !sum_list_with_map.
  split_and!.
  - change (λ x, Summary.pull_requests (toSummary x))
      with (λ e : string * Entry.t, Entry.pull_requests e.2).
    rewrite (sum_entries_rows _ Row.created _ (ownRows stats)); [|done..|].
    + apply total_ownRows; [done|]. intros row H1 H2.
      by destruct (throwing_false row H1 H2) as (? & ? & ?).
    + intros l. by destruct (fold_addRow_sums l Entry.init) as (-> & _ & _).
  - change (λ x, Summary.commented (toSummary x))
      with (λ e : string * Entry.t, Entry.commented e.2).
    rewrite (sum_entries_rows _ Row.commented _ (ownRows stats)); [|done..|].
    + apply total_ownRows; [done|]. intros row H1 H2.
      by destruct (throwing_false row H1 H2) as (? & ? & ?).
    + intros l. by destruct (fold_addRow_sums l Entry.init) as (_ & -> & _).
  - change (λ x, Summary.approved (toSummary x))
      with (λ e : string * Entry.t, Entry.approved e.2).
    rewrite (sum_entries_rows _ Row.approved _ (ownRows stats)); [|done..|].
    + apply total_ownRows; [done|]. intros row H1 H2.
      by destruct (throwing_false row H1 H2) as (? & ? & ?).
    + intros l. by destruct (fold_addRow_sums l Entry.init) as (_ & _ & ->).
Qed.

Lemma addRow_fields e item :
  addRow e item
  = Entry.Make (Entry.pull_requests e + Row.created item)
      (if (0 <? Row.created item)%nat
       then {[slash (Row.owner item) (Row.repo item)]} ∪ Entry.repos e
       else Entry.repos e)
      (Entry.commented e + Row.commented item)
      (Entry.approved e + Row.approved item)
      (if (0 <? Row.commented item)%nat || (0 <? Row.approved item)%nat
       then {[slash (Row.owner item) (Row.repo item)]} ∪ Entry.reposReviewed e
       else Entry.reposReviewed e).
Proof.
  unfold addRow. by destruct (0 <? Row.created item)%nat, (_ || _).
Qed.

Lemma union_swap (x y : string) (X : gset string) :
  {[x]} ∪ ({[y]} ∪ X) = {[y]} ∪ ({[x]} ∪ X).
Proof. by rewrite !(assoc_L (∪)), (comm_L (∪) {[x]} {[y]}). Qed.

(** Two rows can be added to an entry in either order. *)
Lemma addRow_comm e a b : addRow (addRow e a) b = addRow (addRow e b) a.
Proof.
  rewrite !addRow_fields.
  cbn [Entry.pull_requests Entry.repos Entry.commented Entry.approved
       Entry.reposReviewed].
  f_equal; [lia| |lia|lia|].
  - destruct (0 <? Row.created a)%nat, (0 <? Row.created b)%nat;
      [apply union_swap|done..].
  - destruct (_ || _), (_ || _); [apply union_swap|done..].
Qed.

Lemma fold_addRow_perm l l' :
  l ≡ₚ l' → ∀ e, fold_left addRow l e = fold_left addRow l' e.
Proof.
  induction 1 as [|x l l' _ IH|x y l|l1 l2 l3 _ IH1 _ IH2]; intros e; cbn.
  - done.
  - apply IH.
  - by rewrite addRow_comm.
  - by rewrite IH1.
Qed.

Lemma entryAfter_perm e0 l l' : l ≡ₚ l' → entryAfter e0 l = entryAfter e0 l'.
Proof.
  intros Hp. unfold entryAfter. destruct l as [|x l], l' as [|x' l'].
  - done.
  - by apply Permutation_nil_cons in Hp.
  - symmetry in Hp. by apply Permutation_nil_cons in Hp.
  - by rewrite (fold_addRow_perm _ _ Hp).
Qed.

(** X12: the order of the detailed rows does not matter to the
    summary: on the same rows in another order [getSummary] throws or
    returns alike, and returns the same summary rows. *)
Theorem summary_input_order_irrelevant stats stats' :
  stats ≡ₚ stats' →
  match getSummary stats, getSummary stats' with
  | Some out, Some out' => out ≡ₚ out'
  | None, None => True
  | _, _ => False
  end.
Proof.
  intros Hp.
  assert (getSummary stats = None ↔ getSummary stats' = None) as Hnone.
  { unfold getSummary, finalResult.
    destruct (reduce_summarise_any stats Js.empty noInherited_empty)
      as [H1 _].
    destruct (reduce_summarise_any stats' Js.empty noInherited_empty)
      as [H2 _].
    destruct (reduce summarise stats Js.empty),
      (reduce summarise stats' Js.empty); cbn; try done.
    - exfalso. destruct (proj1 H2 eq_refl) as (row & Hrow & Ht).
      assert (Some o = None) as Hn by (apply H1; exists row; by rewrite Hp).
      done.
    - exfalso. destruct (proj1 H1 eq_refl) as (row & Hrow & Ht).
      assert (Some o = None) as Hn
        by (apply H2; exists row; by rewrite <- Hp).
      done. }
  destruct (getSummary stats) as [out|] eqn:Hout,
    (getSummary stats') as [out'|] eqn:Hout'; try done.
  - apply getSummary_Some in Hout as (fr & -> & Hwf & Hlook & _).
    apply getSummary_Some in Hout' as (fr' & -> & Hwf' & Hlook' & _).
    rewrite (entries_perm _ Hwf), (entries_perm _ Hwf').
    assert (Js.props fr = Js.props fr') as ->; [|done].
    apply map_eq. intros b. rewrite Hlook, Hlook'.
    apply entryAfter_perm. unfold rowsOf, ownRows. by rewrite Hp.
  - discriminate (proj2 Hnone eq_refl).
  - discriminate (proj1 Hnone eq_refl).
Qed.

(** ** Fetching *)

Section FetchingFacts.

Variables dateFrom dateTo : Js.timeval.
Variable api : platform.

Lemma fold_left_app_acc {A B : Type} (f : B → list A) (l : list B)
    (acc0 : list A) :
  fold_left (λ acc x, acc ++ f x) l acc0 = acc0 ++ (l ≫= f).
Proof.
  revert acc0. induction l as [|x l IH]; intros acc0; cbn.
  - by rewrite app_nil_r.
  - by rewrite IH, app_assoc.
Qed.

Lemma filter_concat {A : Type} (f : A → bool) (ls : list (list A)) :
  (ls ≫= List.filter f) = List.filter f (concat ls).
Proof.
  induction ls as [|l ls IH]; cbn; [done|].
  by rewrite List.filter_app, IH.
Qed.

Lemma getPullRequests_filter owner repo :
  getPullRequests dateFrom dateTo api owner repo
  = List.filter (filterPullRequestList dateFrom dateTo)
      (concat (pulls api owner repo)).
Proof.
  unfold getPullRequests.
  rewrite (fold_left_app_acc
             (List.filter (filterPullRequestList dateFrom dateTo))).
  apply filter_concat.
Qed.

(** X13: [getPullRequests] returns, in the order of the platform, the
    pull requests that pass [filterPullRequestList], whatever the way
    the platform cuts them into pages; each of them is open or created
    strictly inside the window. *)
Theorem getPullRequests_pages owner repo :
  getPullRequests dateFrom dateTo api owner repo
  = List.filter (filterPullRequestList dateFrom dateTo)
      (concat (pulls api owner repo))
  ∧ ∀ pr, pr ∈ getPullRequests dateFrom dateTo api owner repo →
      pr ∈ concat (pulls api owner repo)
      ∧ (Payload.state pr = "open"
         ∨ strictlyInside dateFrom dateTo (Payload.created_at pr)).
Proof.
  split; [apply getPullRequests_filter|].
  intros pr. rewrite getPullRequests_filter, list_elem_of_In, filter_In.
  intros [Hin Hkeep]. split; [by apply list_elem_of_In|].
  unfold filterPullRequestList in Hkeep.
  apply orb_true_iff in Hkeep as [Ho%bool_decide_eq_true_1|Hw]; [by left|].
  right. by apply inWindow_spec.
Qed.






End FetchingFacts.

(** ** The progress bar *)

(** *** Doubles of integers below [2^53] *)

Section FloatFacts.

Local Open Scope Z_scope.
Abbreviation normal := Display.normal.
Abbreviation renorm := Display.renorm.

Lemma digits2_pos_size (p : positive) : digits2_pos p = Pos.size p.
Proof. induction p; cbn; congruence. Qed.

Lemma Zdigits2_log2 (m : Z) : 0 < m → Zdigits2 m = Z.log2 m + 1.
Proof.
  destruct m as [|p|p]; [lia| |lia]. intros _. cbn [Zdigits2].
  rewrite digits2_pos_size. destruct p; cbn; lia.
Qed.

Lemma log2_53 (m : Z) : 2 ^ 52 ≤ m < 2 ^ 53 → Z.log2 m = 52.
Proof. intros H. apply Z.log2_unique; [lia|]. exact H. Qed.

Lemma iter_pos_iter {A : Type} (f : A → A) (n : positive) (x : A) :
  SpecFloat.iter_pos f n x = Pos.iter f x n.
Proof.
  revert x. induction n as [n IH|n IH|]; intros x; cbn.
  - rewrite !IH. by rewrite <- !Pos.iter_swap.
  - by rewrite !IH.
  - done.
Qed.

Lemma shr_1_double (m : Z) :
  0 < m → shr_1 (Build_shr_record (2 * m) false false)
          = Build_shr_record m false false.
Proof. destruct m; [lia|done|lia]. Qed.

Lemma iter_shr_1_exact (n : positive) (m : Z) :
  0 < m →
  SpecFloat.iter_pos shr_1 n (Build_shr_record (m * 2 ^ Zpos n) false false)
  = Build_shr_record m false false.
Proof.
  intros Hm. rewrite iter_pos_iter. revert m Hm.
  induction n as [|n IH] using Pos.peano_ind; intros m Hm.
  - cbn [Pos.iter]. replace (m * 2 ^ 1) with (2 * m) by lia.
    by apply shr_1_double.
  - rewrite Pos.iter_succ_r.
    replace (m * 2 ^ Z.pos (Pos.succ n)) with (2 * (m * 2 ^ Z.pos n)).
    + rewrite shr_1_double; [by apply IH|]. 
      apply Z.mul_pos_pos; [done|]. by apply Z.pow_pos_nonneg.
    + rewrite Pos2Z.inj_succ, Z.pow_succ_r by lia. lia.
Qed.

Lemma iter_xO (d p : positive) : Zpos (Pos.iter xO p d) = Zpos p * 2 ^ Zpos d.
Proof.
  induction d as [|d IH] using Pos.peano_ind.
  - cbn [Pos.iter]. lia.
  - rewrite Pos.iter_succ, Pos2Z.inj_succ, Z.pow_succ_r by lia.
    rewrite Pos2Z.inj_xO, IH. lia.
Qed.

Lemma loc_of_shr_record_of_loc (m : Z) (l : location) :
  loc_of_shr_record (shr_record_of_loc m l) = l
  ∧ shr_m (shr_record_of_loc m l) = m.
Proof. by destruct l as [|[]]. Qed.

Lemma round_nearest_even_bounds (m : Z) (l : location) :
  round_nearest_even m l = m ∨ round_nearest_even m l = m + 1.
Proof. destruct l as [|[]]; cbn; auto. destruct (Z.even m); auto. Qed.


Lemma shr_fexp_53 (m e : Z) (l : location) :
  2 ^ 52 ≤ m < 2 ^ 53 → -1074 ≤ e →
  shr_fexp 53 1024 m e l = (shr_record_of_loc m l, e).
Proof.
  intros Hm He. unfold shr_fexp. rewrite Zdigits2_log2, log2_53 by lia.
  replace (fexp 53 1024 (52 + 1 + e) - e) with 0; [done|].
  unfold fexp, emin. lia.
Qed.

Lemma shr_fexp_carry (e : Z) :
  -1074 ≤ e →
  shr_fexp 53 1024 (2 ^ 53) e loc_Exact
  = (Build_shr_record (2 ^ 52) false false, e + 1).
Proof.
  intros He. unfold shr_fexp.
  change (Zdigits2 (2 ^ 53)) with 54.
  replace (fexp 53 1024 (54 + e) - e) with 1 by (unfold fexp, emin; lia).
  reflexivity.
Qed.

(** The last step of [binary_round_aux] on a mantissa of 53 bits, or
    on [2^53]. *)
Lemma round_finish (s : bool) (m e : Z) :
  2 ^ 52 ≤ m ≤ 2 ^ 53 → -1074 ≤ e ≤ 969 →
  (let '(mrs, e') := shr_fexp 53 1024 m e loc_Exact in
   match shr_m mrs with
   | Z0 => S754_zero s
   | Zpos p => if e' <=? 1024 - 53 then S754_finite s p e' else S754_infinity s
   | Zneg _ => S754_nan
   end)
  = S754_finite s (Z.to_pos (renorm m e).1) (renorm m e).2.
Proof.
  intros Hm He. unfold renorm. destruct (Z.ltb_spec m (2 ^ 53)) as [Hlt|Hge].
  - rewrite shr_fexp_53 by lia. cbn [shr_record_of_loc shr_m fst snd].
    destruct m as [|p|p]; [lia| |lia].
    rewrite (proj2 (Z.leb_le _ _)) by lia. done.
  - assert (m = 2 ^ 53) as -> by lia. rewrite shr_fexp_carry by lia.
    cbn [shr_m fst snd].
    change (2 ^ 52) with (Zpos (Z.to_pos (2 ^ 52))) at 1.
    cbv iota beta. rewrite (proj2 (Z.leb_le _ _)) by lia. done.
Qed.

Lemma binary_round_aux_53 (s : bool) (m e : Z) (l : location) :
  2 ^ 52 ≤ m < 2 ^ 53 → -1074 ≤ e ≤ 969 →
  binary_round_aux 53 1024 s m e l
  = S754_finite s (Z.to_pos (renorm (round_nearest_even m l) e).1)
      (renorm (round_nearest_even m l) e).2.
Proof.
  intros Hm He. unfold binary_round_aux. rewrite shr_fexp_53 by lia.
  destruct (loc_of_shr_record_of_loc m l) as [-> ->].
  apply round_finish; [|done].
  destruct (round_nearest_even_bounds m l) as [-> | ->]; lia.
Qed.

Lemma binary_round_aux_exact (s : bool) (m e : Z) (n : positive) :
  2 ^ 52 ≤ m < 2 ^ 53 → -1074 ≤ e + Zpos n ≤ 969 →
  binary_round_aux 53 1024 s (m * 2 ^ Zpos n) e loc_Exact
  = S754_finite s (Z.to_pos m) (e + Zpos n).
Proof.
  intros Hm He. unfold binary_round_aux.
  assert (shr_fexp 53 1024 (m * 2 ^ Z.pos n) e loc_Exact
          = (Build_shr_record m false false, e + Zpos n)) as ->.
  { unfold shr_fexp. rewrite Zdigits2_log2.
    2:{ apply Z.mul_pos_pos; [lia|]. by apply Z.pow_pos_nonneg. }
    rewrite Z.log2_mul_pow2, log2_53 by lia.
    replace (fexp 53 1024 (Z.pos n + 52 + 1 + e) - e) with (Zpos n)
      by (unfold fexp, emin; lia).
    cbn [shr shr_record_of_loc]. by rewrite iter_shr_1_exact by lia. }
  cbn [shr_m loc_of_shr_record round_nearest_even].
  rewrite round_finish by lia. unfold renorm.
  by rewrite (proj2 (Z.ltb_lt _ _)) by lia.
Qed.


Lemma normal_mantissa (z : Z) :
  0 < z < 2 ^ 53 →
  0 ≤ Z.log2 z ≤ 52
  ∧ 2 ^ 52 ≤ z * 2 ^ (52 - Z.log2 z) < 2 ^ 53.
Proof.
  intros Hz. pose proof (Z.log2_nonneg z) as H0.
  destruct (Z.log2_spec z) as [Hlo Hhi]; [lia|].
  assert (Z.log2 z ≤ 52) as Hle.
  { apply Z.lt_succ_r, (Z.pow_lt_mono_r_iff 2); lia. }
  split; [lia|].
  replace (2 ^ 52) with (2 ^ Z.log2 z * 2 ^ (52 - Z.log2 z))
    by (rewrite <- Z.pow_add_r by lia; f_equal; lia).
  replace (2 ^ 53) with (2 ^ Z.succ (Z.log2 z) * 2 ^ (52 - Z.log2 z))
    by (rewrite <- Z.pow_add_r by lia; f_equal; lia).
  assert (0 < 2 ^ (52 - Z.log2 z)) by (apply Z.pow_pos_nonneg; lia).
  split; [apply Z.mul_le_mono_nonneg_r; lia|apply Z.mul_lt_mono_pos_r; lia].
Qed.

Lemma binary_round_normal (s : bool) (p : positive) :
  Zpos p < 2 ^ 53 → binary_round 53 1024 s p 0 = normal s (Zpos p).
Proof.
  intros Hp. destruct (normal_mantissa (Zpos p)) as [HL Hm]; [lia|].
  unfold binary_round, normal.
  change (Z.pos (digits2_pos p)) with (Zdigits2 (Zpos p)).
  rewrite Zdigits2_log2 by lia.
  replace (fexp 53 1024 (Z.log2 (Z.pos p) + 1 + 0)) with (Z.log2 (Zpos p) - 52)
    by (unfold fexp, emin; lia).
  unfold shl_align.
  destruct (Z.log2 (Z.pos p) - 52 - 0) as [|d|d] eqn:Hd; [|lia|].
  - replace (52 - Z.log2 (Zpos p)) with 0 in * by lia.
    rewrite Z.mul_1_r in *. rewrite binary_round_aux_53 by lia.
    cbn [round_nearest_even]. unfold renorm.
    rewrite (proj2 (Z.ltb_lt _ _)) by lia. cbn [fst snd].
    f_equal. lia.
  - replace (52 - Z.log2 (Zpos p)) with (Zpos d) in * by lia.
    rewrite iter_xO. rewrite binary_round_aux_53 by lia.
    cbn [round_nearest_even]. unfold renorm.
    by rewrite (proj2 (Z.ltb_lt _ _)) by lia.
Qed.

Lemma ofZ_normal (z : Z) :
  0 < z < 2 ^ 53 → Display.ofZ z = normal false z.
Proof.
  intros Hz. destruct z as [|p|p]; [lia| |lia].
  change (binary_round 53 1024 false p 0 = normal false (Zpos p)).
  apply binary_round_normal. lia.
Qed.

Lemma ofZ_opp_normal (z : Z) :
  0 < z < 2 ^ 53 → Display.ofZ (- z) = normal true z.
Proof.
  intros Hz. destruct z as [|p|p]; [lia| |lia].
  change (binary_round 53 1024 true p 0 = normal true (Zpos p)).
  apply binary_round_normal. lia.
Qed.

(** The product of two integers is exact as long as it is below
    [2^53]. *)
Lemma SFmul_normal (s1 s2 : bool) (a b : Z) :
  0 < a → 0 < b → a * b < 2 ^ 53 →
  SFmul 53 1024 (normal s1 a) (normal s2 b) = normal (xorb s1 s2) (a * b).
Proof.
  intros Ha Hb Hab.
  assert (a < 2 ^ 53 ∧ b < 2 ^ 53) as [Ha' Hb'] by nia.
  destruct (normal_mantissa a) as [HLa Hma]; [lia|].
  destruct (normal_mantissa b) as [HLb Hmb]; [lia|].
  destruct (normal_mantissa (a * b)) as [HLc Hmc]; [lia|].
  unfold normal, SFmul.
  set (La := Z.log2 a) in *. set (Lb := Z.log2 b) in *.
  set (Lc := Z.log2 (a * b)) in *.
  assert (La + Lb ≤ Lc ≤ La + Lb + 1) as HLc'.
  { pose proof (Z.log2_mul_below a b Ha Hb).
    pose proof (Z.log2_mul_above a b). lia. }
  rewrite Pos2Z.inj_mul, !Z2Pos.id by lia.
  set (n := Lc - La - Lb + 52).
  assert (0 < n) as Hn by lia.
  replace (a * 2 ^ (52 - La) * (b * 2 ^ (52 - Lb)))
    with (a * b * 2 ^ (52 - Lc) * 2 ^ n).
  2:{ rewrite <- !Z.mul_assoc, <- Z.pow_add_r by lia.
      replace (52 - Lc + n) with ((52 - La) + (52 - Lb)) by lia.
      rewrite Z.pow_add_r by lia. lia. }
  destruct n as [|d|d] eqn:Hn'; [lia| |lia].
  rewrite binary_round_aux_exact by lia. f_equal. lia.
Qed.

Lemma shr_fexp_54 (m e : Z) (l : location) :
  2 ^ 53 ≤ m < 2 ^ 54 → -1074 ≤ e →
  shr_fexp 53 1024 m e l = (shr_1 (shr_record_of_loc m l), e + 1).
Proof.
  intros Hm He. unfold shr_fexp. rewrite Zdigits2_log2 by lia.
  rewrite (Z.log2_unique m 53) by lia.
  replace (fexp 53 1024 (53 + 1 + e) - e) with 1 by (unfold fexp, emin; lia).
  reflexivity.
Qed.

(** One bit is shifted out: the mantissa is halved, and rounded up
    only when the bit shifted out is set. *)
Lemma shr_1_round (m : Z) (l : location) :
  0 < m →
  let mrs := shr_1 (shr_record_of_loc m l) in
  let r := round_nearest_even (shr_m mrs) (loc_of_shr_record mrs) in
  r = m / 2 ∨ (r = m / 2 + 1 ∧ Z.odd m = true).
Proof.
  intros Hm. rewrite <- Z.div2_div.
  destruct m as [|[p|p|]|]; [lia| | | |lia];
    destruct l as [|[]]; cbn;
    try (by left); try (by right);
    destruct p; cbn; first [by left | right; by split].
Qed.

Lemma binary_round_aux_54 (s : bool) (m e : Z) (l : location) :
  2 ^ 53 ≤ m < 2 ^ 54 → -1074 ≤ e ≤ 968 →
  ∃ r, (r = m / 2 ∨ (r = m / 2 + 1 ∧ Z.odd m = true))
       ∧ binary_round_aux 53 1024 s m e l
         = S754_finite s (Z.to_pos (renorm r (e + 1)).1) (renorm r (e + 1)).2.
Proof.
  intros Hm He. unfold binary_round_aux. rewrite shr_fexp_54 by lia.
  pose proof (shr_1_round m l) as Hr. cbv zeta in Hr.
  set (r := round_nearest_even _ _) in *.
  exists r. split; [apply Hr; lia|].
  apply round_finish; [|lia].
  assert (2 ^ 52 ≤ m / 2 < 2 ^ 53).
  { split; [apply Z.div_le_lower_bound; lia|].
    apply Z.div_lt_upper_bound; lia. }
  destruct Hr as [->|[-> _]]; lia.
Qed.

(** The quotient with 53 more bits, cut or rounded up by one, has the
    integer part of the exact quotient. *)
Lemma quotient_no_carry (x t W D K : Z) :
  0 ≤ x → 0 < t → 0 < D → 0 < K → D * K = t * W → D < W →
  (x * W / D) / K = x / t ∧ (x * W / D + 1) / K = x / t.
Proof.
  intros Hx Ht HD HK HDK HW.
  set (Q := x * W / D). set (c := x / t).
  assert (t * c ≤ x < t * c + t) as Hc.
  { pose proof (Z.mul_div_le x t Ht).
    pose proof (Z.mul_succ_div_gt x t Ht). unfold c. lia. }
  assert (D * Q ≤ x * W < D * Q + D) as HQ.
  { pose proof (Z.mul_div_le (x * W) D HD).
    pose proof (Z.mul_succ_div_gt (x * W) D HD). unfold Q. lia. }
  assert (0 < W) by lia.
  assert (c * K ≤ Q) as Hlo.
  { assert (c * K * D < (Q + 1) * D); [|nia].
    replace (c * K * D) with (t * c * W)
      by (transitivity (c * (D * K)); [rewrite HDK|]; lia).
    assert (t * c * W ≤ x * W) by (apply Z.mul_le_mono_nonneg_r; lia).
    lia. }
  assert (Q + 1 < (c + 1) * K) as Hhi.
  { assert ((Q + 1) * D < (c + 1) * K * D); [|nia].
    replace ((c + 1) * K * D) with ((t * c + t) * W)
      by (transitivity ((c + 1) * (D * K)); [rewrite HDK|]; lia).
    assert (x * W ≤ (t * c + t - 1) * W)
      by (apply Z.mul_le_mono_nonneg_r; lia).
    lia. }
  split; symmetry.
  - apply (Z.div_unique_pos Q K c (Q - c * K)); lia.
  - apply (Z.div_unique_pos (Q + 1) K c (Q + 1 - c * K)); lia.
Qed.

Lemma renorm_shiftl (m e : Z) :
  2 ^ 52 ≤ m ≤ 2 ^ 53 →
  0 < (renorm m e).1
  ∧ Z.shiftl (renorm m e).1 (renorm m e).2 = Z.shiftl m e.
Proof.
  intros Hm. unfold renorm. destruct (Z.ltb_spec m (2 ^ 53)) as [Hlt|Hge].
  - cbn [fst snd]. split; [lia|done].
  - assert (m = 2 ^ 53) as -> by lia. cbn [fst snd]. split; [lia|].
    change (2 ^ 53) with (Z.shiftl (2 ^ 52) 1).
    rewrite Z.shiftl_shiftl by lia. f_equal. lia.
Qed.

Lemma SFdiv_core_normal (m1 m2 a b : Z) :
  2 ^ 52 ≤ m1 < 2 ^ 53 → 2 ^ 52 ≤ m2 < 2 ^ 53 → 0 ≤ a ≤ 52 → 0 ≤ b ≤ 52 →
  SFdiv_core_binary 53 1024 m1 (- a) m2 (- b)
  = (m1 * 2 ^ 53 / m2, - (53 + a - b),
     new_location m2 ((m1 * 2 ^ 53) `mod` m2)).
Proof.
  intros H1 H2 Ha Hb. unfold SFdiv_core_binary.
  rewrite !Zdigits2_log2, !log2_53 by lia. cbv zeta.
  set (e' := Z.min _ _).
  assert (e' = - (53 + a - b)) as -> by (unfold e', fexp, emin; lia).
  replace (- a - - b - - (53 + a - b)) with 53 by lia. cbv iota beta.
  rewrite Z.shiftl_mul_pow2 by lia.
  unfold Z.div, Z.modulo. by destruct (Z.div_eucl _ _).
Qed.

(** The quotient of two integers below [2^53], as a double: its
    integer part is the quotient of the integers. *)
Lemma SFdiv_normal (s : bool) (x t : Z) :
  0 < x < 2 ^ 53 → 0 < t < 2 ^ 53 →
  ∃ m e,
    SFdiv 53 1024 (normal s x) (normal false t) = S754_finite s m e
    ∧ Z.shiftl (Zpos m) e = x / t.
Proof.
  intros Hx Ht.
  destruct (normal_mantissa x Hx) as [HLx Hmx].
  destruct (normal_mantissa t Ht) as [HLt Hmt].
  unfold normal, SFdiv.
  set (a := 52 - Z.log2 x) in *. set (b := 52 - Z.log2 t) in *.
  replace (Z.log2 x - 52) with (- a) by lia.
  replace (Z.log2 t - 52) with (- b) by lia.
  set (M1 := x * 2 ^ a) in *. set (M2 := t * 2 ^ b) in *.
  rewrite !Z2Pos.id by lia.
  rewrite SFdiv_core_normal by lia. rewrite xorb_false_r.
  set (Q := M1 * 2 ^ 53 / M2). set (l := new_location _ _).
  set (k := 53 + a - b).
  assert (2 ^ 52 ≤ Q < 2 ^ 54) as HQ.
  { split; [apply Z.div_le_lower_bound; lia|].
    apply Z.div_lt_upper_bound; lia. }
  destruct (quotient_no_carry x t (2 ^ (a + 53)) M2 (2 ^ k))
    as [Hcut Hup]; [lia|lia|lia|apply Z.pow_pos_nonneg; lia| | |].
  { unfold M2, k. rewrite <- Z.mul_assoc, <- Z.pow_add_r by lia.
    do 2 f_equal. lia. }
  { apply Z.lt_le_trans with (2 ^ 53); [lia|].
    apply Z.pow_le_mono_r; lia. }
  replace (x * 2 ^ (a + 53)) with (M1 * 2 ^ 53) in Hcut, Hup
    by (unfold M1; rewrite Z.pow_add_r by lia; lia).
  fold Q in Hcut, Hup.
  destruct (Z.lt_ge_cases Q (2 ^ 53)) as [Hlt|Hge].
  - rewrite binary_round_aux_53 by lia.
    set (r := round_nearest_even Q l).
    assert (r = Q ∨ r = Q + 1) as Hr by apply round_nearest_even_bounds.
    destruct (renorm_shiftl r (- k)) as [Hpos Hsh]; [lia|].
    eexists _, _. split; [done|].
    rewrite Z2Pos.id, Hsh, Z.shiftl_div_pow2 by lia.
    replace (- - k) with k by lia. by destruct Hr as [-> | ->].
  - destruct (binary_round_aux_54 s Q (- k) l) as (r & Hr & ->); [lia..|].
    assert (2 ^ 52 ≤ Q / 2 < 2 ^ 53).
    { split; [apply Z.div_le_lower_bound; lia|].
      apply Z.div_lt_upper_bound; lia. }
    destruct (renorm_shiftl r (- k + 1)) as [Hpos Hsh];
      [destruct Hr as [->|[-> _]]; lia|].
    eexists _, _. split; [done|].
    rewrite Z2Pos.id, Hsh, Z.shiftl_div_pow2 by lia.
    replace (- (- k + 1)) with (k - 1) by lia.
    assert (2 * 2 ^ (k - 1) = 2 ^ k) as Hk.
    { rewrite <- Z.pow_succ_r by lia. f_equal. lia. }
    assert (0 < 2 ^ (k - 1)) by (apply Z.pow_pos_nonneg; lia).
    destruct Hr as [->|[-> Hodd]].
    + rewrite Z.div_div, Hk by lia. done.
    + apply Z.odd_spec in Hodd as [h Hh].
      replace (Q / 2 + 1) with ((Q + 1) / 2).
      * rewrite Z.div_div, Hk by lia. done.
      * rewrite Hh. replace (2 * h + 1 + 1) with ((h + 1) * 2) by lia.
        rewrite Z.div_mul by lia.
        replace (2 * h + 1) with (1 + h * 2) by lia.
        rewrite Z.div_add by lia. done.
Qed.
End FloatFacts.

(** *** The number of filled cells *)

Lemma safe_bound (n : Display.safeInteger) :
  (- 2 ^ 53 < Display.value n < 2 ^ 53)%Z.
Proof.
  destruct n as [z Hz]. cbn. unfold Display.safe in Hz.
  apply Z.ltb_lt in Hz. lia.
Qed.

Lemma shiftl_negative (z e : Z) : (z < 0 → Z.shiftl z e < 0)%Z.
Proof.
  intros Hz. destruct (Z.le_gt_cases 0 e) as [He|He].
  - rewrite Z.shiftl_mul_pow2 by done.
    apply Z.mul_neg_pos; [done|]. by apply Z.pow_pos_nonneg.
  - rewrite Z.shiftl_div_pow2 by lia.
    apply Z.div_lt_upper_bound; [apply Z.pow_pos_nonneg; lia|lia].
Qed.

(** As long as [60 * progress] is below [2^53], the rounding of the
    quotient never reaches the next integer: the number of filled cells
    is the quotient of the integers, rounded down. *)
Lemma fill_exact (progress total : Display.safeInteger) :
  (0 ≤ Display.value progress)%Z → (0 < Display.value total)%Z →
  (60 * Display.value progress < 2 ^ 53)%Z →
  Display.fillOf progress total
  = Display.Int (Display.value progress * 60 / Display.value total).
Proof.
  pose proof (safe_bound total) as Ht.
  destruct progress as [p Hp], total as [t Ht']. cbn [Display.value] in *.
  intros Hp0 Ht0 H60.
  unfold Display.fillOf, Display.prec, Display.emax, Display.barLength.
  cbn [Display.value].
  rewrite (ofZ_normal t), (ofZ_normal 60) by lia.
  destruct (decide (p = 0%Z)) as [->|Hne].
  - reflexivity.
  - rewrite (ofZ_normal p), SFmul_normal by lia. cbn [xorb].
    destruct (SFdiv_normal false (p * 60) t) as (m & e & -> & Hsh); [lia..|].
    cbn [Display.floor]. by rewrite Hsh.
Qed.

Lemma fill_negative (progress total : Display.safeInteger) :
  (Display.value progress < 0)%Z → (0 < Display.value total)%Z →
  (- 2 ^ 53 < 60 * Display.value progress)%Z →
  ∃ z, Display.fillOf progress total = Display.Int z ∧ (z < 0)%Z.
Proof.
  pose proof (safe_bound total) as Ht.
  destruct progress as [p Hp], total as [t Ht']. cbn [Display.value] in *.
  intros Hp0 Ht0 H60.
  unfold Display.fillOf, Display.prec, Display.emax, Display.barLength.
  cbn [Display.value].
  rewrite (ofZ_normal t), (ofZ_normal 60) by lia.
  replace p with (- - p)%Z by lia.
  rewrite (ofZ_opp_normal (- p)), SFmul_normal by lia. cbn [xorb].
  destruct (SFdiv_normal true (- p * 60) t) as (m & e & -> & _); [lia..|].
  cbn [Display.floor]. eexists. split; [done|].
  by apply shiftl_negative.
Qed.

Lemma fill_zero_total (progress total : Display.safeInteger) :
  Display.value total = 0%Z →
  (- 2 ^ 53 < 60 * Display.value progress < 2 ^ 53)%Z →
  Display.fillOf progress total
  = if (Display.value progress =? 0)%Z then Display.NaN
    else if (0 <? Display.value progress)%Z then Display.PosInf
    else Display.NegInf.
Proof.
  destruct progress as [p Hp], total as [t Ht']. cbn [Display.value] in *.
  intros -> H60.
  unfold Display.fillOf, Display.prec, Display.emax, Display.barLength.
  cbn [Display.value]. rewrite (ofZ_normal 60) by lia.
  destruct (Z.eqb_spec p 0) as [->|Hne]; [reflexivity|].
  destruct (Z.ltb_spec 0 p) as [Hpos|Hneg].
  - rewrite (ofZ_normal p), SFmul_normal by lia. reflexivity.
  - replace p with (- - p)%Z by lia.
    rewrite (ofZ_opp_normal (- p)), SFmul_normal by lia. reflexivity.
Qed.

(** Beyond that bound the double quotient can reach the next integer:
    seven cells where the quotient of the integers gives six, and a
    bar of 59 cells for [progress = total]. *)
Example fill_rounded :
  Display.fillOf Sample.wide Sample.wider = Display.Int 7
  ∧ (Display.value Sample.wide * 60 / Display.value Sample.wider = 6)%Z.
Proof. split; by vm_compute. Qed.

Example fill_short :
  Display.fillOf Sample.large Sample.large = Display.Int 59.
Proof. by vm_compute. Qed.

Lemma displayProgress_Int progress total label :
  (0 ≤ Display.value progress)%Z → (0 < Display.value total)%Z →
  (60 * Display.value progress < 2 ^ 53)%Z →
  (0 ≤ Display.value progress * 60 / Display.value total ≤ 60)%Z →
  Display.displayProgress progress total label
  = Some [ Display.clearLine;
           Display.cr
             +:+ Display.bar
                   (Z.to_nat
                      (Display.value progress * 60 / Display.value total))
             +:+ " " +:+ pretty (Display.value progress) +:+ "/"
             +:+ pretty (Display.value total) +:+ " " +:+ label ].
Proof.
  intros Hp Ht H60 Hfill. unfold Display.displayProgress.
  rewrite fill_exact by done. unfold Display.barLength.
  cbn [Display.repeat Display.minus].
  rewrite (proj2 (Z.ltb_ge _ _)) by lia. cbn [mbind option_bind].
  rewrite (proj2 (Z.ltb_ge _ _)) by lia. cbn [mbind option_bind].
  unfold Display.bar. do 4 f_equal. by rewrite Z2Nat.inj_sub by lia.
Qed.

(** X16: for safe integers with [0 <= progress <= total], [0 < total]
    and [60 * progress < 2^53], [displayProgress] does not throw; it
    clears the line and writes a bar of 60 cells of which
    [floor (60 * progress / total)] are filled, and the bar is full
    exactly when [progress = total]. *)
Theorem displayProgress_in_range progress total label :
  (0 < Display.value total)%Z →
  (0 ≤ Display.value progress ≤ Display.value total)%Z →
  (60 * Display.value progress < 2 ^ 53)%Z →
  let fill :=
    Z.to_nat (Display.value progress * 60 / Display.value total) in
  fill ≤ 60
  ∧ (fill = 60 ↔ Display.value progress = Display.value total)
  ∧ Display.displayProgress progress total label
    = Some [ Display.clearLine;
             Display.cr +:+ Display.bar fill +:+ " "
               +:+ pretty (Display.value progress) +:+ "/"
               +:+ pretty (Display.value total) +:+ " " +:+ label ].
Proof.
  intros Ht Hp H60 fill.
  set (p := Display.value progress) in *.
  set (t := Display.value total) in *.
  assert (0 ≤ p * 60 / t ≤ 60)%Z as Hfill.
  { split; [apply Z.div_pos; lia|].
    apply Z.div_le_upper_bound; lia. }
  split_and!.
  - unfold fill. lia.
  - unfold fill. split.
    + intros H60'. assert (60 ≤ p * 60 / t)%Z as Hge by lia.
      assert (t * 60 ≤ p * 60)%Z; [|lia].
      etrans; [|apply (Z.mul_div_le _ t); lia].
      apply Z.mul_le_mono_nonneg_l; lia.
    + intros ->. by rewrite (Z.mul_comm t 60), Z.div_mul by lia.
  - apply displayProgress_Int; [lia|done|done|done].
Qed.

(** X17: for safe integers with [60 * progress] between [-2^53] and
    [2^53], [displayProgress] throws a [RangeError] exactly when the
    number of filled cells falls outside the bar: for a positive
    [total], when [progress] is negative or [60 * progress] reaches
    [61 * total]; for [total = 0], when [progress] is not zero. *)
Theorem displayProgress_throws_iff progress total label :
  (- 2 ^ 53 < 60 * Display.value progress < 2 ^ 53)%Z →
  ((0 < Display.value total)%Z →
   Display.displayProgress progress total label = None ↔
   (Display.value progress < 0
    ∨ 61 * Display.value total ≤ 60 * Display.value progress)%Z)
  ∧ (Display.value total = 0%Z →
     Display.displayProgress progress total label = None ↔
     Display.value progress ≠ 0%Z).
Proof.
  intros H60. split.
  - intros Ht.
    destruct (decide (Display.value progress < 0)%Z) as [Hneg|Hpos].
    + split; [by left|]. intros _. unfold Display.displayProgress.
      destruct (fill_negative progress total) as (z & -> & Hz);
        [done|done|lia|].
      cbn [Display.repeat]. by rewrite (proj2 (Z.ltb_lt _ _)) by done.
    + set (p := Display.value progress) in *.
      set (t := Display.value total) in *.
      assert (0 ≤ p * 60 / t)%Z by (apply Z.div_pos; lia).
      split.
      * intros Hnone. right.
        destruct (decide (p * 60 / t ≤ 60)%Z) as [Hfill|Hfill].
        { rewrite displayProgress_Int in Hnone by (done || lia). done. }
        assert (61 ≤ p * 60 / t)%Z as H61 by lia.
        pose proof (Z.mul_div_le (p * 60) t Ht). nia.
      * intros [?|Hbig]; [lia|]. unfold Display.displayProgress.
        rewrite fill_exact by (done || lia). fold p t.
        unfold Display.barLength. cbn [Display.repeat Display.minus].
        assert (61 ≤ p * 60 / t)%Z by (apply Z.div_le_lower_bound; lia).
        rewrite (proj2 (Z.ltb_ge (p * 60 / t) 0)) by lia.
        cbn [mbind option_bind].
        by rewrite (proj2 (Z.ltb_lt (60 - p * 60 / t) 0)) by lia.
  - intros Ht. unfold Display.displayProgress.
    rewrite fill_zero_total by done.
    destruct (Z.eqb_spec (Display.value progress) 0) as [H0|H0].
    + split; [done|]. lia.
    + split; [done|]. intros _.
      by destruct (0 <? Display.value progress)%Z.
Qed.

(** X18: for a safe integer [total] with [0 < total] and
    [60 * total < 2^53], [displayDone total] writes what
    [displayProgress total total "Done"] writes, and then a line
    feed. *)
Theorem displayDone_is_full_progress total :
  (0 < Display.value total)%Z → (60 * Display.value total < 2 ^ 53)%Z →
  ∃ writes,
    Display.displayProgress total total "Done" = Some writes
    ∧ Display.displayDone total = Some (writes ++ [Display.nl]).
Proof.
  intros Ht H60. eexists. split.
  - apply displayProgress_Int; [lia|done|done|].
    rewrite (Z.mul_comm (Display.value total) 60), Z.div_mul by lia. lia.
  - rewrite (Z.mul_comm (Display.value total) 60), Z.div_mul by lia.
    reflexivity.
Qed.

(** ** From the pull requests to the summary *)

Section EndToEndFacts.

Variables dateFrom dateTo : Js.timeval.

Abbreviation inWindow := (inWindow dateFrom dateTo).
Abbreviation qualifying := (qualifying dateFrom dateTo).
Abbreviation grouped := (grouped dateFrom dateTo).
Abbreviation getDetailedStats := (getDetailedStats dateFrom dateTo).
Abbreviation authoredBy := (authoredBy dateFrom dateTo).
Abbreviation reviewedAs := (reviewedAs dateFrom dateTo).

(** The rows of pull requests with clean names, told by triple. *)
Lemma detailed_rows prs :
  Forall slashFree prs →
  NoDup (triple <$> getDetailedStats prs)
  ∧ (∀ row, row ∈ getDetailedStats prs →
       clean (triple row)
       ∧ existsb (touchedBy dateFrom dateTo (triple row)) prs = true
       ∧ Row.created row = count (createdBy dateFrom dateTo (triple row)) prs
       ∧ Row.commented row
         = count (reviewedBy dateFrom dateTo (isState "COMMENTED")
                    (triple row)) prs
       ∧ Row.approved row
         = count (reviewedBy dateFrom dateTo (isState "APPROVED")
                    (triple row)) prs)
  ∧ (∀ t, existsb (touchedBy dateFrom dateTo t) prs = true →
       t ∈ triple <$> getDetailedStats prs).
Proof.
  intros Hprs.
  assert (∀ k c, Js.props (grouped prs) !! k = Some c →
            ∃ t, clean t ∧ k = keyOf t ∧ triple (toRow (k, c)) = t) as Hkey.
  { intros k c Hk.
    destruct (grouped_key_clean _ _ prs k c Hprs Hk) as (t & Ht & ->).
    exists t. by rewrite toRow_keyOf. }
  split_and!.
  - unfold getDetailedStats. rewrite <- list_fmap_compose.
    apply NoDup_fmap_2_strong.
    2:{ apply (NoDup_fmap_1 fst), entries_NoDup, wf_grouped. }
    intros [k c] [k' c'] Hin Hin' Heq.
    apply elem_of_entries in Hin, Hin'; [|apply wf_grouped..].
    destruct (Hkey k c Hin) as (t & _ & -> & Ht).
    destruct (Hkey k' c' Hin') as (t' & _ & -> & Ht').
    cbn in Heq. rewrite Ht, Ht' in Heq. subst t'.
    rewrite Hin in Hin'. by injection Hin' as ->.
  - intros row (k & c & Hk & ->)%elem_of_getDetailedStats.
    destruct (Hkey k c Hk) as (t & Ht & -> & ->).
    rewrite lookup_grouped_clean in Hk by done.
    destruct (existsb _ prs); [|done]. by injection Hk as <-.
  - intros t Hev.
    assert (clean t) as Ht.
    { apply existsb_exists in Hev as (pr & Hin%list_elem_of_In & Hpr).
      rewrite Forall_forall in Hprs.
      apply (touchedBy_clean dateFrom dateTo pr); [by apply Hprs|done]. }
    apply list_elem_of_fmap. eexists (toRow (keyOf t, _)).
    split; [by rewrite toRow_keyOf|].
    apply elem_of_getDetailedStats. eexists _, _. split; [|done].
    rewrite lookup_grouped_clean by done. by rewrite Hev.
Qed.

Lemma sum_indicator_fmap {A B : Type} `{EqDecision B} (f : A → B)
    (l : list A) (t0 : B) (b : bool) :
  NoDup (f <$> l) →
  sum_list_with (λ x, b2n (b && bool_decide (t0 = f x))) l
  = b2n (b && bool_decide (t0 ∈ f <$> l)).
Proof.
  induction l as [|x l IH]; cbn [fmap list_fmap sum_list_with].
  - intros _. rewrite bool_decide_eq_false_2 by apply not_elem_of_nil.
    by rewrite andb_false_r.
  - intros [Hx Hl]%NoDup_cons. rewrite (IH Hl). destruct b; cbn; [|done].
    destruct (decide (t0 = f x)) as [->|Hne].
    + rewrite bool_decide_eq_true_2 by done.
      rewrite (bool_decide_eq_false_2 (f x ∈ f <$> l)) by done.
      by rewrite bool_decide_eq_true_2 by apply list_elem_of_here.
    + rewrite bool_decide_eq_false_2 by done. cbn.
      apply f_equal, bool_decide_ext. rewrite elem_of_cons.
      split; [by right|by intros [?|?]].
Qed.

(** A sum over the rows of one author of numbers of pull requests is a
    number of pull requests, when each pull request counts for one
    triple of that author at most. *)
Lemma sum_rows_of_author (g : string * string * string → PullRequest.t → bool)
    (h : PullRequest.t → bool) (tr : PullRequest.t → string * string * string)
    (a : string) (prs : list PullRequest.t) (rows : list Row.t) :
  NoDup (triple <$> rows) →
  (∀ row pr, (if decide (Row.author row = a)
              then b2n (g (triple row) pr) else 0)
             = b2n (h pr && bool_decide (tr pr = triple row))) →
  (∀ pr, pr ∈ prs → h pr = true → tr pr ∈ triple <$> rows) →
  sum_list_with
    (λ row, if decide (Row.author row = a)
            then count (g (triple row)) prs else 0) rows
  = count h prs.
Proof.
  intros Hnd Hpoint Hin.
  rewrite (sum_list_with_ext_in _
             (λ row, sum_list_with
                       (λ pr, if decide (Row.author row = a)
                              then b2n (g (triple row) pr) else 0) prs)).
  2:{ intros row _. destruct (decide (Row.author row = a)).
      - apply count_sum.
      - clear. induction prs as [|pr prs IH]; [done|]. cbn. by rewrite <- IH. }
  rewrite (sum_list_with_swap
             (λ row pr, if decide (Row.author row = a)
                        then b2n (g (triple row) pr) else 0)).
  rewrite count_sum. apply sum_list_with_ext_in. intros pr Hpr.
  rewrite (sum_list_with_ext_in _
             (λ row, b2n (h pr && bool_decide (tr pr = triple row))))
    by (intros row _; apply Hpoint).
  rewrite sum_indicator_fmap by done.
  destruct (h pr) eqn:Hh; [|done].
  by rewrite bool_decide_eq_true_2 by by apply Hin.
Qed.

Lemma count_pos_inv {A : Type} (f : A → bool) (l : list A) :
  0 < count f l → ∃ x, x ∈ l ∧ f x = true.
Proof.
  induction l as [|x l IH]; cbn; [lia|].
  destruct (f x) eqn:Hx.
  - intros _. exists x. split; [apply list_elem_of_here|done].
  - intros H. destruct (IH H) as (y & Hy & Hfy). exists y.
    split; [by apply list_elem_of_further|done].
Qed.

Lemma existsb_ext {A : Type} (f g : A → bool) (l : list A) :
  (∀ x, f x = g x) → existsb f l = existsb g l.
Proof. intros H. induction l as [|x l IH]; cbn; [done|]. by rewrite H, IH. Qed.

Lemma createdBy_point (a : string) row pr :
  (if decide (Row.author row = a)
   then b2n (createdBy dateFrom dateTo (triple row) pr) else 0)
  = b2n (authoredBy a pr
         && bool_decide
              ((PullRequest.owner pr, PullRequest.repo pr,
                PullRequest.author pr) = triple row)).
Proof.
  unfold createdBy, authoredBy.
  destruct (inWindow (PullRequest.created_at pr)); cbn [andb].
  2:{ by destruct (decide _). }
  destruct (decide ((PullRequest.owner pr, PullRequest.repo pr,
                     PullRequest.author pr) = triple row)) as [Heq|Hne].
  - rewrite (bool_decide_eq_true_2 _ Heq).
    unfold triple in Heq. injection Heq as _ _ Ha. rewrite Ha, andb_true_r.
    destruct (decide (Row.author row = a)).
    + by rewrite bool_decide_eq_true_2.
    + by rewrite bool_decide_eq_false_2.
  - rewrite (bool_decide_eq_false_2 _ Hne), andb_false_r.
    by destruct (decide _).
Qed.

Lemma reviewedBy_point (P : Review.t → bool) (a : string) row pr :
  (if decide (Row.author row = a)
   then b2n (reviewedBy dateFrom dateTo P (triple row) pr) else 0)
  = b2n (reviewedAs P a pr
         && bool_decide
              ((PullRequest.owner pr, PullRequest.repo pr, a) = triple row)).
Proof.
  unfold reviewedBy, reviewedAs.
  destruct (decide ((PullRequest.owner pr, PullRequest.repo pr, a)
                    = triple row)) as [Heq|Hne].
  - rewrite (bool_decide_eq_true_2 _ Heq), andb_true_r.
    pose proof Heq as Heq'. unfold triple in Heq'.
    injection Heq' as Ho Hr Ha. rewrite decide_True by done.
    f_equal. rewrite <- Heq. apply existsb_ext. intros r. do 2 f_equal.
    apply bool_decide_ext. split; [by intros [= ->]|by intros ->].
  - rewrite (bool_decide_eq_false_2 _ Hne), andb_false_r.
    destruct (decide (Row.author row = a)) as [Ha|]; [|done].
    cbn. apply (f_equal b2n (y := false)), not_true_is_false.
    intros (r & _ & Hr)%existsb_exists.
    apply andb_true_iff in Hr as [[_ Hk%bool_decide_eq_true_1]%andb_true_iff _].
    apply Hne. unfold triple in Hk |- *. injection Hk as Ho Hr _.
    by rewrite Ho, Hr, Ha.
Qed.

Lemma authoredBy_touched a pr :
  authoredBy a pr = true →
  touchedBy dateFrom dateTo
    (PullRequest.owner pr, PullRequest.repo pr, a) pr = true.
Proof.
  unfold authoredBy, touchedBy, createdBy.
  intros [-> <-%bool_decide_eq_true_1]%andb_true_iff.
  by rewrite bool_decide_eq_true_2.
Qed.

Lemma reviewedAs_reviewedBy P a pr :
  reviewedAs P a pr
  = reviewedBy dateFrom dateTo P
      (PullRequest.owner pr, PullRequest.repo pr, a) pr.
Proof.
  unfold reviewedAs, reviewedBy. apply existsb_ext. intros r. do 2 f_equal.
  apply bool_decide_ext. split; [by intros ->|by intros [= ->]].
Qed.

Lemma reviewedBy_any P t pr :
  reviewedBy dateFrom dateTo P t pr = true →
  reviewedBy dateFrom dateTo anyState t pr = true.
Proof.
  unfold reviewedBy. rewrite !existsb_exists. intros (r & Hr & Ht).
  exists r. split; [done|]. apply andb_true_iff in Ht as [-> _]. done.
Qed.

Lemma reviewedAs_touched P a pr :
  reviewedAs P a pr = true →
  touchedBy dateFrom dateTo
    (PullRequest.owner pr, PullRequest.repo pr, a) pr = true.
Proof.
  rewrite reviewedAs_reviewedBy. intros H%reviewedBy_any.
  unfold touchedBy. rewrite H. apply orb_true_r.
Qed.

Lemma existsb_intro {A : Type} (f : A → bool) (l : list A) (x : A) :
  x ∈ l → f x = true → existsb f l = true.
Proof.
  intros Hin Hf. apply existsb_exists. exists x.
  by rewrite <- list_elem_of_In.
Qed.

Lemma touchedBy_author t pr :
  plainNames pr → touchedBy dateFrom dateTo t pr = true →
  Js.inherited t.2 = false.
Proof.
  intros (_ & Ha & Hrs). unfold touchedBy. intros [H|H]%orb_true_iff.
  - unfold createdBy in H.
    by apply andb_true_iff in H as [_ <-%bool_decide_eq_true_1].
  - unfold reviewedBy in H. apply existsb_exists in H as (r & Hin & H).
    apply andb_true_iff in H as [[_ <-%bool_decide_eq_true_1]%andb_true_iff _].
    by apply Hrs, list_elem_of_In.
Qed.

Lemma plainNames_slashFree prs : Forall plainNames prs → Forall slashFree prs.
Proof. intros H. eapply Forall_impl; [exact H|]. by intros pr [? _]. Qed.

(** The rows of pull requests with plain names are rows that
    [getSummary] is written for. *)
Lemma detailed_plain prs :
  Forall plainNames prs → Forall plain (getDetailedStats prs).
Proof.
  intros Hprs. apply Forall_forall. intros row Hrow.
  destruct (detailed_rows prs (plainNames_slashFree _ Hprs)) as (_ & Hrows & _).
  destruct (Hrows row Hrow) as ((Ho & _) & Hev & _). split; [done|].
  apply existsb_exists in Hev as (pr & Hpr%list_elem_of_In & Ht).
  rewrite Forall_forall in Hprs.
  apply (touchedBy_author (triple row) pr); [by apply Hprs|done].
Qed.

(** The sums of the counters over the rows of one author. *)
Lemma author_sums prs a :
  Forall slashFree prs →
  total Row.created (rowsOf a (getDetailedStats prs))
  = count (authoredBy a) prs
  ∧ total Row.commented (rowsOf a (getDetailedStats prs))
    = count (reviewedAs (isState "COMMENTED") a) prs
  ∧ total Row.approved (rowsOf a (getDetailedStats prs))
    = count (reviewedAs (isState "APPROVED") a) prs.
Proof.
  intros Hprs. destruct (detailed_rows prs Hprs) as (Hnd & Hrows & Hin).
  rewrite !total_rowsOf. split_and!.
  - rewrite (sum_list_with_ext_in _
               (λ row, if decide (Row.author row = a)
                       then count (createdBy dateFrom dateTo (triple row)) prs
                       else 0)).
    2:{ intros row Hrow. destruct (Hrows row Hrow) as (_ & _ & -> & _). done. }
    apply (sum_rows_of_author _ _
             (λ pr, (PullRequest.owner pr, PullRequest.repo pr,
                     PullRequest.author pr))); [done| |].
    + intros row pr. apply createdBy_point.
    + intros pr Hpr Ha. apply Hin. apply (existsb_intro _ _ pr); [done|].
      pose proof (authoredBy_touched a pr Ha) as Ht.
      unfold authoredBy in Ha.
      by apply andb_true_iff in Ha as [_ ->%bool_decide_eq_true_1].
  - rewrite (sum_list_with_ext_in _
               (λ row, if decide (Row.author row = a)
                       then count (reviewedBy dateFrom dateTo
                                     (isState "COMMENTED") (triple row)) prs
                       else 0)).
    2:{ intros row Hrow. destruct (Hrows row Hrow) as (_ & _ & _ & -> & _).
        done. }
    apply (sum_rows_of_author _ _
             (λ pr, (PullRequest.owner pr, PullRequest.repo pr, a)));
      [done| |].
    + intros row pr. apply reviewedBy_point.
    + intros pr Hpr Ha. apply Hin. apply (existsb_intro _ _ pr); [done|].
      by apply (reviewedAs_touched (isState "COMMENTED")).
  - rewrite (sum_list_with_ext_in _
               (λ row, if decide (Row.author row = a)
                       then count (reviewedBy dateFrom dateTo
                                     (isState "APPROVED") (triple row)) prs
                       else 0)).
    2:{ intros row Hrow. destruct (Hrows row Hrow) as (_ & _ & _ & _ & ->).
        done. }
    apply (sum_rows_of_author _ _
             (λ pr, (PullRequest.owner pr, PullRequest.repo pr, a)));
      [done| |].
    + intros row pr. apply reviewedBy_point.
    + intros pr Hpr Ha. apply Hin. apply (existsb_intro _ _ pr); [done|].
      by apply (reviewedAs_touched (isState "APPROVED")).
Qed.

Lemma reviewedAs_counted a pr :
  reviewedAs countedReview a pr
  = reviewedAs (isState "COMMENTED") a pr
    || reviewedAs (isState "APPROVED") a pr.
Proof.
  unfold reviewedAs, countedReview.
  induction (PullRequest.reviews pr) as [|r l IH]; [done|].
  cbn [existsb]. rewrite IH.
  destruct (qualifying pr r && bool_decide (Review.reviewer r = a)),
    (isState "COMMENTED" r), (isState "APPROVED" r),
    (existsb _ l), (existsb _ l); done.
Qed.

(** The row of [a] in the repository of [pr], when [pr] counts for it. *)
Lemma row_of_event prs pr a :
  Forall slashFree prs → pr ∈ prs →
  touchedBy dateFrom dateTo
    (PullRequest.owner pr, PullRequest.repo pr, a) pr = true →
  ∃ row, row ∈ rowsOf a (getDetailedStats prs)
         ∧ triple row = (PullRequest.owner pr, PullRequest.repo pr, a).
Proof.
  intros Hprs Hpr Ht. destruct (detailed_rows prs Hprs) as (_ & _ & Hin).
  destruct (proj1 (list_elem_of_fmap _ _ _)
              (Hin _ (existsb_intro _ _ pr Hpr Ht))) as (row & Hrow & HR).
  exists row. split; [|done]. unfold rowsOf. apply list_elem_of_filter.
  split; [|done]. unfold triple in Hrow. by injection Hrow as _ _ <-.
Qed.

(** The repositories of the rows of one author. *)
Lemma author_repos prs a :
  Forall slashFree prs →
  pairs (authoring (rowsOf a (getDetailedStats prs)))
  = repoSet (List.filter (authoredBy a) prs)
  ∧ pairs (reviewing (rowsOf a (getDetailedStats prs)))
    = repoSet (List.filter (reviewedAs countedReview a) prs).
Proof.
  intros Hprs. destruct (detailed_rows prs Hprs) as (_ & Hrows & _).
  unfold pairs, repoSet, authoring, reviewing, rowsOf.
  split; apply set_eq; intros [o r];
    rewrite !elem_of_list_to_set, !list_elem_of_fmap; split.
  - intros (row & [= -> ->] & [Hpos [Ha Hrow]%list_elem_of_filter]%list_elem_of_filter).
    destruct (Hrows row Hrow) as (_ & _ & Hc & _). rewrite Hc in Hpos.
    apply count_pos_inv in Hpos as (pr & Hpr & Hby).
    unfold createdBy in Hby.
    apply andb_true_iff in Hby as [Hw Ht%bool_decide_eq_true_1].
    unfold triple in Ht. injection Ht as Ho Hr Hau.
    exists pr. split; [by rewrite Ho, Hr|].
    apply list_elem_of_In, filter_In. split; [by apply list_elem_of_In|].
    unfold authoredBy. rewrite Hw, bool_decide_eq_true_2; [done|congruence].
  - intros (pr & [= -> ->] & [Hpr%list_elem_of_In Hby]%list_elem_of_In%filter_In).
    destruct (row_of_event prs pr a Hprs Hpr (authoredBy_touched a pr Hby))
      as (row & Hrow & Ht).
    exists row. split; [unfold triple in Ht; by injection Ht as -> -> _|].
    apply list_elem_of_filter. split; [|done].
    apply list_elem_of_filter in Hrow as [_ Hrow].
    destruct (Hrows row Hrow) as (_ & _ & -> & _). rewrite Ht.
    apply (count_pos _ _ pr); [done|]. unfold createdBy, authoredBy in *.
    apply andb_true_iff in Hby as [-> ->%bool_decide_eq_true_1].
    by rewrite bool_decide_eq_true_2.
  - intros (row & [= -> ->] & [Hpos [Ha Hrow]%list_elem_of_filter]%list_elem_of_filter).
    destruct (Hrows row Hrow) as (_ & _ & _ & Hm & Hp).
    assert (∃ pr P, pr ∈ prs
              ∧ reviewedBy dateFrom dateTo P (triple row) pr = true
              ∧ (P = isState "COMMENTED" ∨ P = isState "APPROVED"))
      as (pr & P & Hpr & Hby & HP).
    { destruct Hpos as [Hpos|Hpos].
      - rewrite Hm in Hpos. apply count_pos_inv in Hpos as (pr & ? & ?).
        exists pr, (isState "COMMENTED"). by auto.
      - rewrite Hp in Hpos. apply count_pos_inv in Hpos as (pr & ? & ?).
        exists pr, (isState "APPROVED"). by auto. }
    assert (triple row = (PullRequest.owner pr, PullRequest.repo pr, a))
      as Ht.
    { unfold reviewedBy in Hby. apply existsb_exists in Hby as (r0 & _ & Hr0).
      apply andb_true_iff in Hr0
        as [[_ Hk%bool_decide_eq_true_1]%andb_true_iff _].
      unfold triple in Hk |- *. injection Hk as Ho Hr _.
      by rewrite Ho, Hr, Ha. }
    exists pr. split; [unfold triple in Ht; by injection Ht as -> -> _|].
    apply list_elem_of_In, filter_In. split; [by apply list_elem_of_In|].
    rewrite reviewedAs_counted, !reviewedAs_reviewedBy, <- Ht.
    destruct HP as [-> | ->]; rewrite Hby; [done|apply orb_true_r].
  - intros (pr & [= -> ->] & [Hpr%list_elem_of_In Hby]%list_elem_of_In%filter_In).
    destruct (row_of_event prs pr a Hprs Hpr
                (reviewedAs_touched _ a pr Hby)) as (row & Hrow & Ht).
    exists row. split; [unfold triple in Ht; by injection Ht as -> -> _|].
    apply list_elem_of_filter. split; [|done].
    apply list_elem_of_filter in Hrow as [_ Hrow].
    destruct (Hrows row Hrow) as (_ & _ & _ & -> & ->). rewrite Ht.
    rewrite reviewedAs_counted, !reviewedAs_reviewedBy in Hby.
    apply orb_true_iff in Hby as [Hby|Hby]; [left|right];
      by apply (count_pos _ _ pr).
Qed.

(** X19: for pull requests whose names hold no slash and are no names
    of properties of [Object.prototype], [getSummary] applied to the
    detailed table returns one row per actor with an event in the
    window, and the row of actor [a] holds the number of pull requests
    that [a] created in the window, the numbers of pull requests on
    which [a] has a qualifying COMMENTED review and a qualifying
    APPROVED review, and the numbers of distinct repositories of the
    former and of the latter two. *)
Theorem summary_of_pull_requests prs :
  Forall plainNames prs →
  ∃ out,
    getSummary (getDetailedStats prs) = Some out
    ∧ NoDup (Summary.author <$> out)
    ∧ (∀ a, a ∈ Summary.author <$> out ↔
            existsb (λ pr, authoredBy a pr || reviewedAs anyState a pr) prs
            = true)
    ∧ ∀ s, s ∈ out →
        Summary.pull_requests s = count (authoredBy (Summary.author s)) prs
        ∧ Summary.commented s
          = count (reviewedAs (isState "COMMENTED") (Summary.author s)) prs
        ∧ Summary.approved s
          = count (reviewedAs (isState "APPROVED") (Summary.author s)) prs
        ∧ Summary.repos s
          = size (repoSet (List.filter (authoredBy (Summary.author s)) prs))
        ∧ Summary.repos_reviewed s
          = size (repoSet
                    (List.filter
                       (reviewedAs countedReview (Summary.author s)) prs)).
Proof.
  intros Hnames. pose proof (plainNames_slashFree _ Hnames) as Hprs.
  pose proof (detailed_plain prs Hnames) as Hplain.
  set (rows := getDetailedStats prs) in *.
  assert (Forall (λ row, Js.inherited (Row.author row) = false) rows) as Hin
    by (eapply Forall_impl; [exact Hplain|]; by intros row [_ ?]).
  destruct (reduce_summarise rows Js.empty Hin) as (fr & Hfr & Hwf & Hlook).
  specialize (Hwf wf_empty).
  assert (∀ a e, Js.props fr !! a = Some e ↔
            rowsOf a rows ≠ [] ∧ e = fold_left addRow (rowsOf a rows) Entry.init)
    as Hentry.
  { intros a e. rewrite Hlook. cbn. rewrite lookup_empty. unfold entryAfter.
    destruct (rowsOf a rows) as [|r l]; [by split; [|intros [? _]]|].
    cbn [default]. split; [by intros [= <-]|by intros [_ ->]]. }
  exists (toSummary <$> Js.entries fr). split_and!.
  - unfold getSummary, finalResult. by rewrite Hfr.
  - rewrite <- list_fmap_compose. by apply entries_NoDup.
  - intros a. rewrite <- list_fmap_compose.
    change (Summary.author ∘ toSummary) with (@fst string Entry.t).
    destruct (detailed_rows prs Hprs) as (_ & Hrows & Hev).
    rewrite list_elem_of_fmap. split.
    + intros ([a' e] & -> & Hae%elem_of_entries); [|done]. cbn [fst].
      apply Hentry in Hae as [Hne _].
      destruct (rowsOf a' rows) as [|row l] eqn:Hmine; [done|].
      assert (row ∈ rowsOf a' rows) as Hrow
        by (rewrite Hmine; apply list_elem_of_here).
      apply list_elem_of_filter in Hrow as [Ha Hrow].
      destruct (Hrows row Hrow) as (_ & Ht & _).
      apply existsb_exists in Ht as (pr & Hpr & Ht).
      apply existsb_exists. exists pr. split; [done|].
      assert (triple row = (Row.owner row, Row.repo row, a')) as Htr
        by (unfold triple; by rewrite Ha).
      rewrite Htr in Ht. unfold touchedBy in Ht.
      apply orb_true_iff in Ht as [Ht|Ht]; apply orb_true_iff; [left|right].
      * unfold createdBy in Ht. unfold authoredBy.
        apply andb_true_iff in Ht as [-> [= _ _ ->]%bool_decide_eq_true_1].
        by rewrite bool_decide_eq_true_2.
      * unfold reviewedBy in Ht. unfold reviewedAs.
        apply existsb_exists in Ht as (r & Hr & Ht).
        apply existsb_exists. exists r. split; [done|].
        apply andb_true_iff in Ht
          as [[-> [= _ _ ->]%bool_decide_eq_true_1]%andb_true_iff _].
        by rewrite bool_decide_eq_true_2.
    + intros (pr & Hpr%list_elem_of_In & Ht)%existsb_exists.
      assert (touchedBy dateFrom dateTo
                (PullRequest.owner pr, PullRequest.repo pr, a) pr = true)
        as Htouch.
      { apply orb_true_iff in Ht as [Ht|Ht].
        - by apply authoredBy_touched.
        - by apply (reviewedAs_touched anyState). }
      destruct (row_of_event prs pr a Hprs Hpr Htouch) as (row & Hrow & _).
      exists (a, fold_left addRow (rowsOf a rows) Entry.init).
      split; [done|]. apply elem_of_entries; [done|]. apply Hentry.
      split; [|done]. intros Hnil. fold rows in Hrow. rewrite Hnil in Hrow.
      by apply elem_of_nil in Hrow.
  - intros s ([a e] & -> & Hae%elem_of_entries)%list_elem_of_fmap; [|done].
    apply Hentry in Hae as [_ ->].
    cbn [toSummary Summary.author Summary.pull_requests Summary.commented
         Summary.approved Summary.repos Summary.repos_reviewed fst snd].
    destruct (fold_addRow_sums (rowsOf a rows) Entry.init) as (-> & -> & ->).
    destruct (fold_addRow_sets (rowsOf a rows) Entry.init) as (-> & ->).
    cbn [Entry.init Entry.pull_requests Entry.commented Entry.approved
         Entry.repos Entry.reposReviewed].
    rewrite !(left_id_L ∅ (∪)). unfold rows.
    destruct (author_sums prs a Hprs) as (-> & -> & ->).
    destruct (author_repos prs a Hprs) as (<- & <-).
    assert (∀ l, l ⊆ rows →
              Forall (λ r, Js.contains "/" (Row.owner r) = false) l) as Hown.
    { intros l Hl. apply Forall_forall. intros r Hr%Hl.
      rewrite Forall_forall in Hplain. by apply Hplain. }
    split_and!; [done..| |]; apply size_slash_pairs, Hown.
    + intros r Hr. unfold authoring, rowsOf in Hr.
      by apply list_elem_of_filter in Hr as [_ [_ ?]%list_elem_of_filter].
    + intros r Hr. unfold reviewing, rowsOf in Hr.
      by apply list_elem_of_filter in Hr as [_ [_ ?]%list_elem_of_filter].
Qed.

End EndToEndFacts.

(** ** The order of the summary rows *)

Lemma invoke_order {V : Type} (o o' : Js.obj V) (k : string) (f : V → V) :
  invoke o k f = Some o' → Js.order o' = Js.order o.
Proof.
  unfold invoke. destruct (Js.get o k); [|done]. intros [= <-].
  apply order_update.
Qed.

(** The callback of [getSummary] creates at most the key of the author,
    behind the keys that exist. *)
Lemma summarise_order acc0 item acc1 :
  summarise acc0 item = Some acc1 →
  Js.order acc1
  = if Js.has acc0 (Row.author item) then Js.order acc0
    else Js.order acc0 ++ [Row.author item].
Proof.
  unfold summarise.
  set (acc := if negb (Js.has acc0 (Row.author item))
              then Js.set acc0 (Row.author item) Entry.init else acc0).
  assert (Js.order acc
          = if Js.has acc0 (Row.author item) then Js.order acc0
            else Js.order acc0 ++ [Row.author item]) as <-.
  { unfold acc. destruct (Js.has acc0 (Row.author item)) eqn:Hhas; [done|].
    cbn. unfold Js.has in Hhas. apply orb_false_iff in Hhas as [-> _]. done. }
  clearbody acc.
  destruct (0 <? Row.created item)%nat; cbn [mbind option_bind].
  - destruct (invoke _ _ _) as [acc3|] eqn:H3; [|done].
    cbn [mbind option_bind]. apply invoke_order in H3.
    rewrite order_update in H3.
    destruct (_ || _).
    + intros ->%invoke_order. by rewrite !order_update.
    + intros [= <-]. by rewrite !order_update.
  - destruct (_ || _).
    + intros ->%invoke_order. by rewrite !order_update.
    + intros [= <-]. by rewrite !order_update.
Qed.

Lemma reduce_summarise_order stats acc0 acc1 :
  noInherited acc0 → wf acc0 →
  reduce summarise stats acc0 = Some acc1 →
  Js.order acc1
  = fold_left (λ seen a, if decide (a ∈ seen) then seen else seen ++ [a])
      (Row.author <$> ownRows stats) (Js.order acc0).
Proof.
  revert acc0. induction stats as [|item stats IH]; intros acc0 Hno Hwf.
  - by intros [= <-].
  - cbn [reduce]. unfold ownRows. rewrite filter_cons.
    destruct (Js.inherited (Row.author item)) eqn:Hin.
    + rewrite (summarise_inherited _ _ Hno Hin), decide_False by done.
      destruct (throwing item); [done|]. cbn [mbind option_bind].
      by apply IH.
    + rewrite decide_True by done.
      destruct (summarise_own acc0 item Hin) as (acc2 & Hs & Hwf2 & H2).
      rewrite Hs. cbn [mbind option_bind fmap list_fmap fold_left].
      intros Hred. rewrite (IH acc2); [| |by auto|done].
      2:{ intros k Hk. rewrite H2.
          destruct (decide (Row.author item = k)); [congruence|by apply Hno]. }
      f_equal. rewrite (summarise_order _ _ _ Hs). unfold Js.has.
      rewrite Hin, orb_false_r.
      destruct (decide (Row.author item ∈ Js.order acc0)) as [Hi|Hi].
      * by rewrite bool_decide_eq_true_2 by by apply (proj2 Hwf).
      * rewrite bool_decide_eq_false_2; [done|].
        intros Hs'. by apply Hi, (proj2 Hwf).
Qed.

#[local] Instance index_le_total : Total Js.index_le.
Proof. intros [a ?] [b ?]. unfold Js.index_le. cbn. lia. Qed.

Lemma indices_names (l : list string) :
  (Js.indices l).*2 = filter (λ a, is_Some (Js.array_index a)) l.
Proof.
  unfold Js.indices. induction l as [|a l IH]; [done|].
  rewrite filter_cons. cbn [omap list_omap].
  destruct (Js.array_index a) as [n|] eqn:Hidx; cbn.
  - rewrite decide_True by done. cbn. by f_equal.
  - rewrite decide_False by (by intros [? ?]). done.
Qed.

(** X20: the rows of the summary stand in the order of [Object.keys].
    With [seen] the authors that get an entry, in the order in which
    the detailed rows first name them: first come the authors of [seen]
    whose name is an array index, sorted by ascending index, then the
    other authors of [seen], in the order of [seen]. *)
Theorem summary_row_order stats out :
  getSummary stats = Some out →
  let seen := firstSeen (Row.author <$> ownRows stats) in
  let idx := merge_sort Js.index_le (Js.indices seen) in
  Summary.author <$> out
  = idx.*2 ++ filter (λ a, Js.array_index a = None) seen
  ∧ idx.*2 ≡ₚ filter (λ a, is_Some (Js.array_index a)) seen
  ∧ Sorted Js.index_le idx
  ∧ Forall (λ p, Js.array_index p.2 = Some p.1) idx.
Proof.
  intros Hout seen idx. unfold getSummary, finalResult in Hout.
  destruct (reduce summarise stats Js.empty) as [fr|] eqn:Hfr; [|done].
  injection Hout as <-.
  destruct (reduce_summarise_any stats Js.empty noInherited_empty)
    as [_ Hsome].
  destruct (Hsome fr Hfr) as (_ & Hwf & _). specialize (Hwf wf_empty).
  pose proof (reduce_summarise_order stats Js.empty fr noInherited_empty
                wf_empty Hfr) as Horder.
  split_and!.
  - rewrite <- list_fmap_compose.
    change (Summary.author ∘ toSummary) with (@fst string Entry.t).
    rewrite (entries_keys fr Hwf). unfold Js.keys. by rewrite Horder.
  - unfold idx. rewrite merge_sort_Permutation. apply reflexive_eq.
    apply indices_names.
  - apply Sorted_merge_sort, _.
  - unfold idx. rewrite merge_sort_Permutation. unfold Js.indices.
    apply Forall_forall. intros [n k] (k' & _ & Hk)%list_elem_of_omap.
    destruct (Js.array_index k') as [n'|] eqn:Hidx; [|done].
    by injection Hk as <- <-.
Qed.

(** ** [getSummary] on the table of [getDetailedStats] *)

Lemma detailed_owner dateFrom dateTo prs row :
  row ∈ getDetailedStats dateFrom dateTo prs →
  Js.contains "/" (Row.owner row) = false.
Proof.
  intros (k & c & _ & ->)%elem_of_getDetailedStats.
  unfold toRow. cbn [fst snd Row.owner]. by apply nth_split.
Qed.

(** The authors of the summary are authors of rows with an entry of
    their own. *)
Lemma summary_author_own stats out s :
  getSummary stats = Some out → s ∈ out →
  Js.inherited (Summary.author s) = false.
Proof.
  intros Hout Hs.
  destruct (elem_of_getSummary _ _ _ Hout Hs) as [Hrows _].
  destruct (rowsOf (Summary.author s) (ownRows stats)) as [|row l] eqn:Hf;
    [done|].
  assert (row ∈ rowsOf (Summary.author s) (ownRows stats)) as Hin
    by (rewrite Hf; apply list_elem_of_here).
  apply list_elem_of_filter in Hin as [<- Hin].
  by apply list_elem_of_filter in Hin as [? _].
Qed.

(** C2: [getSummary] does not summarise every table that [main] hands
    to it.  The pull request of the user [constructor], created in the
    window, gives one detailed row, and on that row [getSummary]
    throws: [acc[item.author]] finds the inherited property, no entry
    is made, and [repos] of the inherited function is undefined.  For
    every table of [getDetailedStats], [getSummary] returns one row per
    distinct author with the sums and the numbers of repositories of
    the claim exactly when no author of the table is the name of a
    property of [Object.prototype]. *)
Theorem getSummary_inherited_author :
  getDetailedStats Sample.dateFrom Sample.dateTo [Sample.byConstructor]
  = [ Row.Make "acme" "widgets" "constructor" 1 0 0 ]
  ∧ getSummary [ Row.Make "acme" "widgets" "constructor" 1 0 0 ] = None
  ∧ ∀ dateFrom dateTo prs,
      (∃ out,
         getSummary (getDetailedStats dateFrom dateTo prs) = Some out
         ∧ summarises (getDetailedStats dateFrom dateTo prs) out)
      ↔ Forall (λ row, Js.inherited (Row.author row) = false)
          (getDetailedStats dateFrom dateTo prs).
Proof.
  split; [by vm_compute|]. split; [by vm_compute|].
  intros dateFrom dateTo prs. split.
  - intros (out & Hout & _ & Hauthors & _).
    apply Forall_forall. intros row Hrow.
    assert (Row.author row
            ∈ Row.author <$> getDetailedStats dateFrom dateTo prs) as Ha
      by (apply list_elem_of_fmap; by exists row).
    apply Hauthors, list_elem_of_fmap in Ha as (s & -> & Hs).
    by apply (summary_author_own _ _ _ Hout).
  - intros Hown. apply getSummary_plain_rows.
    rewrite Forall_forall in Hown. apply Forall_forall. intros row Hrow.
    split; [by apply (detailed_owner dateFrom dateTo prs)|by apply Hown].
Qed.

(** ** The properties on the sample inputs *)

Lemma pull_request_order_witness :
  [Sample.pr1; Sample.pr2] ≡ₚ [Sample.pr2; Sample.pr1]
  ∧ getDetailedStats Sample.dateFrom Sample.dateTo [Sample.pr1; Sample.pr2]
    ≡ₚ getDetailedStats Sample.dateFrom Sample.dateTo [Sample.pr2; Sample.pr1].
Proof.
  split; [apply perm_swap|].
  apply (pull_request_order_irrelevant Sample.dateFrom Sample.dateTo).
  apply perm_swap.
Defined.

(** A window that ends where it starts. *)
Lemma empty_window_witness :
  (∀ a b, Sample.sept 15 = Some a → Sample.sept 15 = Some b → (b ≤ a + 1)%Z)
  ∧ getDetailedStats (Sample.sept 15) (Sample.sept 15)
      [Sample.pr1; Sample.pr2]
    = [].
Proof.
  assert (∀ a b, Sample.sept 15 = Some a → Sample.sept 15 = Some b →
                 (b ≤ a + 1)%Z) as H.
  { intros a b [= <-] [= <-]. lia. }
  split; [exact H|].
  exact (empty_window_empty_table (Sample.sept 15) (Sample.sept 15) _ H).
Defined.

Lemma sample_rows :
  getDetailedStats Sample.dateFrom Sample.dateTo [Sample.pr1; Sample.pr2]
  = Sample.rows.
Proof. vm_compute. reflexivity. Defined.

Lemma bob_in_rows :
  Row.Make "acme" "widgets" "bob" 0 2 1
  ∈ getDetailedStats Sample.dateFrom Sample.dateTo [Sample.pr1; Sample.pr2].
Proof.
  rewrite sample_rows. apply list_elem_of_further, list_elem_of_here.
Defined.

Lemma author_and_reviewer_witness :
  Row.Make "acme" "widgets" "bob" 0 2 1
  ∈ getDetailedStats Sample.dateFrom Sample.dateTo [Sample.pr1; Sample.pr2]
  ∧ 0 + 2 ≤ 2 ∧ 0 + 1 ≤ 2.
Proof.
  split; [exact bob_in_rows|].
  exact (author_and_reviewer_exclusive Sample.dateFrom Sample.dateTo
           [Sample.pr1; Sample.pr2] _ bob_in_rows).
Defined.

Lemma slashed_in_rows :
  Row.Make "a" "b" "c" 2 0 0
  ∈ getDetailedStats Sample.dateFrom Sample.dateTo Sample.slashed.
Proof. vm_compute. apply list_elem_of_here. Defined.

(** The two slashed triples of [Sample.slashed] come out as one triple
    without a slash. *)
Lemma rows_hold_no_slash_witness :
  Row.Make "a" "b" "c" 2 0 0
  ∈ getDetailedStats Sample.dateFrom Sample.dateTo Sample.slashed
  ∧ clean ("a", "b", "c").
Proof.
  split; [exact slashed_in_rows|].
  exact (rows_hold_no_slash Sample.dateFrom Sample.dateTo Sample.slashed _
           slashed_in_rows).
Defined.

Lemma getSummary_throws_witness :
  getSummary [Row.Make "acme" "widgets" "constructor" 1 0 0] = None.
Proof.
  apply (proj2 (getSummary_throws_iff _)).
  exists (Row.Make "acme" "widgets" "constructor" 1 0 0).
  split; [apply list_elem_of_here|]. split; [reflexivity|].
  left. cbn. lia.
Defined.

Lemma sample_summary : getSummary Sample.rows = Some Sample.summary.
Proof. vm_compute. reflexivity. Defined.

Lemma bob_in_summary : Summary.Make "bob" 0 0 2 1 1 ∈ Sample.summary.
Proof. apply list_elem_of_further, list_elem_of_here. Defined.

Lemma summary_repos_bounds_witness :
  getSummary Sample.rows = Some Sample.summary
  ∧ Summary.Make "bob" 0 0 2 1 1 ∈ Sample.summary
  ∧ 0 ≤ 0 ∧ (0 < 0 → 0 < 0) ∧ 1 ≤ 2 + 1 ∧ (0 < 2 + 1 → 0 < 1).
Proof.
  split; [exact sample_summary|]. split; [exact bob_in_summary|].
  exact (summary_repos_bounds Sample.rows Sample.summary _ sample_summary
           bob_in_summary).
Defined.

Lemma summary_totals_witness :
  getSummary Sample.rows = Some Sample.summary
  ∧ sum_list_with Summary.pull_requests Sample.summary
    = total Row.created Sample.rows
  ∧ sum_list_with Summary.commented Sample.summary
    = total Row.commented Sample.rows
  ∧ sum_list_with Summary.approved Sample.summary
    = total Row.approved Sample.rows.
Proof.
  split; [exact sample_summary|].
  exact (summary_totals Sample.rows Sample.summary sample_summary).
Defined.

Lemma summary_input_order_witness :
  Sample.numbered ≡ₚ reverse Sample.numbered
  ∧ match getSummary Sample.numbered, getSummary (reverse Sample.numbered) with
    | Some out, Some out' => out ≡ₚ out'
    | None, None => True
    | _, _ => False
    end.
Proof.
  assert (Sample.numbered ≡ₚ reverse Sample.numbered) as H.
  { symmetry. apply reverse_Permutation. }
  split; [exact H|].
  exact (summary_input_order_irrelevant _ _ H).
Defined.

Lemma getPullRequests_witness :
  getPullRequests Sample.dateFrom Sample.dateTo Sample.api "acme" "widgets"
  = [Sample.fresh; Sample.stale]
  ∧ Sample.stale ∈ concat (pulls Sample.api "acme" "widgets")
  ∧ (Payload.state Sample.stale = "open"
     ∨ strictlyInside Sample.dateFrom Sample.dateTo
         (Payload.created_at Sample.stale)).
Proof.
  split; [reflexivity|].
  apply (proj2 (getPullRequests_pages Sample.dateFrom Sample.dateTo Sample.api
                  "acme" "widgets")).
  apply list_elem_of_further, list_elem_of_here.
Defined.




(** The first of three repositories: 20 cells of 60. *)
Lemma displayProgress_witness :
  (0 < 3)%Z ∧ (0 ≤ 1 ≤ 3)%Z ∧ (60 * 1 < 2 ^ 53)%Z
  ∧ Display.displayProgress Sample.one Sample.three "@acme/widgets"
    = Some [ Display.clearLine;
             Display.cr +:+ Display.bar 20 +:+ " 1/3 @acme/widgets" ].
Proof.
  assert (0 < 3)%Z as H1 by lia. assert (0 ≤ 1 ≤ 3)%Z as H2 by lia.
  assert (60 * 1 < 2 ^ 53)%Z as H3 by lia.
  split; [exact H1|]. split; [exact H2|]. split; [exact H3|].
  exact (proj2 (proj2 (displayProgress_in_range Sample.one Sample.three
                         "@acme/widgets" H1 H2 H3))).
Defined.

Lemma displayProgress_throws_witness :
  (- 2 ^ 53 < 60 * 2 < 2 ^ 53)%Z ∧ (0 < 1)%Z
  ∧ Display.displayProgress Sample.two Sample.one "@acme/widgets" = None.
Proof.
  assert (- 2 ^ 53 < 60 * 2 < 2 ^ 53)%Z as H60 by lia.
  assert (0 < 1)%Z as H by lia.
  split; [exact H60|]. split; [exact H|].
  apply (proj2 (proj1 (displayProgress_throws_iff Sample.two Sample.one
                         "@acme/widgets" H60) H)).
  right. cbn. lia.
Defined.

Lemma displayDone_witness :
  (0 < 3)%Z ∧ (60 * 3 < 2 ^ 53)%Z
  ∧ ∃ writes,
      Display.displayProgress Sample.three Sample.three "Done" = Some writes
      ∧ Display.displayDone Sample.three = Some (writes ++ [Display.nl]).
Proof.
  assert (0 < 3)%Z as H by lia. assert (60 * 3 < 2 ^ 53)%Z as H60 by lia.
  split; [exact H|]. split; [exact H60|].
  exact (displayDone_is_full_progress Sample.three H H60).
Defined.

Lemma plainNames_sample : Forall plainNames [Sample.pr1; Sample.pr2].
Proof.
  pose proof slashFree_pr1 as H.
  apply Forall_cons_1 in H as [H1 H]. apply Forall_cons_1 in H as [H2 _].
  constructor; [|constructor; [|constructor]];
    (split; [assumption|split; [reflexivity|]]);
    intros r Hr;
    repeat (apply elem_of_cons in Hr as [->|Hr]; [reflexivity|]);
    by apply elem_of_nil in Hr.
Defined.

Lemma summary_of_pull_requests_witness :
  Forall plainNames [Sample.pr1; Sample.pr2]
  ∧ ∃ out,
      getSummary
        (getDetailedStats Sample.dateFrom Sample.dateTo
           [Sample.pr1; Sample.pr2])
      = Some out
      ∧ NoDup (Summary.author <$> out).
Proof.
  split; [exact plainNames_sample|].
  destruct (summary_of_pull_requests Sample.dateFrom Sample.dateTo
              [Sample.pr1; Sample.pr2] plainNames_sample)
    as (out & Hout & Hnodup & _).
  exists out. split; [exact Hout|exact Hnodup].
Defined.

Lemma numbered_summary :
  getSummary Sample.numbered
  = Some [ Summary.Make "2" 1 1 0 0 0; Summary.Make "7" 1 1 0 0 0;
           Summary.Make "10" 0 0 1 0 1; Summary.Make "bob" 1 1 0 1 1 ].
Proof. vm_compute. reflexivity. Defined.

(** The authors 2, 7 and 10 come first, by their number, whatever the
    place of their rows. *)
Lemma summary_row_order_witness :
  getSummary Sample.numbered
  = Some [ Summary.Make "2" 1 1 0 0 0; Summary.Make "7" 1 1 0 0 0;
           Summary.Make "10" 0 0 1 0 1; Summary.Make "bob" 1 1 0 1 1 ]
  ∧ firstSeen (Row.author <$> ownRows Sample.numbered)
    = ["bob"; "7"; "10"; "2"]
  ∧ ["2"; "7"; "10"; "bob"]
    = (merge_sort Js.index_le (Js.indices ["bob"; "7"; "10"; "2"])).*2
      ++ filter (λ a, Js.array_index a = None) ["bob"; "7"; "10"; "2"].
Proof.
  split; [exact numbered_summary|]. split; [reflexivity|].
  exact (proj1 (summary_row_order Sample.numbered _ numbered_summary)).
Defined.

Lemma own_sample :
  Forall (λ row, Js.inherited (Row.author row) = false)
    (getDetailedStats Sample.dateFrom Sample.dateTo [Sample.pr1; Sample.pr2]).
Proof. rewrite sample_rows. repeat constructor. Defined.

Lemma getSummary_witness :
  Forall (λ row, Js.inherited (Row.author row) = false)
    (getDetailedStats Sample.dateFrom Sample.dateTo [Sample.pr1; Sample.pr2])
  ∧ ∃ out,
      getSummary
        (getDetailedStats Sample.dateFrom Sample.dateTo [Sample.pr1; Sample.pr2])
      = Some out
      ∧ summarises
          (getDetailedStats Sample.dateFrom Sample.dateTo
             [Sample.pr1; Sample.pr2]) out.
Proof.
  split; [exact own_sample|].
  destruct getSummary_inherited_author as (_ & _ & H).
  exact (proj2 (H Sample.dateFrom Sample.dateTo [Sample.pr1; Sample.pr2])
           own_sample).
Defined.
